(** * screenshot-tweets: the acquisition and adaptation pipeline

    A shallow embedding of the decision logic of the repository:

    - [internal/errors/errors.go]: error categories, retry eligibility and
      the exponential back-off delay;
    - [screenshot/capture.go]: recognising YouTube URLs, extracting the video
      identifier, the thumbnail quality ladder and the fall-back to the
      headless browser;
    - [screenshot/resize.go]: the smart-crop step that derives the social
      media images, the copies for the platforms and the file names;
    - [markdown/parser.go]: reading the journal, adding a screenshot
      reference and writing the journal back;
    - [config/config.go]: loading and validating the configuration.

    Go strings are byte strings ([string]); Go [int] and [time.Duration] are
    integers ([Z]); the file system is a finite map from paths to contents;
    side effects go through an explicit [World]. *)

From Stdlib Require Import ZArith QArith Qround Qpower Qminmax Lia Lqa List Sorted Bool Ascii String DecimalString.
From Stdlib Require DecimalPos DecimalZ.
From stdpp Require Import base option gmap strings.

Local Open Scope string_scope.
Local Open Scope Z_scope.

(** ** Go library functions on strings *)

Module GoStrings.

(** [unicode.ToLower] on one byte.  Only the ASCII letters are folded; the
    bytes of multi-byte runes are left alone. *)
Definition lower_byte (c : ascii) : ascii :=
  let n := nat_of_ascii c in
  if (65 <=? n)%nat && (n <=? 90)%nat then ascii_of_nat (n + 32) else c.

(** [strings.ToLower]. *)
Fixpoint ToLower (s : string) : string :=
  match s with
  | EmptyString => EmptyString
  | String c s' => String (lower_byte c) (ToLower s')
  end.

(** [strings.HasPrefix s prefix]. *)
Fixpoint HasPrefix (s prefix : string) : bool :=
  match prefix, s with
  | EmptyString, _ => true
  | String _ _, EmptyString => false
  | String p ps, String c cs => Ascii.eqb c p && HasPrefix cs ps
  end.

(** [strings.TrimPrefix], as an option: [None] when [prefix] does not
    start [s]. *)
Fixpoint CutPrefix (s prefix : string) : option string :=
  match prefix, s with
  | EmptyString, _ => Some s
  | String _ _, EmptyString => None
  | String p ps, String c cs => if Ascii.eqb c p then CutPrefix cs ps else None
  end.

(** [strings.Contains s substr]: [substr] starts at some position of [s]. *)
Fixpoint Contains (s substr : string) : bool :=
  HasPrefix s substr ||
  match s with
  | EmptyString => false
  | String _ s' => Contains s' substr
  end.

(** [%d] of [fmt.Sprintf]. *)
Definition Itoa (n : Z) : string := NilZero.string_of_int (Z.to_int n).

End GoStrings.

(** ** float64

    A [float64] is modelled by the real number it stands for: a rational, an
    infinity or NaN.  Arithmetic is exact: the rounding of each operation to
    53 bits is not modelled, and neither is the sign of zero (a zero is
    [+0]).  The model and the machine agree on an operation whose exact
    result is a float64 value, that is [m * 2 ^ e] with [|m| <= 2 ^ 53] (and
    [e] in range); in particular on the integers up to [2 ^ 53].  Division
    by zero and the arithmetic of infinities and NaN follow IEEE 754.
    [int] has 64 bits. *)

Module float64.

Inductive t :=
| Fin (q : Q)
| Inf (negative : bool)
| NaN.

(** What [int(f)] yields when [f] is NaN, infinite or outside the range of
    the integer type: Go leaves it to the implementation (amd64 yields the
    smallest integer, arm64 saturates). *)
Class Conversion := unrepresentable : t -> Z.

Definition is_zero (q : Q) : bool := (Qnum q =? 0)%Z.
Definition is_neg (q : Q) : bool := (Qnum q <? 0)%Z.

(** [float64(n)] *)
Definition of_int (n : Z) : t := Fin (inject_Z n).

Definition mul (x y : t) : t :=
  match x, y with
  | NaN, _ | _, NaN => NaN
  | Fin a, Fin b => Fin (Qred (a * b))
  | Fin a, Inf s | Inf s, Fin a =>
      if is_zero a then NaN else Inf (xorb s (is_neg a))
  | Inf s1, Inf s2 => Inf (xorb s1 s2)
  end.

Definition div (x y : t) : t :=
  match x, y with
  | NaN, _ | _, NaN => NaN
  | Fin a, Fin b =>
      if is_zero b then (if is_zero a then NaN else Inf (is_neg a))
      else Fin (Qred (a / b))
  | Fin _, Inf _ => Fin 0
  | Inf s, Fin b => Inf (xorb s (is_neg b))
  | Inf _, Inf _ => NaN
  end.

Definition add (x y : t) : t :=
  match x, y with
  | NaN, _ | _, NaN => NaN
  | Fin a, Fin b => Fin (Qred (a + b))
  | Fin _, Inf s | Inf s, Fin _ => Inf s
  | Inf s1, Inf s2 => if Bool.eqb s1 s2 then Inf s1 else NaN
  end.

(** [x < y]; false as soon as one side is NaN. *)
Definition ltb (x y : t) : bool :=
  match x, y with
  | NaN, _ | _, NaN => false
  | Fin a, Fin b => match Qcompare a b with Lt => true | _ => false end
  | Fin _, Inf s => negb s
  | Inf s, Fin _ => s
  | Inf s1, Inf s2 => s1 && negb s2
  end.

(** [x > y] *)
Definition gtb (x y : t) : bool := ltb y x.

(** [x <= y]; false as soon as one side is NaN. *)
Definition leb (x y : t) : bool :=
  match x, y with
  | NaN, _ | _, NaN => false
  | _, _ => negb (ltb y x)
  end.

(** [math.Floor] *)
Definition floor (x : t) : t :=
  match x with
  | Fin a => Fin (inject_Z (Qfloor a))
  | _ => x
  end.

(** [math.Max] *)
Definition max (x y : t) : t :=
  match x, y with
  | Inf false, _ | _, Inf false => Inf false
  | NaN, _ | _, NaN => NaN
  | Inf true, z | z, Inf true => z
  | Fin a, Fin b => if ltb x y then y else x
  end.

(** Truncation toward zero. *)
Definition trunc (q : Q) : Z := Z.quot (Qnum q) (Z.pos (Qden q)).

Definition min_int64 : Z := - 2 ^ 63.
Definition max_int64 : Z := 2 ^ 63 - 1.

(** [int(f)], [int64(f)], [time.Duration(f)]: the fraction is discarded. *)
Definition to_int `{Conversion} (f : t) : Z :=
  match f with
  | Fin q =>
      let n := trunc q in
      if (min_int64 <=? n) && (n <=? max_int64) then n else unrepresentable f
  | _ => unrepresentable f
  end.

(** The conversion of the amd64 port (CVTTSD2SQ): the "integer indefinite"
    value. *)
Definition amd64 : Conversion := fun _ => min_int64.

End float64.

(** ** Go errors *)

Module errors.

Record ScreenshotError := {
  URL : string;
  Day : Z;
  ErrorType : string;
  Message : string;
  Timestamp : Z
}.

(** The [error] values the package handles, by dynamic type. *)
Inductive error :=
| errorString (msg : string)              (* fmt.Errorf, errors.New *)
| netError (msg : string)                 (* a type implementing net.Error *)
| screenshotError (e : ScreenshotError).  (* *ScreenshotError *)

Definition ScreenshotError_Error (e : ScreenshotError) : string :=
  "screenshot error (Day " ++ GoStrings.Itoa (Day e) ++ ", " ++ ErrorType e
    ++ "): " ++ URL e ++ " - " ++ Message e.

(** [err.Error()] *)
Definition Error (err : error) : string :=
  match err with
  | errorString msg => msg
  | netError msg => msg
  | screenshotError e => ScreenshotError_Error e
  end.

(** [_, ok := err.(net.Error)] *)
Definition is_net_Error (err : error) : bool :=
  match err with
  | netError _ => true
  | _ => false
  end.

Definition categorizeError (err : error) : string :=
  let errStr := GoStrings.ToLower (Error err) in
  if GoStrings.Contains errStr "timeout"
     || GoStrings.Contains errStr "context deadline exceeded" then "timeout"
  else if GoStrings.Contains errStr "404"
     || GoStrings.Contains errStr "not found" then "not_found"
  else if GoStrings.Contains errStr "403"
     || GoStrings.Contains errStr "forbidden" then "forbidden"
  else if GoStrings.Contains errStr "500"
     || GoStrings.Contains errStr "502"
     || GoStrings.Contains errStr "503" then "server_error"
  else if GoStrings.Contains errStr "dns"
     || GoStrings.Contains errStr "no such host" then "dns_error"
  else if is_net_Error err then "network_error"
  else if GoStrings.Contains errStr "connection refused"
     || GoStrings.Contains errStr "connection reset" then "connection_error"
  else if GoStrings.Contains errStr "browser"
     || GoStrings.Contains errStr "launch" then "browser_error"
  else "unknown".

(** [now] stands for [time.Now()]. *)
Definition NewScreenshotError (now : Z) (url : string) (day : Z) (err : error)
  : ScreenshotError :=
  let errorType := categorizeError err in
  {| URL := url; Day := day; ErrorType := errorType;
     Message := Error err; Timestamp := now |}.

Definition retryablePatterns : list string :=
  [ "timeout"; "context deadline exceeded"; "connection refused";
    "connection reset"; "502"; "503"; "504" ].

Definition IsRetryableError (err : error) : bool :=
  match err with
  | screenshotError screenshotErr =>
      let ty := ErrorType screenshotErr in
      if String.eqb ty "timeout" || String.eqb ty "server_error"
         || String.eqb ty "network_error" || String.eqb ty "connection_error"
      then true
      else if String.eqb ty "not_found" || String.eqb ty "forbidden"
         || String.eqb ty "dns_error" || String.eqb ty "browser_error"
      then false
      else false
  | _ =>
      let errStr := GoStrings.ToLower (Error err) in
      existsb (fun pattern => GoStrings.Contains errStr pattern) retryablePatterns
  end.

Record RetryConfig := {
  MaxRetries : Z;
  InitialDelay : Z;            (* time.Duration: nanoseconds *)
  BackoffFactor : float64.t;
  MaxDelay : Z;                (* time.Duration *)
  RetryableErrors : list string
}.

Definition Second : Z := 1000000000.

Definition NewDefaultRetryConfig : RetryConfig :=
  {| MaxRetries := 3;
     InitialDelay := 1 * Second;
     BackoffFactor := float64.Fin 2;
     MaxDelay := 30 * Second;
     RetryableErrors :=
       [ "timeout"; "server_error"; "network_error"; "connection_error" ] |}.

Definition ShouldRetry (rc : RetryConfig) (err : error) (attempt : Z) : bool :=
  if attempt >=? MaxRetries rc then false
  else IsRetryableError err.

(** The loop [for i := 0; i < attempt; i++ { multiplier *= rc.BackoffFactor }]
    with [n] iterations left. *)
Fixpoint backoff_loop (factor : float64.t) (n : nat) (multiplier : float64.t)
  : float64.t :=
  match n with
  | O => multiplier
  | S n' => backoff_loop factor n' (float64.mul multiplier factor)
  end.

Definition GetDelay `{float64.Conversion} (rc : RetryConfig) (attempt : Z) : Z :=
  let multiplier :=
    backoff_loop (BackoffFactor rc) (Z.to_nat attempt) (float64.Fin 1) in
  let delay :=
    float64.to_int (float64.mul (float64.of_int (InitialDelay rc)) multiplier) in
  if delay >? MaxDelay rc then MaxDelay rc
  else delay.

End errors.

(** ** Package image of the Go library: points and rectangles *)

Module image.

Record Point := { X : Z; Y : Z }.
Record Rectangle := { Min : Point; Max : Point }.

Definition Pt (x y : Z) : Point := {| X := x; Y := y |}.

(** [image.Rect]: the corners are put in order. *)
Definition Rect (x0 y0 x1 y1 : Z) : Rectangle :=
  let '(x0, x1) := if x0 >? x1 then (x1, x0) else (x0, x1) in
  let '(y0, y1) := if y0 >? y1 then (y1, y0) else (y0, y1) in
  {| Min := Pt x0 y0; Max := Pt x1 y1 |}.

(** [image.ZR], the bounds of [&image.NRGBA{}]. *)
Definition ZR : Rectangle := {| Min := Pt 0 0; Max := Pt 0 0 |}.

Definition Dx (r : Rectangle) : Z := X (Max r) - X (Min r).
Definition Dy (r : Rectangle) : Z := Y (Max r) - Y (Min r).

Definition Empty (r : Rectangle) : bool :=
  (X (Min r) >=? X (Max r)) || (Y (Min r) >=? Y (Max r)).

Definition Intersect (r s : Rectangle) : Rectangle :=
  let r' :=
    {| Min := Pt (Z.max (X (Min r)) (X (Min s))) (Z.max (Y (Min r)) (Y (Min s)));
       Max := Pt (Z.min (X (Max r)) (X (Max s))) (Z.min (Y (Max r)) (Y (Max s))) |} in
  if Empty r' then ZR else r'.

Definition Sub (r : Rectangle) (p : Point) : Rectangle :=
  {| Min := Pt (X (Min r) - X p) (Y (Min r) - Y p);
     Max := Pt (X (Max r) - X p) (Y (Max r) - Y p) |}.

End image.

(** ** Package imaging (github.com/disintegration/imaging)

    The library is a dependency of the repository.  Its pictures are kept
    symbolic: a picture records the operation that produced it, and [Bounds]
    gives its rectangle.  Each function has the guards of the library ("an
    empty image is returned when ...") and the size its documentation
    states; pixels are not modelled. *)

Module imaging.

Inductive ResampleFilter := Lanczos.
Inductive Anchor := Center.

Inductive Image :=
| Decoded (bounds : image.Rectangle)    (* any [image.Image] handed to the package *)
| EmptyNRGBA                            (* [&image.NRGBA{}] *)
| Cloned (src : Image)
| Cropped (src : Image) (r : image.Rectangle)
| Resized (src : Image) (w h : Z) (filter : ResampleFilter)
| Filled (src : Image) (w h : Z) (anchor : Anchor) (filter : ResampleFilter)
| Sharpened (src : Image) (sigma : float64.t).

(** [img.Bounds()].  Every picture made by the library starts at (0, 0). *)
Fixpoint Bounds (img : Image) : image.Rectangle :=
  match img with
  | Decoded b => b
  | EmptyNRGBA => image.ZR
  | Cloned src | Sharpened src _ =>
      image.Rect 0 0 (image.Dx (Bounds src)) (image.Dy (Bounds src))
  | Cropped _ r => image.Rect 0 0 (image.Dx r) (image.Dy r)
  | Resized _ w h _ | Filled _ w h _ _ => image.Rect 0 0 w h
  end.

(** [imaging.Crop]: the part of [rect] that lies inside the picture. *)
Definition Crop (img : Image) (rect : image.Rectangle) : Image :=
  let r := image.Sub (image.Intersect rect (Bounds img)) (image.Min (Bounds img)) in
  if image.Empty r then EmptyNRGBA
  else Cropped img r.

(** [imaging.Resize]: a zero [width] or [height] keeps the aspect ratio
    (rounded to the nearest pixel, at least 1). *)
Definition Resize `{float64.Conversion} (img : Image) (width height : Z)
    (filter : ResampleFilter) : Image :=
  let dstW := width in
  let dstH := height in
  if (dstW <? 0) || (dstH <? 0) then EmptyNRGBA
  else if (dstW =? 0) && (dstH =? 0) then EmptyNRGBA
  else
    let srcW := image.Dx (Bounds img) in
    let srcH := image.Dy (Bounds img) in
    if (srcW <=? 0) || (srcH <=? 0) then EmptyNRGBA
    else
      let dstW :=
        if dstW =? 0 then
          let tmpW := float64.div (float64.mul (float64.of_int dstH) (float64.of_int srcW))
                                  (float64.of_int srcH) in
          float64.to_int
            (float64.max (float64.Fin 1)
               (float64.floor (float64.add tmpW (float64.Fin (1 # 2)))))
        else dstW in
      let dstH :=
        if dstH =? 0 then
          let tmpH := float64.div (float64.mul (float64.of_int dstW) (float64.of_int srcH))
                                  (float64.of_int srcW) in
          float64.to_int
            (float64.max (float64.Fin 1)
               (float64.floor (float64.add tmpH (float64.Fin (1 # 2)))))
        else dstH in
      if (srcW =? dstW) && (srcH =? dstH) then Cloned img
      else Resized img dstW dstH filter.

(** [imaging.Fill]: "creates an image with the specified dimensions and
    fills it with the scaled source image", cropping around the anchor. *)
Definition Fill (img : Image) (width height : Z) (anchor : Anchor)
    (filter : ResampleFilter) : Image :=
  let dstW := width in
  let dstH := height in
  if (dstW <=? 0) || (dstH <=? 0) then EmptyNRGBA
  else
    let srcW := image.Dx (Bounds img) in
    let srcH := image.Dy (Bounds img) in
    if (srcW <=? 0) || (srcH <=? 0) then EmptyNRGBA
    else if (srcW =? dstW) && (srcH =? dstH) then Cloned img
    else Filled img dstW dstH anchor filter.

(** [imaging.Sharpen]: same size as the source. *)
Definition Sharpen (img : Image) (sigma : float64.t) : Image :=
  if float64.leb sigma (float64.Fin 0) then Cloned img
  else Sharpened img sigma.

End imaging.

(** ** Package screenshot *)

Module screenshot.

Import imaging.
Abbreviation error := errors.error.

(** *** resize.go *)

Record SocialMediaPlatform := {
  Name : string;
  Width : Z;
  Height : Z
}.

Definition PlatformConfigs : gmap string SocialMediaPlatform :=
  {[ "twitter" := {| Name := "Twitter/X"; Width := 1200; Height := 628 |};
     "linkedin" := {| Name := "LinkedIn"; Width := 1200; Height := 627 |} ]}.

Definition SmartCrop `{float64.Conversion} (img : Image)
    (targetWidth targetHeight : Z) : Image :=
  let bounds := Bounds img in
  let originalWidth := image.Dx bounds in
  let originalHeight := image.Dy bounds in
  let targetRatio :=
    float64.div (float64.of_int targetWidth) (float64.of_int targetHeight) in
  let originalRatio :=
    float64.div (float64.of_int originalWidth) (float64.of_int originalHeight) in
  let resized :=
    if float64.gtb originalRatio targetRatio then
      let newHeight :=
        float64.to_int (float64.div (float64.of_int originalWidth) targetRatio) in
      if newHeight <=? originalHeight then
        Crop img (image.Rect 0 0 originalWidth newHeight)
      else
        Resize img targetWidth 0 Lanczos
    else if float64.ltb originalRatio targetRatio then
      let newWidth :=
        float64.to_int (float64.mul (float64.of_int originalHeight) targetRatio) in
      if newWidth <=? originalWidth then
        Crop img (image.Rect 0 0 newWidth originalHeight)
      else
        Resize img 0 targetHeight Lanczos
    else
      Resize img targetWidth targetHeight Lanczos in
  let resized := Fill resized targetWidth targetHeight Center Lanczos in
  Sharpen resized (float64.Fin (1 # 2)).

(** *** capture.go: recognising YouTube URLs *)

Definition httpTimeout : Z := 10 * errors.Second.

(** The three alternatives of the group
    [(youtube\.com/watch\?v=|youtu\.be/|youtube\.com/embed/)]. *)
Definition watch_marker : string := "youtube.com/watch?v=".
Definition short_marker : string := "youtu.be/".
Definition embed_marker : string := "youtube.com/embed/".

(** The language of [^https?://(www\.)?( ... | ... | ... )]: a scheme, an
    optional [www.], one of the markers.  The pattern is anchored at the
    start of the text only. *)
Definition youtubeURLRegex : list string :=
  scheme ← ["https://"; "http://"];
  www ← ["www."; ""];
  marker ← [watch_marker; short_marker; embed_marker];
  [scheme ++ www ++ marker].

(** [re.MatchString(s)] for such a pattern. *)
Definition MatchString (re : list string) (s : string) : bool :=
  existsb (GoStrings.HasPrefix s) re.

(** The class [[a-zA-Z0-9_-]]. *)
Definition id_char (c : ascii) : bool :=
  let n := nat_of_ascii c in
  ((97 <=? n) && (n <=? 122) || (65 <=? n) && (n <=? 90)
   || (48 <=? n) && (n <=? 57) || (n =? 95) || (n =? 45))%nat.

(** A pattern [literal([class]{count})]: a literal text followed by one
    capture group. *)
Record IDPattern := {
  literal : string;
  class : ascii -> bool;
  count : nat
}.

Definition youtubeIDPatterns : list IDPattern :=
  [ {| literal := watch_marker; class := id_char; count := 11 |};
    {| literal := short_marker; class := id_char; count := 11 |};
    {| literal := embed_marker; class := id_char; count := 11 |} ].

(** [[class]{n}] at the start of [s]: the text it matches. *)
Fixpoint match_class (class : ascii -> bool) (n : nat) (s : string) : option string :=
  match n with
  | O => Some EmptyString
  | S n' =>
      match s with
      | String c s' =>
          if class c then String c <$> match_class class n' s' else None
      | EmptyString => None
      end
  end.

(** The pattern matched at the start of [s]: the text of group 1. *)
Definition match_here (re : IDPattern) (s : string) : option string :=
  GoStrings.CutPrefix s (literal re) ≫= match_class (class re) (count re).

(** [re.FindStringSubmatch(s)], reduced to group 1 of the leftmost match;
    [None] stands for the nil slice. *)
Fixpoint FindStringSubmatch (re : IDPattern) (s : string) : option string :=
  match match_here re s with
  | Some group => Some group
  | None =>
      match s with
      | EmptyString => None
      | String _ s' => FindStringSubmatch re s'
      end
  end.

Definition isYouTubeURL (url : string) : bool :=
  MatchString youtubeURLRegex url.

(** The loop of [extractYouTubeVideoID] over the patterns still to try. *)
Fixpoint extract_loop (patterns : list IDPattern) (url : string) : string + error :=
  match patterns with
  | re :: rest =>
      match FindStringSubmatch re url with
      | Some group => inl group
      | None => extract_loop rest url
      end
  | [] => inr (errors.errorString ("could not extract video ID from URL: " ++ url))
  end.

Definition extractYouTubeVideoID (url : string) : string + error :=
  extract_loop youtubeIDPatterns url.

(** *** capture.go: the world outside the program *)

Record ScreenshotConfig := {
  ViewportWidth : Z;
  ViewportHeight : Z;
  Timeout : Z;                 (* time.Duration *)
  OutputDir : string;
  UserAgent : string
}.

Definition NewDefaultConfig : ScreenshotConfig :=
  {| ViewportWidth := 800;
     ViewportHeight := 600;
     Timeout := 30 * errors.Second;
     OutputDir := ".";
     UserAgent := "Mozilla/5.0 (Macintosh; Intel Mac OS X 10_15_7) AppleWebKit/537.36 (KHTML, like Gecko) Chrome/120.0.0.0 Safari/537.36" |}.

(** What [client.Get] comes back with. *)
Inductive HTTPResult :=
| TransportError (msg : string)
    (* no response: [err != nil], a [*url.Error] *)
| Response (StatusCode : Z) (body : string) (broken : option (nat * string)).
    (* a response; with [broken = Some (n, msg)] copying the body stops
       with error [msg] after [n] bytes *)

(** The steps of the headless browser that can fail. *)
Inductive Stage :=
| Launch | Connect | CreatePage | SetViewport | SetUserAgent | Navigate
| WaitLoad | FontsReady | WaitStable | Screenshot.

(** The answers of the network, the file system and the browser. *)
Record Env := {
  http_get : string -> HTTPResult;
  create_error : string -> option string;    (* [os.Create path] fails *)
  write_error : string -> option string;     (* [os.WriteFile path] fails *)
  write_left : string -> option nat;
    (* what a failing [os.WriteFile path] leaves: [None] when the file
       could not be opened, [Some n] when it was created or truncated and
       [n] bytes reached it *)
  browser_error : string -> Stage -> option string;
  browser_png : string -> ScreenshotConfig -> string;
  filepath_Join : string -> string -> string
}.

(** What the program did to the outside, in order. *)
Inductive Event :=
| HTTPGet (url : string)
| LaunchBrowser
| NavigateTo (url : string).

Record World := {
  files : gmap string string;    (* path -> contents *)
  trace : list Event
}.

Definition M (A : Type) : Type := World -> A * World.

#[export] Instance M_ret : MRet M := fun A a w => (a, w).
#[export] Instance M_bind : MBind M :=
  fun A B f m w => let '(a, w') := m w in f a w'.

Definition emit (e : Event) : M unit :=
  fun w => (tt, {| files := files w; trace := trace w ++ [e] |}).

Definition write_file (path contents : string) : M unit :=
  fun w => (tt, {| files := <[path := contents]> (files w); trace := trace w |}).

(** [fmt.Errorf(prefix + ": %w", err)] *)
Definition wrap (prefix msg : string) : error :=
  errors.errorString (prefix ++ ": " ++ msg).

(** *** capture.go: the thumbnail ladder *)

Definition thumbnailURL (videoID quality : string) : string :=
  "https://img.youtube.com/vi/" ++ videoID ++ "/" ++ quality ++ ".jpg".

Definition downloadThumbnail (env : Env) (videoID quality outputPath : string)
  : M (option error) :=
  let url := thumbnailURL videoID quality in
  _ ← emit (HTTPGet url);
  match http_get env url with
  | TransportError msg => mret (Some (errors.netError msg))
  | Response StatusCode body broken =>
      if negb (StatusCode =? 200) then
        mret (Some (errors.errorString ("HTTP " ++ GoStrings.Itoa StatusCode)))
      else
        match create_error env outputPath with
        | Some msg => mret (Some (wrap "failed to create output file" msg))
        | None =>
            _ ← write_file outputPath "";
            match broken with
            | Some (n, msg) =>
                _ ← write_file outputPath (substring 0 n body);
                mret (Some (wrap "failed to write thumbnail" msg))
            | None =>
                _ ← write_file outputPath body;
                mret None
            end
        end
  end.

Definition qualities : list string :=
  [ "maxresdefault"; "hqdefault"; "mqdefault"; "default" ].

(** The loop of [downloadThumbnailWithFallback] over the qualities still
    to try. *)
Fixpoint fallback_loop (env : Env) (videoID outputPath : string)
    (qs : list string) : M (option error) :=
  match qs with
  | quality :: rest =>
      err ← downloadThumbnail env videoID quality outputPath;
      match err with
      | None => mret None
      | Some _ => fallback_loop env videoID outputPath rest
      end
  | [] =>
      mret (Some (errors.errorString
                    ("failed to download thumbnail for video ID: " ++ videoID)))
  end.

Definition downloadThumbnailWithFallback (env : Env) (videoID outputPath : string)
  : M (option error) :=
  fallback_loop env videoID outputPath qualities.

(** Width and height in pixels of the pictures that img.youtube.com
    serves under each quality name (from YouTube, not from the
    repository). *)
Definition quality_size (quality : string) : Z * Z :=
  if String.eqb quality "maxresdefault" then (1280, 720)
  else if String.eqb quality "hqdefault" then (480, 360)
  else if String.eqb quality "mqdefault" then (320, 180)
  else (120, 90).

(** *** capture.go: the headless browser

    The browser is driven through go-rod; which step fails, and with what
    message, is an answer of [Env].  [os.WriteFile] opens the file with
    [O_CREATE|O_TRUNC] and then writes: when it fails the file is as it was
    (it could not be opened) or holds the first bytes of the data. *)

(** One step of the browser: [k] runs when the step succeeds, otherwise
    the error is wrapped and returned. *)
Definition step (env : Env) (url : string) (s : Stage) (prefix : string)
    (k : M (option error)) : M (option error) :=
  match browser_error env url s with
  | Some msg => mret (Some (wrap prefix msg))
  | None => k
  end.

Definition WaitForPageLoad (env : Env) (url : string) : M (option error) :=
  step env url WaitLoad "failed waiting for DOM load" (
  step env url FontsReady "failed waiting for fonts" (
  step env url WaitStable "failed waiting for content stability" (
  mret None))).

Definition captureRegularScreenshot (env : Env) (url filename : string)
    (config : ScreenshotConfig) : M (option error) :=
  _ ← emit LaunchBrowser;
  step env url Launch "failed to launch browser" (
  step env url Connect "failed to connect to browser" (
  step env url CreatePage "failed to create page" (
  step env url SetViewport "failed to set viewport" (
  step env url SetUserAgent "failed to set user agent" (
  _ ← emit (NavigateTo url);
  step env url Navigate "failed to navigate to URL" (
  err ← WaitForPageLoad env url;
  match err with
  | Some e => mret (Some (wrap "failed waiting for page load" (errors.Error e)))
  | None =>
      step env url Screenshot "failed to capture screenshot" (
      let path := filepath_Join env (OutputDir config) filename in
      match write_error env path with
      | Some msg =>
          _ ← match write_left env path with
              | Some n => write_file path (substring 0 n (browser_png env url config))
              | None => mret tt
              end;
          mret (Some (wrap "failed to write screenshot file" msg))
      | None =>
          _ ← write_file path (browser_png env url config);
          mret None
      end)
  end)))))).

(** *** capture.go: thumbnail first, browser otherwise *)

Definition CaptureScreenshot (env : Env) (url filename : string)
    (config : ScreenshotConfig) : M (option error) :=
  done ←
    (if isYouTubeURL url then
       match extractYouTubeVideoID url with
       | inl videoID =>
           err ← downloadThumbnailWithFallback env videoID
                   (filepath_Join env (OutputDir config) filename);
           match err with
           | None => mret true      (* return nil *)
           | Some _ => mret false
           end
       | inr _ => mret false
       end
     else mret false);
  if done : bool then mret None
  else captureRegularScreenshot env url filename config.

End screenshot.

(** ** The vocabulary of the specification

    Definitions that restate the code in the words of the specification;
    the theorems below relate them to the code. *)

Module spec.

Import errors screenshot.

(** The taxonomy of failures. *)
Definition categories : list string :=
  [ "timeout"; "not_found"; "forbidden"; "server_error"; "dns_error";
    "network_error"; "connection_error"; "browser_error"; "unknown" ].

Definition retryable_categories : list string :=
  [ "timeout"; "server_error"; "network_error"; "connection_error" ].

Definition terminal_categories : list string :=
  [ "not_found"; "forbidden"; "dns_error"; "browser_error"; "unknown" ].

(** A category rule: the label and what triggers it. *)
Record rule := { category : string; trigger : error -> bool }.

(** The lower-cased message contains one of [patterns]. *)
Definition mentions (patterns : list string) (err : error) : bool :=
  existsb (GoStrings.Contains (GoStrings.ToLower (Error err))) patterns.

(** The rules in priority order. *)
Definition category_rules : list rule :=
  [ {| category := "timeout"; trigger := mentions ["timeout"; "context deadline exceeded"] |};
    {| category := "not_found"; trigger := mentions ["404"; "not found"] |};
    {| category := "forbidden"; trigger := mentions ["403"; "forbidden"] |};
    {| category := "server_error"; trigger := mentions ["500"; "502"; "503"] |};
    {| category := "dns_error"; trigger := mentions ["dns"; "no such host"] |};
    {| category := "network_error"; trigger := is_net_Error |};
    {| category := "connection_error";
       trigger := mentions ["connection refused"; "connection reset"] |};
    {| category := "browser_error"; trigger := mentions ["browser"; "launch"] |} ].

(** First match wins; an error that triggers no rule is [unknown]. *)
Fixpoint first_match (rules : list rule) (err : error) : string :=
  match rules with
  | r :: rest => if trigger r err then category r else first_match rest err
  | [] => "unknown"
  end.

Definition is_Some_b {A : Type} (o : option A) : bool :=
  match o with Some _ => true | None => false end.

(** Every character of [s] is in the class [p]. *)
Fixpoint all_of (p : ascii -> bool) (s : string) : bool :=
  match s with
  | EmptyString => true
  | String c s' => p c && all_of p s'
  end.

(** The three identifier patterns, by name. *)
Definition watch_pattern : IDPattern :=
  {| literal := watch_marker; class := id_char; count := 11 |}.
Definition short_pattern : IDPattern :=
  {| literal := short_marker; class := id_char; count := 11 |}.
Definition embed_pattern : IDPattern :=
  {| literal := embed_marker; class := id_char; count := 11 |}.

(** Where the leftmost match of a pattern starts ([re.FindStringIndex]). *)
Fixpoint FindStringIndex (re : IDPattern) (s : string) : option nat :=
  match match_here re s with
  | Some _ => Some O
  | None =>
      match s with
      | EmptyString => None
      | String _ s' => S <$> FindStringIndex re s'
      end
  end.

(** [lit] cannot start [s]: a character of [s] differs from [lit] before
    either ends. *)
Fixpoint differs (lit s : string) : bool :=
  match lit, s with
  | String a lit', String b s' => if Ascii.eqb b a then differs lit' s' else true
  | _, _ => false
  end.

(** No match of [lit] can start inside [pre], whatever follows [pre]. *)
Fixpoint clear_of (lit pre : string) : bool :=
  match pre with
  | EmptyString => true
  | String _ pre' => differs lit pre && clear_of lit pre'
  end.

(** The two answers of the URL classifier; a video host comes with the
    identifier when it could be extracted. *)
Inductive URLClass :=
| Generic
| VideoHost (videoID : option string).

(** The classification that [CaptureScreenshot] makes with [isYouTubeURL]
    and [extractYouTubeVideoID]. *)
Definition classify (url : string) : URLClass :=
  if isYouTubeURL url then
    VideoHost (match extractYouTubeVideoID url with
               | inl videoID => Some videoID
               | inr _ => None
               end)
  else Generic.

(** A quality tier delivers: the response is 200, the file can be created
    and the body is copied to the end. *)
Definition tier_ok (env : Env) (videoID quality outputPath : string) : bool :=
  match http_get env (thumbnailURL videoID quality) with
  | Response StatusCode _ None =>
      (StatusCode =? 200) && negb (is_Some_b (create_error env outputPath))
  | _ => false
  end.

(** A quality tier fails before the file is created: no response, a status
    other than 200, or [os.Create] fails. *)
Definition tier_fails_early (env : Env) (videoID quality outputPath : string) : bool :=
  match http_get env (thumbnailURL videoID quality) with
  | TransportError _ => true
  | Response StatusCode _ _ =>
      negb (StatusCode =? 200) || is_Some_b (create_error env outputPath)
  end.

(** The body that a quality tier serves. *)
Definition tier_body (env : Env) (videoID quality : string) : string :=
  match http_get env (thumbnailURL videoID quality) with
  | Response _ body _ => body
  | TransportError _ => ""
  end.

(** The requests for the quality tiers [qs], in order. *)
Definition requested (videoID : string) (qs : list string) : list Event :=
  map (fun quality => HTTPGet (thumbnailURL videoID quality)) qs.

(** How often the headless browser was launched. *)
Definition renderer_calls (w : World) : nat :=
  List.length
    (List.filter (fun e => match e with LaunchBrowser => true | _ => false end) (trace w)).

(** A picture with at least one pixel. *)
Definition Solid (img : imaging.Image) : Prop :=
  0 < image.Dx (imaging.Bounds img) /\ 0 < image.Dy (imaging.Bounds img).


End spec.

(** ** Concrete runs *)

Module examples.

Import errors screenshot.

Definition empty_world : World := {| files := ∅; trace := [] |}.

(** Everything works, but YouTube only has the smallest thumbnail. *)
Definition only_default : Env :=
  {| http_get := fun url =>
       if GoStrings.Contains url "/default.jpg" then Response 200 "JPEG-120x90" None
       else Response 404 "" None;
     create_error := fun _ => None;
     write_error := fun _ => None;
     write_left := fun _ => None;
     browser_error := fun _ _ => None;
     browser_png := fun _ _ => "PNG";
     filepath_Join := fun dir file => dir ++ "/" ++ file |}.

(** Every thumbnail is served, and every connection breaks after four
    bytes of the body. *)
Definition broken_copies : Env :=
  {| http_get := fun _ => Response 200 "JPEGDATA" (Some (4%nat, "unexpected EOF"));
     create_error := fun _ => None;
     write_error := fun _ => None;
     write_left := fun _ => None;
     browser_error := fun _ _ => None;
     browser_png := fun _ _ => "PNG";
     filepath_Join := fun dir file => dir ++ "/" ++ file |}.

(** No network. *)
Definition offline : Env :=
  {| http_get := fun _ => TransportError "dial tcp: connect: network is unreachable";
     create_error := fun _ => None;
     write_error := fun _ => None;
     write_left := fun _ => None;
     browser_error := fun _ _ => None;
     browser_png := fun _ _ => "PNG";
     filepath_Join := fun dir file => dir ++ "/" ++ file |}.


End examples.

(** ** More of the Go library *)

Module GoLibrary.

(** The bytes of [s] from the last to the first. *)
Fixpoint rev_onto (s acc : string) : string :=
  match s with
  | EmptyString => acc
  | String c s' => rev_onto s' (String c acc)
  end.

Definition rev_string (s : string) : string := rev_onto s "".

Definition is_separator (c : ascii) : bool := Ascii.eqb c "/".

(** The loop of [filepath.Ext]: [behind] holds the bytes from the end of the
    path backwards, [passed] the bytes already passed. *)
Fixpoint ext_scan (behind passed : string) : string :=
  match behind with
  | EmptyString => ""
  | String c behind' =>
      if is_separator c then ""
      else if Ascii.eqb c "." then String c passed
      else ext_scan behind' (String c passed)
  end.

(** [filepath.Ext]: the suffix of the last element of [path] that starts at
    its last dot. *)
Definition Ext (path : string) : string := ext_scan (rev_string path) "".

(** [strings.HasSuffix] *)
Definition HasSuffix (s suffix : string) : bool :=
  (String.length suffix <=? String.length s)%nat
  && String.eqb
       (substring (String.length s - String.length suffix) (String.length suffix) s)
       suffix.

(** [strings.TrimSuffix] *)
Definition TrimSuffix (s suffix : string) : string :=
  if HasSuffix s suffix
  then substring 0 (String.length s - String.length suffix) s
  else s.

(** [strings.Join] *)
Fixpoint Join (elems : list string) (sep : string) : string :=
  match elems with
  | [] => ""
  | [a] => a
  | a :: rest => a ++ sep ++ Join rest sep
  end.

(** *** [strings.TrimSpace]

    The white space of Unicode, in UTF-8: six ASCII bytes, two runes of two
    bytes (U+0085, U+00A0) and the runes of three bytes U+1680,
    U+2000..U+200A, U+2028, U+2029, U+202F, U+205F and U+3000. *)

Definition byte_is (c : ascii) (n : nat) : bool := Nat.eqb (nat_of_ascii c) n.

Definition space1 (a : ascii) : bool :=
  byte_is a 9 || byte_is a 10 || byte_is a 11 || byte_is a 12 || byte_is a 13
  || byte_is a 32.

Definition space2 (a b : ascii) : bool :=
  byte_is a 194 && (byte_is b 133 || byte_is b 160).

Definition space3 (a b c : ascii) : bool :=
  (byte_is a 225 && byte_is b 154 && byte_is c 128)
  || (byte_is a 226 && byte_is b 128
      && (((128 <=? nat_of_ascii c)%nat && (nat_of_ascii c <=? 138)%nat)
          || byte_is c 168 || byte_is c 169 || byte_is c 175))
  || (byte_is a 226 && byte_is b 129 && byte_is c 159)
  || (byte_is a 227 && byte_is b 128 && byte_is c 128).

(** [strings.TrimLeftFunc(s, unicode.IsSpace)] *)
Fixpoint TrimLeftSpace (s : string) : string :=
  match s with
  | EmptyString => ""
  | String a s1 =>
      if space1 a then TrimLeftSpace s1
      else
        match s1 with
        | EmptyString => s
        | String b s2 =>
            if space2 a b then TrimLeftSpace s2
            else
              match s2 with
              | EmptyString => s
              | String c s3 => if space3 a b c then TrimLeftSpace s3 else s
              end
        end
  end.

(** The same from the end: [behind] holds the bytes from the last to the
    first, as [utf8.DecodeLastRuneInString] meets them. *)
Fixpoint trim_behind (behind : string) : string :=
  match behind with
  | EmptyString => ""
  | String c b1 =>
      if space1 c then trim_behind b1
      else
        match b1 with
        | EmptyString => behind
        | String b b2 =>
            if space2 b c then trim_behind b2
            else
              match b2 with
              | EmptyString => behind
              | String a b3 => if space3 a b c then trim_behind b3 else behind
              end
        end
  end.

(** [strings.TrimRightFunc(s, unicode.IsSpace)] *)
Definition TrimRightSpace (s : string) : string :=
  rev_string (trim_behind (rev_string s)).

Definition TrimSpace (s : string) : string := TrimRightSpace (TrimLeftSpace s).

(** *** [strconv.Atoi] *)

Inductive NumError := ErrSyntax | ErrRange.

Definition digit_value (c : ascii) : Z := Z.of_nat (nat_of_ascii c) - 48.

Definition is_decimal (c : ascii) : bool :=
  (48 <=? nat_of_ascii c)%nat && (nat_of_ascii c <=? 57)%nat.

(** The loop of [strconv.ParseUint(s, 10, 64)], [n] being the value so
    far. *)
Fixpoint parse_digits (s : string) (n : Z) : Z + NumError :=
  match s with
  | EmptyString => inl n
  | String c s' =>
      if is_decimal c then
        let n1 := 10 * n + digit_value c in
        if n1 >? 2 ^ 64 - 1 then inr ErrRange else parse_digits s' n1
      else inr ErrSyntax
  end.

Definition ParseUint (s : string) : Z + NumError :=
  match s with
  | EmptyString => inr ErrSyntax
  | _ => parse_digits s 0
  end.

(** [strconv.Atoi] on a 64-bit platform, by the path of [ParseInt]; the
    short cut that [Atoi] takes for fewer than 19 bytes gives the same. *)
Definition Atoi (s : string) : Z + NumError :=
  match s with
  | EmptyString => inr ErrSyntax
  | String c s' =>
      let neg := Ascii.eqb c "-" in
      let body := if Ascii.eqb c "+" || Ascii.eqb c "-" then s' else s in
      match ParseUint body with
      | inr e => inr e
      | inl un =>
          if negb neg && (un >=? 2 ^ 63) then inr ErrRange
          else if neg && (un >? 2 ^ 63) then inr ErrRange
          else inl (if neg then - un else un)
      end
  end.

(** The message of the [NumError] of [Atoi]; [quote] is [strconv.Quote]. *)
Definition NumError_Error (quote : string -> string) (s : string) (e : NumError)
  : string :=
  "strconv.Atoi: parsing " ++ quote s ++ ": "
  ++ match e with
     | ErrSyntax => "invalid syntax"
     | ErrRange => "value out of range"
     end.

(** *** [bufio.Scanner] with [bufio.ScanLines] *)

Definition newline : ascii := ascii_of_nat 10.
Definition carriage_return : ascii := ascii_of_nat 13.

(** [dropCR]: one trailing carriage return is dropped. *)
Definition dropCR (line : string) : string :=
  match rev_string line with
  | String c behind => if Ascii.eqb c carriage_return then rev_string behind else line
  | EmptyString => line
  end.

(** [bufio.MaxScanTokenSize] *)
Definition MaxScanTokenSize : Z := 64 * 1024.

(** The tokens that [Scan] delivers for the unread bytes [data], [current]
    being the bytes of the line read so far; [true] when the scanner stops
    with [bufio.ErrTooLong], which it does for a line that fills the buffer
    before its end is seen. *)
Fixpoint scan_lines (data current : string) : list string * bool :=
  match data with
  | EmptyString =>
      (match current with EmptyString => [] | _ => [dropCR current] end, false)
  | String c rest =>
      if Ascii.eqb c newline then
        let '(tokens, too_long) := scan_lines rest "" in
        (dropCR current :: tokens, too_long)
      else
        let current' := current ++ String c "" in
        if MaxScanTokenSize <=? Z.of_nat (String.length current') then ([], true)
        else scan_lines rest current'
  end.

End GoLibrary.

(** ** resize.go and capture.go: file names and the social media copies *)

Module resize.

Import errors imaging screenshot GoLibrary.

(** [fmt.Sprintf("day-%d-screenshot.png", day)] *)
Definition GenerateBaseFilename (day : Z) : string :=
  "day-" ++ GoStrings.Itoa day ++ "-screenshot.png".

Definition GenerateFilename (env : Env) (day : Z) (outputDir : string) : string :=
  let filename := "day-" ++ GoStrings.Itoa day ++ "-screenshot.png" in
  filepath_Join env outputDir filename.

(** [fmt.Sprintf("%s-%s.png", base, platform)] *)
Definition platform_filename (base platform : string) : string :=
  base ++ "-" ++ platform ++ ".png".

(** The loop runs over the keys of [PlatformConfigs]; each key is assigned
    once, so the order of a Go map does not show in the result. *)
Definition GenerateSocialMediaFilenames (day : Z) : gmap string string :=
  let baseFilename := "day-" ++ GoStrings.Itoa day ++ "-screenshot" in
  map_fold
    (fun platform (_ : SocialMediaPlatform) filenames =>
       <[platform := platform_filename baseFilename platform]> filenames)
    ∅ PlatformConfigs.

Definition GenerateAllFilenames (day : Z) : gmap string string :=
  let filenames : gmap string string :=
    {[ "original" := "day-" ++ GoStrings.Itoa day ++ "-screenshot.png" ]} in
  map_fold
    (fun platform filename filenames => <[platform := filename]> filenames)
    filenames (GenerateSocialMediaFilenames day).

(** What the imaging library and the file system answer. *)
Record ImageIO := {
  imaging_Open : string -> Image + string;   (* the decoded picture, or the error *)
  save_error : string -> option string;      (* [imaging.Save] to a path fails *)
  save_leaves : string -> bool;
    (* a failing [imaging.Save] had created or truncated the file *)
  filepath_Dir : string -> string
}.

(** A file that [imaging.Save] wrote to: [Save] creates the file, encodes
    the picture into it and closes it. *)
Inductive SavedFile :=
| Picture (img : Image)    (* the encoding of a picture, complete *)
| Unfinished.              (* what a save that failed left behind *)

(** The files written, by path. *)
Abbreviation Pictures := (gmap string SavedFile).

(** The loop of [ResizeForSocialMedia] over the platforms still to visit.
    A failing [imaging.Save] leaves the path as it was (the file could not
    be created) or leaves an unfinished file there. *)
Fixpoint save_loop `{float64.Conversion} (env : Env) (io : ImageIO) (img : Image)
    (baseDir nameWithoutExt : string)
    (platforms : list (string * SocialMediaPlatform)) (saved : Pictures)
  : option error * Pictures :=
  match platforms with
  | [] => (None, saved)
  | (platform, config) :: rest =>
      let resizedImg := SmartCrop img (Width config) (Height config) in
      let platformFilename := platform_filename nameWithoutExt platform in
      let platformPath := filepath_Join env baseDir platformFilename in
      match save_error io platformPath with
      | Some msg =>
          (Some (wrap ("failed to save " ++ platform ++ " optimized image") msg),
           if save_leaves io platformPath
           then <[platformPath := Unfinished]> saved else saved)
      | None =>
          save_loop env io img baseDir nameWithoutExt rest
            (<[platformPath := Picture resizedImg]> saved)
      end
  end.

(** [order] is the order in which this run of [range PlatformConfigs]
    visits the map; Go leaves it open. *)
Definition ResizeForSocialMedia `{float64.Conversion} (env : Env) (io : ImageIO)
    (order : list (string * SocialMediaPlatform))
    (originalFile baseFilename : string) (saved : Pictures)
  : option error * Pictures :=
  match imaging_Open io originalFile with
  | inr msg => (Some (wrap ("failed to open image " ++ originalFile) msg), saved)
  | inl img =>
      let baseDir := filepath_Dir io originalFile in
      let nameWithoutExt := TrimSuffix baseFilename (Ext baseFilename) in
      save_loop env io img baseDir nameWithoutExt order saved
  end.

(** The orders that a run of [range PlatformConfigs] can take. *)
Definition range_order (order : list (string * SocialMediaPlatform)) : Prop :=
  order ≡ₚ map_to_list PlatformConfigs.

(** A disk on which everything works and every picture is 1920 by 1080. *)
Definition healthy : ImageIO :=
  {| imaging_Open := fun _ => inl (Decoded (image.Rect 0 0 1920 1080));
     save_error := fun _ => None;
     save_leaves := fun _ => false;
     filepath_Dir := fun _ => "out" |}.

(** A disk with no room left for the copy for LinkedIn: the file is
    created, the encoding breaks off. *)
Definition full_disk : ImageIO :=
  {| imaging_Open := fun _ => inl (Decoded (image.Rect 0 0 1920 1080));
     save_error := fun path =>
       if GoStrings.Contains path "linkedin"
       then Some "write: no space left on device" else None;
     save_leaves := fun _ => true;
     filepath_Dir := fun _ => "out" |}.

End resize.

(** ** markdown/parser.go *)

Module markdown.

Import GoLibrary.

Abbreviation error := errors.error.

Record DayEntry := {
  Day : Z;
  Content : string;
  URL : string;
  Screenshot : string;
  HasScreenshot : bool;
  Error : string
}.

Record MarkdownFile := {
  FilePath : string;
  Entries : list DayEntry;
  content : list string
}.

Definition screenshotPrefix : string := "Screen Shot: ".

(** The longest run of decimal digits that starts [s]. *)
Fixpoint leading_digits (s : string) : string :=
  match s with
  | String c s' => if is_decimal c then String c (leading_digits s') else ""
  | EmptyString => ""
  end.

(** [dayHeaderRegex.FindStringSubmatch(line)[1]] for [^## Day (\d+)]. *)
Definition dayHeaderRegex (line : string) : option string :=
  match GoStrings.CutPrefix line "## Day " with
  | Some rest =>
      match leading_digits rest with
      | EmptyString => None
      | digits => Some digits
      end
  | None => None
  end.

(** [.+$]: one byte at least, and no line feed up to the end. *)
Definition rest_of_line (s : string) : bool :=
  negb (String.eqb s "") && negb (GoStrings.Contains s (String newline "")).

(** [urlRegex.FindStringSubmatch(s)[1]] for [^- URL: (https?://.+)$]. *)
Definition urlRegex (s : string) : option string :=
  match GoStrings.CutPrefix s "- URL: " with
  | Some url =>
      let after :=
        match GoStrings.CutPrefix url "https://" with
        | Some a => Some a
        | None => GoStrings.CutPrefix url "http://"
        end in
      match after with
      | Some a => if rest_of_line a then Some url else None
      | None => None
      end
  | None => None
  end.

(** [screenshotRegex.FindStringSubmatch(s)[1]] for [^Screen Shot: (.+)$]. *)
Definition screenshotRegex (s : string) : option string :=
  match GoStrings.CutPrefix s "Screen Shot: " with
  | Some name => if rest_of_line name then Some name else None
  | None => None
  end.

(** What the file system and the library answer. *)
Record IO := {
  Quote : string -> string;                   (* [%q] *)
  open_error : string -> option string;       (* [os.Open] fails on a file that is there *)
  read_error : string -> option string;
    (* reading fails: [os.ReadFile], the file being there or not, and the
       reads of the scanner from a file that opened *)
  read_until : string -> nat;                 (* the bytes read before that error *)
  write_file_error : string -> option string; (* [os.WriteFile] fails *)
  write_file_left : string -> option nat;
    (* what a failing [os.WriteFile] leaves: [None] when the file could not
       be opened, [Some n] when it was created or truncated and [n] bytes
       reached it *)
  create_error : string -> option string;     (* [os.Create] fails *)
  write_fault : string -> option (bool * nat * string);
    (* writing to the created file fails: at the final flush or before,
       the bytes that reached the file, the message *)
  remove_fails : string -> bool               (* [os.Remove] fails *)
}.

(** Paths and their contents. *)
Abbreviation Files := (gmap string string).

(** [currentEntry.Content = strings.Join(contentBuffer, "\n");
    mf.Entries = append(mf.Entries, *currentEntry)] *)
Definition flush (entries : list DayEntry) (currentEntry : option DayEntry)
    (contentBuffer : list string) : list DayEntry :=
  match currentEntry with
  | Some e =>
      (entries ++ [ {| Day := Day e; Content := Join contentBuffer (String newline "");
                       URL := URL e; Screenshot := Screenshot e;
                       HasScreenshot := HasScreenshot e; Error := Error e |} ])%list
  | None => entries
  end.

(** The body of the loop over the lines that are left. *)
Fixpoint parse_loop (io : IO) (lines : list string)
    (mf_content : list string) (mf_Entries : list DayEntry)
    (currentEntry : option DayEntry) (contentBuffer : list string)
  : (list string * list DayEntry * option DayEntry * list string) + error :=
  match lines with
  | [] => inl (mf_content, mf_Entries, currentEntry, contentBuffer)
  | line :: rest =>
      let mf_content := (mf_content ++ [line])%list in
      match dayHeaderRegex line with
      | Some digits =>
          let mf_Entries := flush mf_Entries currentEntry contentBuffer in
          match Atoi digits with
          | inr e =>
              inr (errors.errorString
                     ("invalid day number in header " ++ Quote io line ++ ": "
                      ++ NumError_Error (Quote io) digits e))
          | inl day =>
              let currentEntry :=
                {| Day := day; Content := ""; URL := ""; Screenshot := "";
                   HasScreenshot := false; Error := "" |} in
              parse_loop io rest mf_content mf_Entries (Some currentEntry) [line]
          end
      | None =>
          match currentEntry with
          | Some e =>
              let contentBuffer := (contentBuffer ++ [line])%list in
              let e :=
                match urlRegex (TrimSpace line) with
                | Some url =>
                    {| Day := Day e; Content := Content e; URL := url;
                       Screenshot := Screenshot e; HasScreenshot := HasScreenshot e;
                       Error := Error e |}
                | None => e
                end in
              let e :=
                match screenshotRegex (TrimSpace line) with
                | Some name =>
                    {| Day := Day e; Content := Content e; URL := URL e;
                       Screenshot := name; HasScreenshot := true; Error := Error e |}
                | None => e
                end in
              parse_loop io rest mf_content mf_Entries (Some e) contentBuffer
          | None => parse_loop io rest mf_content mf_Entries None contentBuffer
          end
      end
  end.

(** A file that is not there gives the error of [os.Open].  When a read
    fails (an I/O error; a directory in place of the file, which opens and
    fails at once) the scanner treats what it has read like the end of the
    file: it delivers the lines read so far, the loop runs over them, and
    [scanner.Err()] is that error, unless a line was too long before. *)
Definition ParseMarkdownFile (io : IO) (fs : Files) (filePath : string)
  : MarkdownFile + error :=
  let opened :=
    match fs !! filePath with
    | None => inr ("open " ++ filePath ++ ": no such file or directory")
    | Some data =>
        match open_error io filePath with
        | Some msg => inr msg
        | None => inl data
        end
    end in
  match opened with
  | inr msg =>
      inr (errors.errorString ("failed to open file " ++ filePath ++ ": " ++ msg))
  | inl data =>
      let read :=
        match read_error io filePath with
        | Some _ => substring 0 (read_until io filePath) data
        | None => data
        end in
      let '(lines, too_long) := scan_lines read "" in
      match parse_loop io lines [] [] None [] with
      | inr err => inr err
      | inl (mf_content, mf_Entries, currentEntry, contentBuffer) =>
          let mf_Entries := flush mf_Entries currentEntry contentBuffer in
          if too_long : bool then
            inr (errors.errorString
                   "error reading file: bufio.Scanner: token too long")
          else
            match read_error io filePath with
            | Some msg => inr (errors.errorString ("error reading file: " ++ msg))
            | None =>
                inl {| FilePath := filePath; Entries := mf_Entries;
                       content := mf_content |}
            end
      end
  end.

(** The inner loop of [UpdateScreenshotReference]: [lines] are the lines
    from index [k] on. *)
Fixpoint next_header (lines : list string) (k : Z) (insertIndex : Z) : Z :=
  match lines with
  | [] => insertIndex
  | line :: rest =>
      if GoStrings.HasPrefix line "## Day" then k - 1
      else next_header rest (k + 1) insertIndex
  end.

(** The outer loop: [lines] are the lines from index [j] on, [len] is
    [len(mf.content)]. *)
Fixpoint find_insertIndex (lines : list string) (j : Z) (len : Z)
    (dayHeaderPattern : string) (insertIndex : Z) : Z :=
  match lines with
  | [] => insertIndex
  | line :: rest =>
      if GoStrings.Contains line dayHeaderPattern then
        let insertIndex := next_header rest (j + 1) insertIndex in
        if insertIndex =? -1 then len - 1 else insertIndex
      else find_insertIndex rest (j + 1) len dayHeaderPattern insertIndex
  end.

(** The loop over [mf.Entries]: [before] are the entries already passed.
    The result is the error, if any, with the entries and the lines that
    the receiver holds afterwards. *)
Fixpoint update_loop (mf : MarkdownFile) (day : Z) (filename : string)
    (before entries : list DayEntry)
  : option error * MarkdownFile :=
  match entries with
  | [] => (Some (errors.errorString ("day " ++ GoStrings.Itoa day ++ " not found")), mf)
  | entry :: rest =>
      if Day entry =? day then
        if HasScreenshot entry then
          (Some (errors.errorString
                   ("day " ++ GoStrings.Itoa day
                    ++ " already has a screenshot reference")), mf)
        else
          let marked :=
            {| Day := Day entry; Content := Content entry; URL := URL entry;
               Screenshot := filename; HasScreenshot := true; Error := Error entry |} in
          let mf_Entries := (before ++ marked :: rest)%list in
          let dayHeaderPattern := "## Day " ++ GoStrings.Itoa day in
          let len := Z.of_nat (List.length (content mf)) in
          let insertIndex := find_insertIndex (content mf) 0 len dayHeaderPattern (-1) in
          if insertIndex =? -1 then
            (Some (errors.errorString
                     ("day " ++ GoStrings.Itoa day ++ " not found in markdown content")),
             {| FilePath := FilePath mf; Entries := mf_Entries; content := content mf |})
          else
            let screenshotLine := screenshotPrefix ++ filename in
            let newContent :=
              (firstn (Z.to_nat (insertIndex + 1)) (content mf)
               ++ screenshotLine :: skipn (Z.to_nat (insertIndex + 1)) (content mf))%list in
            (None,
             {| FilePath := FilePath mf; Entries := mf_Entries; content := newContent |})
      else update_loop mf day filename (before ++ [entry])%list rest
  end.

Definition UpdateScreenshotReference (mf : MarkdownFile) (day : Z) (filename : string)
  : option error * MarkdownFile :=
  update_loop mf day filename [] (Entries mf).

Definition GetEntriesWithoutScreenshots (mf : MarkdownFile) : list DayEntry :=
  List.filter
    (fun entry => negb (HasScreenshot entry) && negb (String.eqb (URL entry) ""))
    (Entries mf).

(** The bytes that the loop of [WriteMarkdownFile] hands to the writer. *)
Fixpoint rendered (lines : list string) : string :=
  match lines with
  | [] => ""
  | line :: rest => line ++ String newline "" ++ rendered rest
  end.

(** [os.Remove(path)], its error ignored. *)
Definition remove (io : IO) (path : string) (fs : Files) : Files :=
  if remove_fails io path then fs else delete path fs.

(** What [os.WriteFile(path, data, 0644)] leaves when it fails: the file as
    it was, or its first bytes. *)
Definition failed_write (io : IO) (path data : string) (fs : Files) : Files :=
  match write_file_left io path with
  | Some n => <[path := substring 0 n data]> fs
  | None => fs
  end.

(** [os.WriteFile(path, data, 0644)], its error ignored. *)
Definition write_back (io : IO) (path data : string) (fs : Files) : Files :=
  match write_file_error io path with
  | Some _ => failed_write io path data fs
  | None => <[path := data]> fs
  end.

Definition WriteMarkdownFile (io : IO) (mf : MarkdownFile) (fs : Files)
  : option error * Files :=
  let backupPath := FilePath mf ++ ".backup" in
  match read_error io (FilePath mf) with
  | Some msg =>
      (Some (errors.errorString ("failed to read original file for backup: " ++ msg)), fs)
  | None =>
      let originalData := default "" (fs !! FilePath mf) in
      let has_original := (0 <? String.length originalData)%nat in
      let backed_up :=
        if has_original then
          match write_file_error io backupPath with
          | Some msg => inr msg
          | None => inl (<[backupPath := originalData]> fs)
          end
        else inl fs in
      match backed_up with
      | inr msg =>
          (Some (errors.errorString ("failed to create backup file: " ++ msg)),
           failed_write io backupPath originalData fs)
      | inl fs =>
          match create_error io (FilePath mf) with
          | Some msg =>
              (Some (errors.errorString
                       ("failed to create file " ++ FilePath mf ++ ": " ++ msg)), fs)
          | None =>
              let fs := <[FilePath mf := ""]> fs in
              match write_fault io (FilePath mf) with
              | Some (at_flush, written, msg) =>
                  let fs :=
                    <[FilePath mf := substring 0 written (rendered (content mf))]> fs in
                  let fs :=
                    if has_original
                    then remove io backupPath (write_back io (FilePath mf) originalData fs)
                    else fs in
                  (Some (errors.errorString
                           ((if at_flush : bool then "error flushing to file: "
                             else "error writing to file: ") ++ msg)), fs)
              | None =>
                  let fs := <[FilePath mf := rendered (content mf)]> fs in
                  let fs := if has_original then remove io backupPath fs else fs in
                  (None, fs)
              end
          end
      end
  end.

(** A machine on which nothing fails; [%q] of a text without special
    bytes. *)
Definition sound : IO :=
  {| Quote := fun s => String (ascii_of_nat 34) (s ++ String (ascii_of_nat 34) "");
     open_error := fun _ => None;
     read_error := fun _ => None;
     read_until := fun _ => 0%nat;
     write_file_error := fun _ => None;
     write_file_left := fun _ => None;
     create_error := fun _ => None;
     write_fault := fun _ => None;
     remove_fails := fun _ => false |}.

End markdown.

(** ** config/config.go *)

Module config.

Import GoLibrary.

Abbreviation error := errors.error.

Record Config := {
  BrowserPath : string;
  DefaultTimeout : Z;
  MaxRetries : Z;
  UserAgent : string;
  OutputFormats : list string
}.

(** What [os.Stat] finds at a path. *)
Inductive StatResult := Found | NotExist | StatFailed.

(** The environment of the process.  [time.ParseDuration] is taken as
    given. *)
Record OS := {
  Getenv : string -> string;
  Stat : string -> StatResult;
  ParseDuration : string -> option Z
}.

Definition Validate (os : OS) (c : Config) : option error :=
  if DefaultTimeout c <=? 0 then
    Some (errors.errorString "default timeout must be positive")
  else if MaxRetries c <? 0 then
    Some (errors.errorString "max retries cannot be negative")
  else if String.eqb (UserAgent c) "" then
    Some (errors.errorString "user agent cannot be empty")
  else if negb (String.eqb (BrowserPath c) "")
          && match Stat os (BrowserPath c) with NotExist => true | _ => false end then
    Some (errors.errorString
            ("specified browser path does not exist: " ++ BrowserPath c))
  else None.

Definition getEnvWithDefault (os : OS) (key defaultValue : string) : string :=
  let value := Getenv os key in
  if negb (String.eqb value "") then value else defaultValue.

Definition getIntFromEnv (os : OS) (key : string) (defaultValue : Z) : Z :=
  let value := Getenv os key in
  if negb (String.eqb value "") then
    match Atoi value with
    | inl parsed => parsed
    | inr _ => defaultValue
    end
  else defaultValue.

Definition getTimeoutFromEnv (os : OS) (key : string) (defaultValue : Z) : Z :=
  let value := Getenv os key in
  if negb (String.eqb value "") then
    match ParseDuration os value with
    | Some parsed => parsed
    | None => defaultValue
    end
  else defaultValue.

Definition default_user_agent : string :=
  "Mozilla/5.0 (Macintosh; Intel Mac OS X 10_15_7) AppleWebKit/537.36 (KHTML, like Gecko) Chrome/120.0.0.0 Safari/537.36".

Definition LoadConfig (os : OS) : Config + error :=
  let config :=
    {| UserAgent := getEnvWithDefault os "SCREENSHOT_USER_AGENT" default_user_agent;
       DefaultTimeout :=
         getTimeoutFromEnv os "SCREENSHOT_DEFAULT_TIMEOUT" (30 * errors.Second);
       OutputFormats := [ "original"; "twitter"; "linkedin" ];
       BrowserPath := getEnvWithDefault os "SCREENSHOT_BROWSER_PATH" "";
       MaxRetries := getIntFromEnv os "SCREENSHOT_MAX_RETRIES" 3 |} in
  match Validate os config with
  | Some err => inr (errors.errorString ("invalid configuration: " ++ errors.Error err))
  | None => inl config
  end.

Definition DefaultConfig : Config :=
  {| BrowserPath := "";
     DefaultTimeout := 30 * errors.Second;
     MaxRetries := 3;
     UserAgent := default_user_agent;
     OutputFormats := [ "original"; "twitter"; "linkedin" ] |}.

End config.

(** ** The vocabulary of the markdown file *)

Module markdown_props.

Import GoLibrary markdown.

(** The day that a header line announces. *)
Definition header_day (line : string) : option Z :=
  match dayHeaderRegex line with
  | Some digits =>
      match Atoi digits with
      | inl day => Some day
      | inr _ => None
      end
  | None => None
  end.

(** What every entry of a parsed file satisfies: it has a screenshot
    exactly when it names one, its URL is empty or starts with the scheme,
    its day is a natural number that fits an [int], and it carries no
    error. *)
Definition entry_ok (e : DayEntry) : Prop :=
  (HasScreenshot e = true <-> Screenshot e <> "")
  /\ (URL e = ""
      \/ GoStrings.HasPrefix (URL e) "http://" = true
      \/ GoStrings.HasPrefix (URL e) "https://" = true)
  /\ 0 <= Day e <= float64.max_int64
  /\ Error e = "".

(** What the loop keeps true of the entries closed so far, of the open
    entry and of its buffer. *)
Definition parse_inv (entries : list DayEntry) (currentEntry : option DayEntry)
    (contentBuffer : list string) : Prop :=
  Forall entry_ok entries
  /\ Forall (fun e => GoStrings.HasPrefix (Content e) "## Day " = true) entries
  /\ forall e, currentEntry = Some e ->
       entry_ok e
       /\ exists header rest,
            contentBuffer = header :: rest
            /\ GoStrings.HasPrefix header "## Day " = true.

(** The number of a header line is one that [Atoi] accepts. *)
Definition header_fits (line : string) : Prop :=
  forall digits, dayHeaderRegex line = Some digits -> exists day, Atoi digits = inl day.

(** The entry with the reference. *)
Definition marked (entry : DayEntry) (filename : string) : DayEntry :=
  {| Day := Day entry; Content := Content entry; URL := URL entry;
     Screenshot := filename; HasScreenshot := true; Error := Error entry |}.

(** The entries among [entries] that [GetEntriesWithoutScreenshots]
    lists. *)
Definition pending_of (entries : list DayEntry) : list DayEntry :=
  GetEntriesWithoutScreenshots {| FilePath := ""; Entries := entries; content := [] |}.

(** A line that the scanner gives back as it was written: no line feed in
    it, no carriage return at its end, and shorter than the buffer. *)
Definition clean_line (line : string) : Prop :=
  spec.all_of (fun c => negb (Ascii.eqb c newline)) line = true
  /\ dropCR line = line
  /\ Z.of_nat (String.length line) < MaxScanTokenSize.

(** A journal of two days, the second with its screenshot. *)
Definition journal : string :=
  "# Log

## Day 1
An article.
- URL: https://go.dev/blog

## Day 2
- URL: http://example.com/article
Screen Shot: day-2-screenshot.png
".

Definition journal_file : MarkdownFile :=
  {| FilePath := "log.md";
     Entries :=
       [ {| Day := 1;
            Content := "## Day 1
An article.
- URL: https://go.dev/blog
";
            URL := "https://go.dev/blog"; Screenshot := ""; HasScreenshot := false;
            Error := "" |};
         {| Day := 2;
            Content := "## Day 2
- URL: http://example.com/article
Screen Shot: day-2-screenshot.png";
            URL := "http://example.com/article";
            Screenshot := "day-2-screenshot.png"; HasScreenshot := true;
            Error := "" |} ];
     content :=
       [ "# Log"; ""; "## Day 1"; "An article."; "- URL: https://go.dev/blog"; "";
         "## Day 2"; "- URL: http://example.com/article";
         "Screen Shot: day-2-screenshot.png" ] |}.

(** A journal whose header writes the day with leading zeros. *)
Definition padded_file : MarkdownFile :=
  {| FilePath := "log.md";
     Entries :=
       [ {| Day := 7;
            Content := "## Day 007
- URL: https://go.dev/blog";
            URL := "https://go.dev/blog"; Screenshot := ""; HasScreenshot := false;
            Error := "" |} ];
     content := [ "## Day 007"; "- URL: https://go.dev/blog" ] |}.

(** Disks with one file. *)
Definition journal_disk : Files := {[ "log.md" := journal ]}.

Definition padded_disk : Files :=
  {[ "log.md" := "## Day 007
- URL: https://go.dev/blog" ]}.

Definition old_disk : Files := {[ "log.md" := "old text" ]}.

Definition empty_disk : Files := ∅.

(** A directory in place of the file: it opens, and the first read fails. *)
Definition directory : IO :=
  {| Quote := Quote sound;
     open_error := fun _ => None;
     read_error := fun path => Some ("read " ++ path ++ ": is a directory");
     read_until := fun _ => 0%nat;
     write_file_error := fun _ => None;
     write_file_left := fun _ => None;
     create_error := fun path => Some ("open " ++ path ++ ": is a directory");
     write_fault := fun _ => None;
     remove_fails := fun _ => false |}.

Definition notes_disk : Files := {[ "notes" := "" ]}.

(** A disk that fails while the new text is written, after six bytes. *)
Definition failing_disk : IO :=
  {| Quote := Quote sound;
     open_error := fun _ => None;
     read_error := fun _ => None;
     read_until := fun _ => 0%nat;
     write_file_error := fun _ => None;
     write_file_left := fun _ => None;
     create_error := fun _ => None;
     write_fault := fun _ => Some (false, 6%nat, "write log.md: input/output error");
     remove_fails := fun _ => false |}.

(** The number that a decimal numeral writes, [acc] being the number of
    the digits already read. *)
Fixpoint uint_value (d : Decimal.uint) (acc : Z) : Z :=
  match d with
  | Decimal.Nil => acc
  | Decimal.D0 d => uint_value d (10 * acc + 0)
  | Decimal.D1 d => uint_value d (10 * acc + 1)
  | Decimal.D2 d => uint_value d (10 * acc + 2)
  | Decimal.D3 d => uint_value d (10 * acc + 3)
  | Decimal.D4 d => uint_value d (10 * acc + 4)
  | Decimal.D5 d => uint_value d (10 * acc + 5)
  | Decimal.D6 d => uint_value d (10 * acc + 6)
  | Decimal.D7 d => uint_value d (10 * acc + 7)
  | Decimal.D8 d => uint_value d (10 * acc + 8)
  | Decimal.D9 d => uint_value d (10 * acc + 9)
  end.

End markdown_props.

(** ** Environments of the configuration *)

Module config_props.

Import config.

(** No variable is set. *)
Definition unset : OS :=
  {| Getenv := fun _ => ""; Stat := fun _ => NotExist; ParseDuration := fun _ => None |}.

(** A browser path that is not there. *)
Definition missing_browser : OS :=
  {| Getenv := fun key =>
       if String.eqb key "SCREENSHOT_BROWSER_PATH" then "/opt/chrome" else "";
     Stat := fun _ => NotExist;
     ParseDuration := fun _ => None |}.

(** The number of retries set to -5. *)
Definition negative_retries : OS :=
  {| Getenv := fun key => if String.eqb key "SCREENSHOT_MAX_RETRIES" then "-5" else "";
     Stat := fun _ => Found;
     ParseDuration := fun _ => None |}.

End config_props.

(** ** Further vocabulary *)

Module props.

Import errors screenshot.

(** The steps of [captureRegularScreenshot] in the order it takes them. *)
Definition stage_order : list Stage :=
  [ Launch; Connect; CreatePage; SetViewport; SetUserAgent; Navigate;
    WaitLoad; FontsReady; WaitStable; Screenshot ].

(** The place of a step in that order. *)
Definition stage_index (s : Stage) : nat :=
  match s with
  | Launch => 0 | Connect => 1 | CreatePage => 2 | SetViewport => 3
  | SetUserAgent => 4 | Navigate => 5 | WaitLoad => 6 | FontsReady => 7
  | WaitStable => 8 | Screenshot => 9
  end.

(** The steps taken before [s]. *)
Definition stages_before (s : Stage) : list Stage :=
  firstn (stage_index s) stage_order.

(** The error that [captureRegularScreenshot] reports when step [s] fails
    with [msg]. *)
Definition stage_failure (s : Stage) (msg : string) : error :=
  match s with
  | Launch => wrap "failed to launch browser" msg
  | Connect => wrap "failed to connect to browser" msg
  | CreatePage => wrap "failed to create page" msg
  | SetViewport => wrap "failed to set viewport" msg
  | SetUserAgent => wrap "failed to set user agent" msg
  | Navigate => wrap "failed to navigate to URL" msg
  | WaitLoad =>
      wrap "failed waiting for page load" ("failed waiting for DOM load: " ++ msg)
  | FontsReady =>
      wrap "failed waiting for page load" ("failed waiting for fonts: " ++ msg)
  | WaitStable =>
      wrap "failed waiting for page load"
           ("failed waiting for content stability: " ++ msg)
  | Screenshot => wrap "failed to capture screenshot" msg
  end.

(** The page is asked to navigate once the first five steps went well. *)
Definition reaches_navigation (s : Stage) : bool :=
  match s with
  | Launch | Connect | CreatePage | SetViewport | SetUserAgent => false
  | _ => true
  end.

(** A raw error: any [error] that is not a [*ScreenshotError]. *)
Definition is_raw (err : error) : bool :=
  match err with
  | screenshotError _ => false
  | _ => true
  end.

(** A page that never becomes stable; the network is unreachable. *)
Definition page_never_settles : Env :=
  {| http_get := fun _ => TransportError "dial tcp: connect: network is unreachable";
     create_error := fun _ => None;
     write_error := fun _ => None;
     write_left := fun _ => None;
     browser_error := fun _ s =>
       match s with
       | WaitStable => Some "context deadline exceeded"
       | _ => None
       end;
     browser_png := fun _ _ => "PNG";
     filepath_Join := fun dir file => dir ++ "/" ++ file |}.

(** A volume that fills up while the screenshot is written: two bytes reach
    the file. *)
Definition full_volume : Env :=
  {| http_get := fun _ => TransportError "dial tcp: connect: network is unreachable";
     create_error := fun _ => None;
     write_error := fun path => Some ("write " ++ path ++ ": no space left on device");
     write_left := fun _ => Some 2%nat;
     browser_error := fun _ _ => None;
     browser_png := fun _ _ => "PNG";
     filepath_Join := fun dir file => dir ++ "/" ++ file |}.

End props.

Import errors imaging screenshot spec examples GoLibrary resize props.

(** Concrete runs use the conversion of amd64; the theorems hold for every
    conversion. *)
#[local] Existing Instance float64.amd64.

(** * Theorems *)

(** ** Error categories *)

Lemma categorizeError_refines_rules (err : error) :
  categorizeError err = first_match category_rules err.
Proof.
  unfold categorizeError, category_rules, first_match, mentions, existsb; cbn [trigger category].
  rewrite !orb_false_r, !orb_assoc.
  reflexivity.
Qed.

Lemma first_match_in (rules : list rule) (err : error) :
  In (first_match rules err) (map category rules ++ ["unknown"])%list.
Proof.
  induction rules as [|r rest IH]; cbn [first_match map app].
  - now left.
  - destruct (trigger r err); [now left | now right].
Qed.

Lemma first_match_split (pre post : list rule) (r : rule) (err : error) :
  Forall (fun r' => trigger r' err = false) pre ->
  trigger r err = true ->
  first_match (pre ++ r :: post)%list err = category r.
Proof.
  induction 1 as [|r' pre' Hr' _ IH]; intros Hr; cbn [first_match app].
  - now rewrite Hr.
  - rewrite Hr'. now apply IH.
Qed.

(** C5: every error gets exactly one of the nine categories; the category is
    that of the first rule, in the fixed priority order, that the error
    triggers, whatever later rules it triggers as well; an error that
    triggers no rule is [unknown]. *)
Theorem categorizeError_first_match_wins :
  (length categories = 9%nat /\ NoDup categories
   /\ (map category category_rules ++ ["unknown"])%list = categories)
  /\ (forall err, In (categorizeError err) categories)
  /\ (forall err, categorizeError err = first_match category_rules err)
  /\ (forall err pre r post,
        category_rules = (pre ++ r :: post)%list ->
        Forall (fun r' => trigger r' err = false) pre ->
        trigger r err = true ->
        categorizeError err = category r)
  /\ (forall err,
        Forall (fun r => trigger r err = false) category_rules ->
        categorizeError err = "unknown").
Proof.
  split; [|split; [|split; [|split]]].
  - split; [reflexivity|]. split; [|reflexivity].
    apply (bool_decide_unpack _). vm_compute. reflexivity.
  - intros err. rewrite categorizeError_refines_rules.
    apply (first_match_in category_rules err).
  - apply categorizeError_refines_rules.
  - intros err pre r post Hsplit Hpre Hr.
    rewrite categorizeError_refines_rules, Hsplit.
    now apply first_match_split.
  - intros err Hnone. rewrite categorizeError_refines_rules.
    induction Hnone as [|r rest Hr _ IH]; cbn [first_match]; [reflexivity|].
    now rewrite Hr.
Qed.

Lemma categorizeError_first_match_wins_witness :
  mentions ["dns"; "no such host"]
    (netError "dial tcp: lookup example.com: no such host (503)") = true
  /\ categorizeError (netError "dial tcp: lookup example.com: no such host (503)")
     = "server_error".
Proof.
  split; [reflexivity|].
  destruct categorizeError_first_match_wins as (_ & _ & _ & Hfirst & _).
  apply (Hfirst _ (firstn 3 category_rules)
           {| category := "server_error"; trigger := mentions ["500"; "502"; "503"] |}
           (skipn 4 category_rules)).
  - reflexivity.
  - repeat constructor.
  - reflexivity.
Defined.

(** ** Retry eligibility *)

Lemma retryable_type (ty : string) :
  (String.eqb ty "timeout" || String.eqb ty "server_error"
   || String.eqb ty "network_error" || String.eqb ty "connection_error") = true
  <-> In ty retryable_categories.
Proof.
  unfold retryable_categories; cbn [In].
  rewrite !orb_true_iff, !String.eqb_eq.
  intuition congruence.
Qed.

Lemma IsRetryableError_classified (e : ScreenshotError) :
  IsRetryableError (screenshotError e) = true <-> In (ErrorType e) retryable_categories.
Proof.
  rewrite <- retryable_type. unfold IsRetryableError.
  destruct (_ || _ || _ || _); [tauto|].
  destruct (_ || _ || _ || _); split; discriminate.
Qed.

Lemma retryable_terminal_disjoint (ty : string) :
  In ty terminal_categories -> ~ In ty retryable_categories.
Proof.
  unfold terminal_categories, retryable_categories; cbn [In].
  intros [<-|[<-|[<-|[<-|[<-|[]]]]]]; intuition discriminate.
Qed.

(** C6: for a classified error, [ShouldRetry] holds exactly when the attempt
    is below [MaxRetries] and the category is one of timeout, server_error,
    network_error, connection_error; it is false from [MaxRetries] on
    whatever the error, and false at attempt 0 for the five other
    categories. *)
Theorem ShouldRetry_iff_retryable (rc : RetryConfig) :
  (forall e attempt,
      ShouldRetry rc (screenshotError e) attempt = true
      <-> attempt < MaxRetries rc /\ In (ErrorType e) retryable_categories)
  /\ (forall now url day err attempt,
      ShouldRetry rc (screenshotError (NewScreenshotError now url day err)) attempt = true
      <-> attempt < MaxRetries rc /\ In (categorizeError err) retryable_categories)
  /\ (forall err attempt, MaxRetries rc <= attempt -> ShouldRetry rc err attempt = false)
  /\ (forall e, In (ErrorType e) terminal_categories ->
                ShouldRetry rc (screenshotError e) 0 = false).
Proof.
  assert (Hiff : forall e attempt,
      ShouldRetry rc (screenshotError e) attempt = true
      <-> attempt < MaxRetries rc /\ In (ErrorType e) retryable_categories).
  { intros e attempt. unfold ShouldRetry.
    destruct (Z.geb_spec attempt (MaxRetries rc)) as [Hge|Hlt].
    - split; [discriminate | lia].
    - rewrite IsRetryableError_classified. intuition lia. }
  split; [exact Hiff|]. split; [|split].
  - intros now url day err attempt. apply Hiff.
  - intros err attempt Hge. unfold ShouldRetry.
    destruct (Z.geb_spec attempt (MaxRetries rc)); [reflexivity | lia].
  - intros e Hterminal.
    destruct (ShouldRetry rc (screenshotError e) 0) eqn:Hretry; [|reflexivity].
    apply Hiff in Hretry as [_ Hin].
    now apply retryable_terminal_disjoint in Hin.
Qed.

Lemma ShouldRetry_iff_retryable_witness :
  ShouldRetry NewDefaultRetryConfig
    (screenshotError (NewScreenshotError 0 "https://example.com" 1
                        (errorString "connection timeout"))) 3 = false
  /\ ShouldRetry NewDefaultRetryConfig
       (screenshotError {| URL := ""; Day := 1; ErrorType := "not_found";
                           Message := ""; Timestamp := 0 |}) 0 = false.
Proof.
  destruct (ShouldRetry_iff_retryable NewDefaultRetryConfig) as (_ & _ & Hmax & Hterminal).
  split.
  - apply Hmax. cbn. lia.
  - apply Hterminal. cbn. tauto.
Defined.

(** ** Conversions of float64 *)

Lemma trunc_nonneg (q : Q) : (0 <= q)%Q -> float64.trunc q = Qfloor q.
Proof.
  destruct q as [n d]. unfold float64.trunc, Qfloor, Qle. cbn. intros Hn.
  apply Z.quot_div_nonneg; lia.
Qed.

Lemma Qfloor_nonneg (q : Q) : (0 <= q)%Q -> 0 <= Qfloor q.
Proof.
  intros Hq. exact (Qfloor_resp_le 0 q Hq).
Qed.

Lemma Qfloor_lt_bound (q : Q) (n : Z) : (q < inject_Z n)%Q -> Qfloor q < n.
Proof.
  intros Hq. rewrite Zlt_Qlt.
  eapply Qle_lt_trans; [apply Qfloor_le | exact Hq].
Qed.

Lemma Qfloor_lower (q : Q) (n : Z) : (inject_Z n <= q)%Q -> n <= Qfloor q.
Proof.
  intros Hq. apply Qfloor_resp_le in Hq. now rewrite Qfloor_Z in Hq.
Qed.

Lemma to_int_Fin `{float64.Conversion} (q : Q) :
  (0 <= q)%Q -> (q < inject_Z (2 ^ 63))%Q ->
  float64.to_int (float64.Fin q) = Qfloor q.
Proof.
  intros Hpos Hbound. unfold float64.to_int.
  rewrite (trunc_nonneg q Hpos).
  pose proof (Qfloor_nonneg q Hpos) as Hlo.
  pose proof (Qfloor_lt_bound q _ Hbound) as Hhi.
  unfold float64.min_int64, float64.max_int64.
  destruct (Z.leb_spec (- 2 ^ 63) (Qfloor q)); [|lia].
  destruct (Z.leb_spec (Qfloor q) (2 ^ 63 - 1)); [reflexivity | lia].
Qed.

(** ** The back-off delay *)

Lemma backoff_loop_Fin (b : Q) (n : nat) (m : Q) :
  exists q, backoff_loop (float64.Fin b) n (float64.Fin m) = float64.Fin q
            /\ (q == m * b ^ Z.of_nat n)%Q.
Proof.
  revert m. induction n as [|n IH]; intros m.
  - exists m. split; [reflexivity|].
    change (b ^ Z.of_nat 0)%Q with 1%Q. ring.
  - destruct (IH (Qred (m * b))) as (q & Hloop & Hq).
    exists q. split; [exact Hloop|].
    rewrite Hq, Qred_correct, Nat2Z.inj_succ.
    unfold Z.succ. rewrite Qpower_plus' by lia.
    change (b ^ 1)%Q with b. ring.
Qed.



Section GetDelay.

Context `{float64.Conversion}.
Variable rc : RetryConfig.
Variable b : Q.
Hypothesis Hfactor : BackoffFactor rc = float64.Fin b.
Hypothesis Hinitial : 0 < InitialDelay rc.
Hypothesis Hb : (1 < b)%Q.










End GetDelay.



(** ** Arithmetic of float64 on pixel counts *)

Lemma is_zero_inject_Z (n : Z) : n <> 0 -> float64.is_zero (inject_Z n) = false.
Proof.
  intros Hn. unfold float64.is_zero. cbn. now apply Z.eqb_neq.
Qed.

Lemma is_zero_pos (q : Q) : (0 < q)%Q -> float64.is_zero q = false.
Proof.
  destruct q as [n d]. unfold float64.is_zero, Qlt. cbn. intros Hn.
  apply Z.eqb_neq. lia.
Qed.

Lemma ltb_Fin (a b : Q) : float64.ltb (float64.Fin a) (float64.Fin b) = true <-> (a < b)%Q.
Proof.
  unfold float64.ltb. rewrite Qlt_alt.
  destruct (Qcompare a b); split; congruence.
Qed.

Lemma inject_Z_pos (n : Z) : 0 < n -> (0 < inject_Z n)%Q.
Proof.
  intros Hn. change 0%Q with (inject_Z 0). now rewrite <- Zlt_Qlt.
Qed.

(** The ratio [float64(n) / float64(d)] of two positive pixel counts. *)
Lemma ratio_Fin (n d : Z) :
  0 < n -> 0 < d ->
  exists q, float64.div (float64.of_int n) (float64.of_int d) = float64.Fin q
            /\ (q == inject_Z n / inject_Z d)%Q /\ (0 < q)%Q.
Proof.
  intros Hn Hd. unfold float64.div, float64.of_int.
  rewrite is_zero_inject_Z by lia.
  eexists. split; [reflexivity|]. split; [apply Qred_correct|].
  rewrite Qred_correct.
  apply Qlt_shift_div_l; [now apply inject_Z_pos|].
  rewrite Qmult_0_l. now apply inject_Z_pos.
Qed.

Lemma ratio_lt (n d n' d' : Z) :
  0 < d -> 0 < d' ->
  (inject_Z n / inject_Z d < inject_Z n' / inject_Z d')%Q <-> n * d' < n' * d.
Proof.
  intros Hd Hd'.
  pose proof (inject_Z_pos d Hd) as HdQ. pose proof (inject_Z_pos d' Hd') as HdQ'.
  rewrite Zlt_Qlt, !inject_Z_mult.
  split; intros Hlt.
  - apply (Qmult_lt_r _ _ (/ inject_Z d)); [now apply Qinv_lt_0_compat|].
    apply (Qmult_lt_r _ _ (/ inject_Z d')); [now apply Qinv_lt_0_compat|].
    field_simplify; [|lra|lra]. field_simplify in Hlt; [|lra|lra]. exact Hlt.
  - apply (Qmult_lt_r _ _ (inject_Z d)); [exact HdQ|].
    apply (Qmult_lt_r _ _ (inject_Z d')); [exact HdQ'|].
    field_simplify; [|lra|lra]. lra.
Qed.

(** ** Rectangles and the sizes of pictures *)

Lemma Rect_ordered (x0 y0 x1 y1 : Z) :
  x0 <= x1 -> y0 <= y1 ->
  image.Rect x0 y0 x1 y1 = {| image.Min := image.Pt x0 y0; image.Max := image.Pt x1 y1 |}.
Proof.
  intros Hx Hy. unfold image.Rect.
  destruct (Z.gtb_spec x0 x1); [lia|].
  destruct (Z.gtb_spec y0 y1); [lia|]. reflexivity.
Qed.

Lemma Solid_Rect (img : Image) (w h : Z) :
  Bounds img = image.Rect 0 0 w h -> 0 < w -> 0 < h -> Solid img.
Proof.
  intros Hb Hw Hh. unfold Solid. rewrite Hb, Rect_ordered by lia.
  unfold image.Dx, image.Dy. cbn. lia.
Qed.

Lemma Fill_Bounds (img : Image) (w h : Z) (anchor : Anchor) (filter : ResampleFilter) :
  0 < w -> 0 < h -> Solid img ->
  Bounds (Fill img w h anchor filter) = image.Rect 0 0 w h.
Proof.
  intros Hw Hh [Hdx Hdy]. unfold Fill.
  destruct (Z.leb_spec w 0); [lia|]. destruct (Z.leb_spec h 0); [lia|].
  destruct (Z.leb_spec (image.Dx (Bounds img)) 0); [lia|].
  destruct (Z.leb_spec (image.Dy (Bounds img)) 0); [lia|].
  cbn [orb].
  destruct (Z.eqb_spec (image.Dx (Bounds img)) w) as [Ew|];
    [destruct (Z.eqb_spec (image.Dy (Bounds img)) h) as [Eh|]|];
    cbn [andb Bounds]; rewrite ?Ew, ?Eh; reflexivity.
Qed.

Lemma Sharpen_Bounds (img : Image) :
  Bounds (Sharpen img (float64.Fin (1 # 2)))
  = image.Rect 0 0 (image.Dx (Bounds img)) (image.Dy (Bounds img)).
Proof. reflexivity. Qed.

Lemma Dx_Rect (w h : Z) : 0 <= w -> 0 <= h -> image.Dx (image.Rect 0 0 w h) = w.
Proof. intros. rewrite Rect_ordered by lia. unfold image.Dx. cbn. lia. Qed.

Lemma Dy_Rect (w h : Z) : 0 <= w -> 0 <= h -> image.Dy (image.Rect 0 0 w h) = h.
Proof. intros. rewrite Rect_ordered by lia. unfold image.Dy. cbn. lia. Qed.

Lemma Intersect_origin (w h W H : Z) :
  0 < w -> 0 < h -> 0 < W -> 0 < H ->
  image.Intersect (image.Rect 0 0 w h) (image.Rect 0 0 W H)
  = image.Rect 0 0 (Z.min w W) (Z.min h H).
Proof.
  intros Hw Hh HW HH. rewrite !Rect_ordered by lia.
  unfold image.Intersect, image.Empty. cbn [image.Min image.Max image.X image.Y image.Pt].
  change (Z.max 0 0) with 0.
  destruct (Z.geb_spec 0 (Z.min w W)); [lia|].
  destruct (Z.geb_spec 0 (Z.min h H)); [lia|]. reflexivity.
Qed.

Lemma Sub_origin (w h : Z) :
  0 <= w -> 0 <= h ->
  image.Sub (image.Rect 0 0 w h) (image.Pt 0 0) = image.Rect 0 0 w h.
Proof.
  intros Hw Hh. rewrite Rect_ordered by lia. unfold image.Sub. cbn.
  now rewrite !Z.sub_0_r.
Qed.

Lemma Empty_Rect (w h : Z) : 0 < w -> 0 < h -> image.Empty (image.Rect 0 0 w h) = false.
Proof.
  intros Hw Hh. rewrite Rect_ordered by lia. unfold image.Empty. cbn.
  destruct (Z.geb_spec 0 w); [lia|]. destruct (Z.geb_spec 0 h); [lia|]. reflexivity.
Qed.

(** Cropping a picture that starts at the origin to a rectangle that starts
    at the origin keeps the common part. *)
Lemma Crop_origin (img : Image) (W H w h : Z) :
  Bounds img = image.Rect 0 0 W H -> 0 < W -> 0 < H -> 0 < w -> 0 < h ->
  Crop img (image.Rect 0 0 w h) = Cropped img (image.Rect 0 0 (Z.min w W) (Z.min h H)).
Proof.
  intros Hb HW HH Hw Hh. unfold Crop. rewrite Hb, Intersect_origin by lia.
  replace (image.Min (image.Rect 0 0 W H)) with (image.Pt 0 0)
    by (now rewrite Rect_ordered by lia).
  rewrite Sub_origin, Empty_Rect by lia. reflexivity.
Qed.

Lemma Crop_Solid (img : Image) (W H w h : Z) :
  Bounds img = image.Rect 0 0 W H -> 0 < W -> 0 < H -> 0 < w -> 0 < h ->
  Solid (Crop img (image.Rect 0 0 w h)).
Proof.
  intros Hb HW HH Hw Hh. rewrite (Crop_origin img W H) by assumption.
  unfold Solid. cbn [Bounds].
  rewrite (Dx_Rect (Z.min w W) (Z.min h H)), (Dy_Rect (Z.min w W) (Z.min h H)) by lia.
  rewrite Dx_Rect, Dy_Rect by lia. lia.
Qed.

Lemma Cloned_Solid (img : Image) : Solid img -> Solid (Cloned img).
Proof.
  intros [Hdx Hdy]. unfold Solid. cbn [Bounds].
  rewrite Dx_Rect, Dy_Rect by lia. lia.
Qed.

Lemma Resized_Solid (img : Image) (w h : Z) (filter : ResampleFilter) :
  0 < w -> 0 < h -> Solid (Resized img w h filter).
Proof.
  intros Hw Hh. unfold Solid. cbn [Bounds].
  rewrite Dx_Rect, Dy_Rect by lia. lia.
Qed.

(** The side that [Resize] computes to keep the aspect ratio is at least one
    pixel. *)
Lemma round_dimension `{float64.Conversion} (q : Q) :
  (0 <= q)%Q -> (q < inject_Z (2 ^ 62))%Q ->
  1 <= float64.to_int
         (float64.max (float64.Fin 1)
            (float64.floor (float64.add (float64.Fin q) (float64.Fin (1 # 2))))).
Proof.
  intros Hpos Hbound. unfold float64.add, float64.floor.
  set (k := Qfloor (Qred (q + (1 # 2)))).
  assert (Hk : k < 2 ^ 63).
  { apply Qfloor_lt_bound. rewrite Qred_correct.
    change (inject_Z (2 ^ 63)) with (inject_Z (2 ^ 62) + inject_Z (2 ^ 62))%Q.
    assert ((1 # 2) < inject_Z (2 ^ 62))%Q by reflexivity.
    set (B := inject_Z (2 ^ 62)) in *. lra. }
  unfold float64.max.
  destruct (float64.ltb (float64.Fin 1) (float64.Fin (inject_Z k))) eqn:Hlt.
  - apply ltb_Fin in Hlt. change 1%Q with (inject_Z 1) in Hlt.
    rewrite <- Zlt_Qlt in Hlt.
    rewrite to_int_Fin.
    + rewrite Qfloor_Z. lia.
    + change 0%Q with (inject_Z 0). rewrite <- Zle_Qle. lia.
    + now rewrite <- Zlt_Qlt.
  - rewrite to_int_Fin; [reflexivity | discriminate | reflexivity].
Qed.

Lemma scaled_Fin (a b c : Z) :
  0 < a < 2 ^ 31 -> 0 < b < 2 ^ 31 -> 0 < c ->
  exists q,
    float64.div (float64.mul (float64.of_int a) (float64.of_int b)) (float64.of_int c)
    = float64.Fin q
    /\ (0 <= q)%Q /\ (q < inject_Z (2 ^ 62))%Q.
Proof.
  intros Ha Hb Hc. unfold float64.of_int, float64.mul, float64.div.
  rewrite is_zero_inject_Z by lia.
  eexists. split; [reflexivity|].
  pose proof (inject_Z_pos c Hc) as HcQ.
  assert (Hab : (0 <= inject_Z a * inject_Z b < inject_Z (2 ^ 62))%Q).
  { rewrite <- inject_Z_mult. change 0%Q with (inject_Z 0).
    rewrite <- Zle_Qle, <- Zlt_Qlt. nia. }
  assert (Hone : (1 <= inject_Z c)%Q).
  { change 1%Q with (inject_Z 1). rewrite <- Zle_Qle. lia. }
  rewrite !Qred_correct. split.
  - apply Qle_shift_div_l; [exact HcQ | lra].
  - apply Qlt_shift_div_r; [exact HcQ|].
    apply Qlt_le_trans with (inject_Z (2 ^ 62) * 1)%Q; [lra|].
    apply Qmult_le_l; [reflexivity | exact Hone].
Qed.

Lemma Resize_Solid `{C : float64.Conversion} (img : Image) (W H width height : Z) :
  Bounds img = image.Rect 0 0 W H ->
  0 < W < 2 ^ 31 -> 0 < H < 2 ^ 31 ->
  0 <= width < 2 ^ 31 -> 0 <= height < 2 ^ 31 ->
  ~ (width = 0 /\ height = 0) ->
  Solid (Resize img width height Lanczos).
Proof.
  intros Hb HW HH Hwidth Hheight Hnot.
  assert (Himg : Solid img) by (apply (Solid_Rect img W H); (assumption || lia)).
  unfold Resize. rewrite Hb, Dx_Rect, Dy_Rect by lia.
  destruct (Z.ltb_spec width 0); [lia|]. destruct (Z.ltb_spec height 0); [lia|].
  cbn [orb].
  destruct (Z.leb_spec W 0); [lia|]. destruct (Z.leb_spec H 0); [lia|].
  cbn [orb].
  destruct (Z.eqb_spec width 0) as [Ew|Ew]; destruct (Z.eqb_spec height 0) as [Eh|Eh];
    cbn [andb]; [tauto| | |].
  - destruct (scaled_Fin height W H) as (q & -> & Hq0 & Hq1); [lia..|].
    pose proof (round_dimension q Hq0 Hq1) as Hdim.
    match goal with |- context [if ?c then _ else _] => destruct c end.
    + now apply Cloned_Solid.
    + apply Resized_Solid; lia.
  - destruct (scaled_Fin width H W) as (q & -> & Hq0 & Hq1); [lia..|].
    pose proof (round_dimension q Hq0 Hq1) as Hdim.
    match goal with |- context [if ?c then _ else _] => destruct c end.
    + now apply Cloned_Solid.
    + apply Resized_Solid; lia.
  - match goal with |- context [if ?c then _ else _] => destruct c end.
    + now apply Cloned_Solid.
    + apply Resized_Solid; lia.
Qed.

Lemma Qscaled_bounds (a b c : Z) :
  0 < a < 2 ^ 31 -> 0 < b < 2 ^ 31 -> 0 < c ->
  (0 <= inject_Z a * inject_Z b / inject_Z c)%Q
  /\ (inject_Z a * inject_Z b / inject_Z c < inject_Z (2 ^ 63))%Q.
Proof.
  intros Ha Hb Hc.
  pose proof (inject_Z_pos c Hc) as HcQ.
  assert (Hab : (0 <= inject_Z a * inject_Z b < inject_Z (2 ^ 63))%Q).
  { rewrite <- inject_Z_mult. change 0%Q with (inject_Z 0).
    rewrite <- Zle_Qle, <- Zlt_Qlt. nia. }
  assert (Hone : (1 <= inject_Z c)%Q).
  { change 1%Q with (inject_Z 1). rewrite <- Zle_Qle. lia. }
  split.
  - apply Qle_shift_div_l; [exact HcQ | lra].
  - apply Qlt_shift_div_r; [exact HcQ|].
    apply Qlt_le_trans with (inject_Z (2 ^ 63) * 1)%Q; [lra|].
    apply Qmult_le_l; [reflexivity | exact Hone].
Qed.

Lemma Qscaled_lower (a b c k : Z) :
  0 < c -> k * c <= a * b -> k <= Qfloor (inject_Z a * inject_Z b / inject_Z c).
Proof.
  intros Hc Hk. apply Qfloor_lower.
  apply Qle_shift_div_l; [now apply inject_Z_pos|].
  rewrite <- !inject_Z_mult, <- Zle_Qle. exact Hk.
Qed.

(** [int(float64(a) / ratio)] and [int(float64(a) * ratio)] for the ratio
    of two pixel counts. *)
Lemma div_by_ratio `{C : float64.Conversion} (a n d : Z) (ratio : Q) :
  0 < a < 2 ^ 31 -> 0 < n -> 0 < d < 2 ^ 31 ->
  (ratio == inject_Z n / inject_Z d)%Q ->
  float64.to_int (float64.div (float64.of_int a) (float64.Fin ratio))
  = Qfloor (inject_Z a * inject_Z d / inject_Z n).
Proof.
  intros Ha Hn Hd Hratio.
  pose proof (inject_Z_pos n Hn) as HnQ.
  pose proof (inject_Z_pos d (proj1 Hd)) as HdQ.
  assert (Hpos : (0 < ratio)%Q).
  { rewrite Hratio. apply Qlt_shift_div_l; [exact HdQ | lra]. }
  assert (Heq : (Qred (inject_Z a / ratio) == inject_Z a * inject_Z d / inject_Z n)%Q).
  { rewrite Qred_correct, Hratio. field. split; lra. }
  pose proof (Qscaled_bounds a d n Ha Hd Hn) as [Hlo Hhi].
  unfold float64.div, float64.of_int. rewrite (is_zero_pos ratio Hpos).
  rewrite to_int_Fin.
  - now apply Qfloor_comp.
  - now rewrite Heq.
  - now rewrite Heq.
Qed.

Lemma mul_by_ratio `{C : float64.Conversion} (a n d : Z) (ratio : Q) :
  0 < a < 2 ^ 31 -> 0 < n < 2 ^ 31 -> 0 < d ->
  (ratio == inject_Z n / inject_Z d)%Q ->
  float64.to_int (float64.mul (float64.of_int a) (float64.Fin ratio))
  = Qfloor (inject_Z a * inject_Z n / inject_Z d).
Proof.
  intros Ha Hn Hd Hratio.
  pose proof (inject_Z_pos d Hd) as HdQ.
  assert (Heq : (Qred (inject_Z a * ratio) == inject_Z a * inject_Z n / inject_Z d)%Q).
  { rewrite Qred_correct, Hratio. field. lra. }
  pose proof (Qscaled_bounds a n d Ha Hn Hd) as [Hlo Hhi].
  unfold float64.mul, float64.of_int.
  rewrite to_int_Fin.
  - now apply Qfloor_comp.
  - now rewrite Heq.
  - now rewrite Heq.
Qed.

(** ** The size of the smart crop *)

(** C1, as the code has it: for a source picture with at least one pixel
    whose bounds start at the origin, and a target, all sides below 2^31,
    the result is exactly [targetWidth] by [targetHeight]. *)
Theorem SmartCrop_exact_size `{C : float64.Conversion}
    (img : Image) (W H targetWidth targetHeight : Z) :
  Bounds img = image.Rect 0 0 W H ->
  0 < W < 2 ^ 31 -> 0 < H < 2 ^ 31 ->
  0 < targetWidth < 2 ^ 31 -> 0 < targetHeight < 2 ^ 31 ->
  Bounds (SmartCrop img targetWidth targetHeight)
  = image.Rect 0 0 targetWidth targetHeight
  /\ image.Dx (Bounds (SmartCrop img targetWidth targetHeight)) = targetWidth
  /\ image.Dy (Bounds (SmartCrop img targetWidth targetHeight)) = targetHeight.
Proof.
  intros Hb HW HH Htw Hth.
  assert (Hsize : Bounds (SmartCrop img targetWidth targetHeight)
                  = image.Rect 0 0 targetWidth targetHeight).
  { unfold SmartCrop. rewrite Sharpen_Bounds.
    rewrite Hb, Dx_Rect, Dy_Rect by lia.
    destruct (ratio_Fin targetWidth targetHeight) as (tr & -> & Htr & _); [lia..|].
    destruct (ratio_Fin W H) as (sr & -> & Hsr & _); [lia..|].
    rewrite (div_by_ratio W targetWidth targetHeight tr) by (lia || assumption).
    rewrite (mul_by_ratio H targetWidth targetHeight tr) by (lia || assumption).
    rewrite Fill_Bounds; [now rewrite Dx_Rect, Dy_Rect by lia | lia | lia |].
    unfold float64.gtb.
    destruct (float64.ltb (float64.Fin tr) (float64.Fin sr)) eqn:Hwider.
    - apply ltb_Fin in Hwider. rewrite Htr, Hsr in Hwider.
      apply (ratio_lt targetWidth targetHeight W H) in Hwider; [|lia..].
      pose proof (Qscaled_lower W targetHeight targetWidth H ltac:(lia) ltac:(lia)) as Hnew.
      match goal with |- context [if ?c then _ else _] => destruct c end.
      + apply (Crop_Solid img W H); (assumption || lia).
      + apply (Resize_Solid img W H); (assumption || lia).
    - destruct (float64.ltb (float64.Fin sr) (float64.Fin tr)) eqn:Htaller.
      + apply ltb_Fin in Htaller. rewrite Htr, Hsr in Htaller.
        apply (ratio_lt W H targetWidth targetHeight) in Htaller; [|lia..].
        pose proof (Qscaled_lower H targetWidth targetHeight W ltac:(lia) ltac:(lia)) as Hnew.
        match goal with |- context [if ?c then _ else _] => destruct c end.
        * apply (Crop_Solid img W H); (assumption || lia).
        * apply (Resize_Solid img W H); (assumption || lia).
      + apply (Resize_Solid img W H); (assumption || lia). }
  rewrite Hsize. rewrite Dx_Rect, Dy_Rect by lia. auto.
Qed.

Lemma SmartCrop_exact_size_witness :
  Bounds (SmartCrop (Decoded (image.Rect 0 0 600 800)) 1200 628)
  = image.Rect 0 0 1200 628.
Proof.
  apply (SmartCrop_exact_size (Decoded (image.Rect 0 0 600 800)) 600 800 1200 628);
    [reflexivity | lia..].
Defined.

(** The claim as written fails for a source without pixels, for a source
    whose bounds do not start at the origin (the crop rectangle of
    [SmartCrop] does), and, with the conversion of amd64, for a target so
    large that [int(...)] overflows: the result is the empty picture. *)
Lemma SmartCrop_empty_result :
  (0 < 1200 /\ 0 < 628
   /\ image.Dx (Bounds (SmartCrop (Decoded (image.Rect 0 0 0 10)) 1200 628)) = 0
   /\ image.Dy (Bounds (SmartCrop (Decoded (image.Rect 0 0 0 10)) 1200 628)) = 0)
  /\ (0 < 200 /\ 0 < 100
      /\ image.Dx (image.Rect 100 100 301 200) = 201
      /\ image.Dy (image.Rect 100 100 301 200) = 100
      /\ image.Dx (Bounds (SmartCrop (Decoded (image.Rect 100 100 301 200)) 200 100)) = 0
      /\ image.Dy (Bounds (SmartCrop (Decoded (image.Rect 100 100 301 200)) 200 100)) = 0)
  /\ (0 < 1 /\ 0 < 2 ^ 62 <= float64.max_int64
      /\ image.Dx (Bounds (SmartCrop (Decoded (image.Rect 0 0 4 1)) 1 (2 ^ 62))) = 0
      /\ image.Dy (Bounds (SmartCrop (Decoded (image.Rect 0 0 4 1)) 1 (2 ^ 62))) = 0).
Proof.
  repeat split; try reflexivity; discriminate.
Qed.

(** ** 1920x1080 to 1200x628 *)



(** ** Strings and patterns *)

Lemma append_nil (s : string) : "" ++ s = s.
Proof. reflexivity. Qed.

Lemma append_cons (c : ascii) (p s : string) : String c p ++ s = String c (p ++ s).
Proof. reflexivity. Qed.

Lemma append_assoc (a b c : string) : (a ++ b) ++ c = a ++ b ++ c.
Proof.
  induction a as [|x a IH]; rewrite ?append_nil, ?append_cons; [reflexivity | now rewrite IH].
Qed.

Lemma HasPrefix_app (p s : string) : GoStrings.HasPrefix (p ++ s) p = true.
Proof.
  induction p as [|c p IH]; rewrite ?append_nil, ?append_cons; cbn [GoStrings.HasPrefix].
  - now destruct s.
  - now rewrite Ascii.eqb_refl, IH.
Qed.

Lemma HasPrefix_inv (s p : string) :
  GoStrings.HasPrefix s p = true -> exists rest, s = p ++ rest.
Proof.
  revert s. induction p as [|c p IH]; intros s Hs.
  - now exists s.
  - destruct s as [|c' s]; cbn [GoStrings.HasPrefix] in Hs; [discriminate|].
    apply andb_true_iff in Hs as [Hc Hs]. apply Ascii.eqb_eq in Hc as ->.
    destruct (IH s Hs) as [rest ->]. now exists rest.
Qed.

Lemma CutPrefix_app (p s : string) : GoStrings.CutPrefix (p ++ s) p = Some s.
Proof.
  induction p as [|c p IH]; rewrite ?append_nil, ?append_cons; cbn [GoStrings.CutPrefix].
  - now destruct s.
  - now rewrite Ascii.eqb_refl, IH.
Qed.

Lemma CutPrefix_inv (s p rest : string) :
  GoStrings.CutPrefix s p = Some rest -> s = p ++ rest.
Proof.
  revert s. induction p as [|c p IH]; intros s Hs.
  - destruct s; cbn [GoStrings.CutPrefix] in Hs; rewrite append_nil; congruence.
  - destruct s as [|c' s]; cbn [GoStrings.CutPrefix] in Hs; [discriminate|].
    destruct (Ascii.eqb_spec c' c) as [->|]; [|discriminate].
    rewrite append_cons. f_equal. now apply IH.
Qed.

(** [[class]{n}] takes the first [n] characters of a longer run. *)
Lemma match_class_run (cl : ascii -> bool) (n : nat) (tok tail : string) :
  (n <= String.length tok)%nat -> all_of cl tok = true ->
  match_class cl n (tok ++ tail) = Some (substring 0 n tok).
Proof.
  revert tok. induction n as [|n IH]; intros tok Hlen Hall.
  - now destruct tok.
  - destruct tok as [|c tok]; cbn [String.length] in Hlen; [lia|].
    cbn [all_of] in Hall. apply andb_true_iff in Hall as [Hc Hall].
    rewrite append_cons. cbn [match_class substring].
    rewrite Hc, IH by (lia || assumption). reflexivity.
Qed.

Lemma substring_all (s : string) : substring 0 (String.length s) s = s.
Proof. induction s as [|c s IH]; cbn; [reflexivity | now rewrite IH]. Qed.

Lemma match_class_inv (cl : ascii -> bool) (n : nat) (s g : string) :
  match_class cl n s = Some g ->
  String.length g = n /\ all_of cl g = true /\ exists tail, s = g ++ tail.
Proof.
  revert s g. induction n as [|n IH]; intros s g Hm; cbn [match_class] in Hm.
  - injection Hm as <-. repeat split. now exists s.
  - destruct s as [|c s]; [discriminate|].
    destruct (cl c) eqn:Hc; [|discriminate].
    destruct (match_class cl n s) as [g'|] eqn:Hg; [|discriminate].
    injection Hm as <-. destruct (IH s g' Hg) as (Hlen & Hall & tail & ->).
    cbn [String.length all_of]. rewrite Hc, Hall, Hlen. repeat split. now exists tail.
Qed.

Lemma match_here_run (re : IDPattern) (tok tail : string) :
  (count re <= String.length tok)%nat -> all_of (class re) tok = true ->
  match_here re (literal re ++ tok ++ tail) = Some (substring 0 (count re) tok).
Proof.
  intros Hlen Hall. unfold match_here.
  rewrite CutPrefix_app. cbn [mbind option_bind]. now apply match_class_run.
Qed.

Lemma match_here_inv (re : IDPattern) (s g : string) :
  match_here re s = Some g ->
  String.length g = count re /\ all_of (class re) g = true
  /\ exists tail, s = literal re ++ g ++ tail.
Proof.
  unfold match_here. intros Hm.
  destruct (GoStrings.CutPrefix s (literal re)) as [rest|] eqn:Hcut; [|discriminate].
  cbn [mbind option_bind] in Hm. apply CutPrefix_inv in Hcut as ->.
  destruct (match_class_inv _ _ _ _ Hm) as (Hlen & Hall & tail & ->).
  repeat split; try assumption. now exists tail.
Qed.

(** What [FindStringSubmatch] returns stands in the text right after the
    literal of the pattern. *)
Lemma FindStringSubmatch_inv (re : IDPattern) (s g : string) :
  FindStringSubmatch re s = Some g ->
  String.length g = count re /\ all_of (class re) g = true
  /\ exists pre tail, s = pre ++ literal re ++ g ++ tail.
Proof.
  induction s as [|c s IH]; cbn [FindStringSubmatch]; intros Hf.
  - destruct (match_here re "") as [g'|] eqn:Hm; [|discriminate].
    injection Hf as ->. destruct (match_here_inv _ _ _ Hm) as (Hl & Ha & tail & E).
    repeat split; try assumption. now exists "", tail.
  - destruct (match_here re (String c s)) as [g'|] eqn:Hm.
    + injection Hf as ->. destruct (match_here_inv _ _ _ Hm) as (Hl & Ha & tail & E).
      repeat split; try assumption. now exists "", tail.
    + destruct (IH Hf) as (Hl & Ha & pre & tail & ->).
      repeat split; try assumption. now exists (String c pre), tail.
Qed.

(** A pattern that matches somewhere is found. *)
Lemma FindStringSubmatch_found (re : IDPattern) (pre tok tail : string) :
  (count re <= String.length tok)%nat -> all_of (class re) tok = true ->
  is_Some (FindStringSubmatch re (pre ++ literal re ++ tok ++ tail)).
Proof.
  intros Hlen Hall. induction pre as [|c pre IH].
  - rewrite append_nil. destruct (literal re ++ tok ++ tail) eqn:E;
      cbn [FindStringSubmatch]; rewrite <- E, match_here_run by assumption; eauto.
  - rewrite append_cons.
    cbn [FindStringSubmatch]. destruct (match_here re _); [eauto | exact IH].
Qed.

(** The leftmost match starts where [FindStringIndex] says. *)
Lemma FindStringSubmatch_at_index (re : IDPattern) (pre rest : string) :
  FindStringIndex re (pre ++ rest) = Some (String.length pre) ->
  FindStringSubmatch re (pre ++ rest) = match_here re rest.
Proof.
  induction pre as [|c pre IH]; intros Hidx.
  - rewrite append_nil in *.
    destruct rest as [|c rest]; cbn [FindStringIndex FindStringSubmatch] in *.
    + now destruct (match_here re "").
    + destruct (match_here re (String c rest)); [reflexivity|].
      destruct (FindStringIndex re rest); discriminate.
  - rewrite append_cons in *.
    cbn [FindStringIndex FindStringSubmatch String.length] in *.
    destruct (match_here re (String c (pre ++ rest))); [discriminate|].
    apply IH. destruct (FindStringIndex re (pre ++ rest)); cbn in Hidx; congruence.
Qed.

Lemma differs_CutPrefix (lit p rest : string) :
  differs lit p = true -> GoStrings.CutPrefix (p ++ rest) lit = None.
Proof.
  revert p. induction lit as [|a lit IH]; intros p Hd; [discriminate|].
  destruct p as [|b p]; [discriminate|].
  rewrite append_cons. cbn [differs GoStrings.CutPrefix] in *.
  destruct (Ascii.eqb b a); [now apply IH | reflexivity].
Qed.

Lemma FindStringSubmatch_skip (re : IDPattern) (pre rest : string) :
  clear_of (literal re) pre = true ->
  FindStringSubmatch re (pre ++ rest) = FindStringSubmatch re rest.
Proof.
  induction pre as [|c pre IH]; intros Hclear; [reflexivity|].
  cbn [clear_of] in Hclear. apply andb_true_iff in Hclear as [Hd Hclear].
  rewrite append_cons. cbn [FindStringSubmatch].
  rewrite <- append_cons. unfold match_here at 1.
  rewrite (differs_CutPrefix _ _ _ Hd). cbn [mbind option_bind].
  now apply IH.
Qed.

Lemma FindStringSubmatch_here (re : IDPattern) (s g : string) :
  match_here re s = Some g -> FindStringSubmatch re s = Some g.
Proof.
  intros Hm. destruct s; cbn [FindStringSubmatch]; now rewrite Hm.
Qed.

Lemma extract_loop_skip (higher rest : list IDPattern) (url : string) :
  Forall (fun re => FindStringSubmatch re url = None) higher ->
  extract_loop (higher ++ rest)%list url = extract_loop rest url.
Proof.
  induction 1 as [|re higher Hre _ IH]; [reflexivity|].
  cbn [extract_loop app]. now rewrite Hre.
Qed.

Lemma extract_loop_found (patterns : list IDPattern) (url : string) (re : IDPattern) :
  In re patterns -> is_Some (FindStringSubmatch re url) ->
  exists re' g, In re' patterns /\ FindStringSubmatch re' url = Some g
                /\ extract_loop patterns url = inl g.
Proof.
  induction patterns as [|re0 patterns IH]; intros Hin Hsome; [contradiction|].
  cbn [extract_loop].
  destruct (FindStringSubmatch re0 url) as [g|] eqn:Hfirst.
  - exists re0, g. repeat split; [now left | assumption].
  - destruct Hin as [->|Hin].
    + rewrite Hfirst in Hsome. now destruct Hsome.
    + destruct (IH Hin Hsome) as (re' & g & Hin' & Hg & Hloop).
      exists re', g. repeat split; [now right | assumption..].
Qed.

Lemma youtubeIDPatterns_shape (re : IDPattern) :
  In re youtubeIDPatterns ->
  class re = id_char /\ count re = 11%nat
  /\ In (literal re) [watch_marker; short_marker; embed_marker].
Proof.
  intros [<-|[<-|[<-|[]]]]; cbn; tauto.
Qed.

(** ** Extraction of the video identifier *)

(** C10, as the code has it: where a marker of one of the patterns is
    followed by 11 or more identifier characters, extraction succeeds with
    an identifier of exactly 11 such characters that follows a marker in the
    URL; it is the first 11 characters after this marker when no pattern
    earlier in the list (watch, then short link, then embed) matches the
    URL and the leftmost match of the pattern starts at this marker. *)
Theorem extractYouTubeVideoID_first_11
    (higher lower : list IDPattern) (re : IDPattern) (pre tok tail : string) :
  youtubeIDPatterns = (higher ++ re :: lower)%list ->
  (11 <= String.length tok)%nat ->
  all_of id_char tok = true ->
  (exists id re' pre' tail',
      extractYouTubeVideoID (pre ++ literal re ++ tok ++ tail) = inl id
      /\ In re' youtubeIDPatterns
      /\ pre ++ literal re ++ tok ++ tail = pre' ++ literal re' ++ id ++ tail'
      /\ String.length id = 11%nat /\ all_of id_char id = true)
  /\ (Forall (fun re' => FindStringSubmatch re' (pre ++ literal re ++ tok ++ tail) = None)
             higher ->
      FindStringIndex re (pre ++ literal re ++ tok ++ tail) = Some (String.length pre) ->
      extractYouTubeVideoID (pre ++ literal re ++ tok ++ tail) = inl (substring 0 11 tok)).
Proof.
  intros Hsplit Hlen Hall.
  assert (Hin : In re youtubeIDPatterns) by (rewrite Hsplit; apply in_elt).
  destruct (youtubeIDPatterns_shape re Hin) as (Hclass & Hcount & _).
  split.
  - destruct (extract_loop_found youtubeIDPatterns (pre ++ literal re ++ tok ++ tail) re Hin)
      as (re' & g & Hin' & Hg & Hloop).
    { apply FindStringSubmatch_found; [rewrite Hcount | rewrite Hclass]; assumption. }
    destruct (youtubeIDPatterns_shape re' Hin') as (Hclass' & Hcount' & _).
    destruct (FindStringSubmatch_inv _ _ _ Hg) as (Hl & Ha & pre' & tail' & E).
    exists g, re', pre', tail'. rewrite <- Hcount', <- Hclass'. auto.
  - intros Hhigher Hidx. unfold extractYouTubeVideoID.
    rewrite Hsplit, extract_loop_skip by assumption.
    cbn [extract_loop].
    rewrite (FindStringSubmatch_at_index _ _ _ Hidx), match_here_run
      by (rewrite ?Hcount, ?Hclass; assumption).
    now rewrite Hcount.
Qed.

Lemma extractYouTubeVideoID_first_11_witness :
  extractYouTubeVideoID "https://youtu.be/Kf5-HWJPTIE_and_more?si=01AaOhARAG9tfHFp"
  = inl "Kf5-HWJPTIE".
Proof.
  apply (extractYouTubeVideoID_first_11 [watch_pattern] [embed_pattern] short_pattern
           "https://" "Kf5-HWJPTIE_and_more" "?si=01AaOhARAG9tfHFp").
  - reflexivity.
  - cbn. lia.
  - reflexivity.
  - repeat constructor.
  - reflexivity.
Defined.

(** The claim as written fails when a pattern earlier in the list matches
    further on in the URL: here the first marker, [youtube.com/embed/], is
    followed by twelve identifier characters, and the result is the
    identifier after [youtu.be/]. *)
Lemma extractYouTubeVideoID_prefers_earlier_pattern :
  "https://www.youtube.com/embed/AAAAAAAAAAAA?feature=youtu.be/BBBBBBBBBBB"
  = "https://www." ++ embed_marker ++ "AAAAAAAAAAAA" ++ "?feature=youtu.be/BBBBBBBBBBB"
  /\ (11 <= String.length "AAAAAAAAAAAA")%nat
  /\ all_of id_char "AAAAAAAAAAAA" = true
  /\ extractYouTubeVideoID
       "https://www.youtube.com/embed/AAAAAAAAAAAA?feature=youtu.be/BBBBBBBBBBB"
     = inl "BBBBBBBBBBB"
  /\ "BBBBBBBBBBB" <> substring 0 11 "AAAAAAAAAAAA"
  /\ extractYouTubeVideoID "https://player.example.com/embed/ABCDEFGHIJK"
     = inr (errorString
              "could not extract video ID from URL: https://player.example.com/embed/ABCDEFGHIJK").
Proof.
  repeat split; try reflexivity; [cbn; lia | discriminate].
Qed.

(** ** Classification of URLs *)

Lemma youtubeURLRegex_language :
  youtubeURLRegex
  = [ "https://www.youtube.com/watch?v="; "https://www.youtu.be/";
      "https://www.youtube.com/embed/"; "https://youtube.com/watch?v=";
      "https://youtu.be/"; "https://youtube.com/embed/";
      "http://www.youtube.com/watch?v="; "http://www.youtu.be/";
      "http://www.youtube.com/embed/"; "http://youtube.com/watch?v=";
      "http://youtu.be/"; "http://youtube.com/embed/" ].
Proof. reflexivity. Qed.

Lemma isYouTubeURL_iff (url : string) :
  isYouTubeURL url = true
  <-> exists prefix rest, In prefix youtubeURLRegex /\ url = prefix ++ rest.
Proof.
  unfold isYouTubeURL, MatchString. rewrite existsb_exists. split.
  - intros (prefix & Hin & Hp). destruct (HasPrefix_inv _ _ Hp) as [rest ->]. eauto.
  - intros (prefix & rest & Hin & ->). exists prefix. split; [assumption|].
    apply HasPrefix_app.
Qed.

Lemma isYouTubeURL_shape (scheme www marker rest : string) :
  In scheme ["https://"; "http://"] -> In www ["www."; ""] ->
  In marker [watch_marker; short_marker; embed_marker] ->
  isYouTubeURL (scheme ++ www ++ marker ++ rest) = true.
Proof.
  intros Hs Hw Hm. apply isYouTubeURL_iff.
  exists (scheme ++ www ++ marker), rest. split; [|now rewrite !append_assoc].
  rewrite youtubeURLRegex_language.
  destruct Hs as [<-|[<-|[]]]; destruct Hw as [<-|[<-|[]]];
    destruct Hm as [<-|[<-|[<-|[]]]]; vm_compute; tauto.
Qed.

(** The identifier right after the marker of [re] at the start of a URL is
    what the pattern finds there. *)
Lemma FindStringSubmatch_canonical (re : IDPattern) (scheme www id tail : string) :
  In re youtubeIDPatterns ->
  In scheme ["https://"; "http://"] -> In www ["www."; ""] ->
  String.length id = 11%nat -> all_of id_char id = true ->
  FindStringSubmatch re (scheme ++ www ++ literal re ++ id ++ tail) = Some id.
Proof.
  intros Hre Hs Hw Hlen Hall.
  destruct (youtubeIDPatterns_shape re Hre) as (Hclass & Hcount & _).
  rewrite <- (append_assoc scheme www).
  rewrite FindStringSubmatch_skip.
  - apply FindStringSubmatch_here.
    rewrite match_here_run by (rewrite ?Hcount, ?Hclass, ?Hlen; (assumption || lia)).
    now rewrite Hcount, <- Hlen, substring_all.
  - destruct Hre as [<-|[<-|[<-|[]]]]; destruct Hs as [<-|[<-|[]]];
      destruct Hw as [<-|[<-|[]]]; reflexivity.
Qed.

(** A pattern cannot match inside the scheme, [www.] and the marker of
    another pattern: it can only match in what follows. *)
Lemma FindStringSubmatch_other_marker (re : IDPattern) (scheme www marker rest : string) :
  In scheme ["https://"; "http://"] -> In www ["www."; ""] ->
  (re = watch_pattern /\ In marker [short_marker; embed_marker])
  \/ (re = short_pattern /\ marker = embed_marker) ->
  FindStringSubmatch re (scheme ++ www ++ marker ++ rest) = FindStringSubmatch re rest.
Proof.
  intros Hs Hw Hm.
  replace (scheme ++ www ++ marker ++ rest) with ((scheme ++ www ++ marker) ++ rest)
    by now rewrite !append_assoc.
  apply FindStringSubmatch_skip.
  destruct Hs as [<-|[<-|[]]]; destruct Hw as [<-|[<-|[]]];
    destruct Hm as [[-> [<-|[<-|[]]]]|[-> ->]]; reflexivity.
Qed.

(** C3, as the code has it.  A URL made of a scheme, an optional [www.], a
    marker, an identifier of 11 characters of the class and anything after
    it is a video host, and the identifier extracted is that one: always
    for the watch form; for the short-link form when the watch pattern does
    not match in the rest of the URL; for the embed form when neither the
    watch nor the short-link pattern does.  A URL that starts with none of
    the twelve prefixes of [youtubeURLRegex] is generic.  [classify] is a
    total function. *)
Theorem classify_video_host (scheme www id tail : string) :
  In scheme ["https://"; "http://"] -> In www ["www."; ""] ->
  String.length id = 11%nat -> all_of id_char id = true ->
  classify (scheme ++ www ++ watch_marker ++ id ++ tail) = VideoHost (Some id)
  /\ (FindStringSubmatch watch_pattern (id ++ tail) = None ->
      classify (scheme ++ www ++ short_marker ++ id ++ tail) = VideoHost (Some id))
  /\ (FindStringSubmatch watch_pattern (id ++ tail) = None ->
      FindStringSubmatch short_pattern (id ++ tail) = None ->
      classify (scheme ++ www ++ embed_marker ++ id ++ tail) = VideoHost (Some id))
  /\ (forall url,
        (forall prefix rest, In prefix youtubeURLRegex -> url <> prefix ++ rest) ->
        classify url = Generic).
Proof.
  intros Hs Hw Hlen Hall.
  assert (Hhere : forall re, In re youtubeIDPatterns ->
            FindStringSubmatch re (scheme ++ www ++ literal re ++ id ++ tail) = Some id).
  { intros re Hre. now apply FindStringSubmatch_canonical. }
  pose proof (Hhere watch_pattern ltac:(cbn; tauto)) as Hwatch_here.
  pose proof (Hhere short_pattern ltac:(cbn; tauto)) as Hshort_here.
  pose proof (Hhere embed_pattern ltac:(cbn; tauto)) as Hembed_here.
  cbn [literal watch_pattern short_pattern embed_pattern] in *.
  pose proof (fun re marker =>
                FindStringSubmatch_other_marker re scheme www marker (id ++ tail) Hs Hw)
    as Hother.
  unfold classify, extractYouTubeVideoID, youtubeIDPatterns.
  fold watch_pattern short_pattern embed_pattern.
  split; [|split; [|split]].
  - rewrite isYouTubeURL_shape by (assumption || (cbn; tauto)).
    cbn [extract_loop]. now rewrite Hwatch_here.
  - intros Hwatch.
    rewrite isYouTubeURL_shape by (assumption || (cbn; tauto)).
    cbn [extract_loop].
    rewrite (Hother watch_pattern short_marker), Hwatch by (cbn; tauto).
    now rewrite Hshort_here.
  - intros Hwatch Hshort.
    rewrite isYouTubeURL_shape by (assumption || (cbn; tauto)).
    cbn [extract_loop].
    rewrite (Hother watch_pattern embed_marker), Hwatch by (cbn; tauto).
    rewrite (Hother short_pattern embed_marker), Hshort by (cbn; tauto).
    now rewrite Hembed_here.
  - intros url Hnone.
    destruct (isYouTubeURL url) eqn:Hyt; [|reflexivity].
    apply isYouTubeURL_iff in Hyt as (prefix & rest & Hin & ->).
    now destruct (Hnone prefix rest Hin).
Qed.

Lemma classify_video_host_witness :
  classify "https://youtu.be/Kf5-HWJPTIE?si=01AaOhARAG9tfHFp" = VideoHost (Some "Kf5-HWJPTIE")
  /\ classify "http://www.youtube.com/watch?v=Kf5-HWJPTIE&t=10s" = VideoHost (Some "Kf5-HWJPTIE").
Proof.
  split.
  - apply (classify_video_host "https://" "" "Kf5-HWJPTIE" "?si=01AaOhARAG9tfHFp");
      (reflexivity || (cbn; tauto)).
  - apply (classify_video_host "http://" "www." "Kf5-HWJPTIE" "&t=10s");
      (reflexivity || (cbn; tauto)).
Defined.

(** The claim as written fails: a short link whose query carries a watch
    URL is a video host, but the identifier extracted is the one from the
    query; and a URL can have the shape of a video host without an
    identifier of eleven characters. *)
Lemma classify_wrong_identifier :
  "https://youtu.be/AAAAAAAAAAA?next=youtube.com/watch?v=BBBBBBBBBBB"
  = "https://" ++ "" ++ short_marker ++ "AAAAAAAAAAA" ++ "?next=youtube.com/watch?v=BBBBBBBBBBB"
  /\ String.length "AAAAAAAAAAA" = 11%nat
  /\ all_of id_char "AAAAAAAAAAA" = true
  /\ classify "https://youtu.be/AAAAAAAAAAA?next=youtube.com/watch?v=BBBBBBBBBBB"
     = VideoHost (Some "BBBBBBBBBBB")
  /\ classify "https://youtu.be/AAAAAAAAAAA?next=youtube.com/watch?v=BBBBBBBBBBB"
     <> VideoHost (Some "AAAAAAAAAAA")
  /\ classify "https://youtu.be/shortid" = VideoHost None.
Proof.
  repeat split; try reflexivity. discriminate.
Qed.

(** ** One quality tier *)

Ltac run_M := unfold mbind, M_bind, mret, M_ret, emit, write_file; cbn [files trace].

Lemma downloadThumbnail_ok (env : Env) (videoID quality outputPath : string) (w : World) :
  tier_ok env videoID quality outputPath = true ->
  downloadThumbnail env videoID quality outputPath w
  = (None, {| files := <[outputPath := tier_body env videoID quality]> (files w);
              trace := (trace w ++ requested videoID [quality])%list |}).
Proof.
  unfold tier_ok, tier_body, downloadThumbnail. run_M.
  destruct (http_get env (thumbnailURL videoID quality)) as [msg|code body [[n msg]|]];
    try discriminate.
  destruct (Z.eqb_spec code 200); [|discriminate].
  destruct (create_error env outputPath); [discriminate|]. intros _.
  cbn [negb]. run_M. now rewrite insert_insert_eq.
Qed.

Lemma downloadThumbnail_failed (env : Env) (videoID quality outputPath : string) (w : World) :
  tier_ok env videoID quality outputPath = false ->
  exists e w',
    downloadThumbnail env videoID quality outputPath w = (Some e, w')
    /\ trace w' = (trace w ++ requested videoID [quality])%list
    /\ (tier_fails_early env videoID quality outputPath = true -> files w' = files w)
    /\ (forall path, path <> outputPath -> files w' !! path = files w !! path).
Proof.
  unfold tier_ok, tier_fails_early, downloadThumbnail. run_M.
  destruct (http_get env (thumbnailURL videoID quality)) as [msg|code body broken].
  - intros _. eauto 10.
  - destruct (Z.eqb_spec code 200); cbn [negb andb orb]; [|intros _; eauto 10].
    destruct (create_error env outputPath); cbn [is_Some_b negb]; [intros _; eauto 10|].
    destruct broken as [[n msg]|]; [intros _|discriminate]. run_M.
    eexists _, _. split; [reflexivity|]. cbn [files trace].
    repeat split; [discriminate|].
    intros path Hpath. now rewrite !lookup_insert_ne by congruence.
Qed.

(** ** The thumbnail ladder *)

Lemma fallback_loop_first_success (env : Env) (videoID outputPath : string)
    (pre post : list string) (quality : string) (w : World) :
  Forall (fun q => tier_ok env videoID q outputPath = false) pre ->
  tier_ok env videoID quality outputPath = true ->
  exists w',
    fallback_loop env videoID outputPath (pre ++ quality :: post)%list w = (None, w')
    /\ trace w' = (trace w ++ requested videoID (pre ++ [quality]))%list
    /\ files w' !! outputPath = Some (tier_body env videoID quality)
    /\ (forall path, path <> outputPath -> files w' !! path = files w !! path).
Proof.
  intros Hpre Hok. revert w.
  induction Hpre as [|q pre Hq _ IH]; intros w; cbn [fallback_loop app]; run_M.
  - rewrite downloadThumbnail_ok by assumption.
    eexists. split; [reflexivity|]. cbn [files trace].
    split; [reflexivity|]. split; [apply lookup_insert_eq|].
    intros path Hpath. now rewrite lookup_insert_ne by congruence.
  - destruct (downloadThumbnail_failed env videoID q outputPath w Hq)
      as (e & w1 & -> & Htrace & _ & Hothers).
    destruct (IH w1) as (w' & -> & Htrace' & Hfile & Hothers').
    exists w'. split; [reflexivity|].
    split; [rewrite Htrace', Htrace; unfold requested; cbn [map app];
            now rewrite <- app_assoc|].
    split; [assumption|].
    intros path Hpath. now rewrite Hothers', Hothers.
Qed.

Lemma fallback_loop_exhausted (env : Env) (videoID outputPath : string)
    (qs : list string) (w : World) :
  Forall (fun q => tier_ok env videoID q outputPath = false) qs ->
  exists w',
    fallback_loop env videoID outputPath qs w
    = (Some (errorString ("failed to download thumbnail for video ID: " ++ videoID)), w')
    /\ trace w' = (trace w ++ requested videoID qs)%list
    /\ (Forall (fun q => tier_fails_early env videoID q outputPath = true) qs ->
        files w' = files w)
    /\ (forall path, path <> outputPath -> files w' !! path = files w !! path).
Proof.
  intros Hqs. revert w.
  induction Hqs as [|q qs Hq _ IH]; intros w; cbn [fallback_loop]; run_M.
  - exists w. unfold requested. cbn [map]. rewrite app_nil_r. auto.
  - destruct (downloadThumbnail_failed env videoID q outputPath w Hq)
      as (e & w1 & -> & Htrace & Hearly & Hothers).
    destruct (IH w1) as (w' & -> & Htrace' & Hearly' & Hothers').
    exists w'. split; [reflexivity|].
    split; [rewrite Htrace', Htrace; unfold requested; cbn [map app];
            now rewrite <- app_assoc|].
    split.
    + intros Hall. inversion Hall; subst. now rewrite Hearly', Hearly.
    + intros path Hpath. now rewrite Hothers', Hothers.
Qed.

(** Either every tier fails, or there is a first one that delivers. *)
Lemma first_tier_ok (env : Env) (videoID outputPath : string) (qs : list string) :
  Forall (fun q => tier_ok env videoID q outputPath = false) qs
  \/ exists pre quality post,
       qs = (pre ++ quality :: post)%list
       /\ Forall (fun q => tier_ok env videoID q outputPath = false) pre
       /\ tier_ok env videoID quality outputPath = true.
Proof.
  induction qs as [|q qs IH]; [left; constructor|].
  destruct (tier_ok env videoID q outputPath) eqn:Hq.
  - right. exists [], q, qs. auto.
  - destruct IH as [Hall|(pre & quality & post & -> & Hpre & Hok)].
    + left. now constructor.
    + right. exists (q :: pre), quality, post. repeat split; [|assumption].
      now constructor.
Qed.

(** C4: there are exactly four quality tiers, tried from the highest to the
    lowest resolution; a tier delivers exactly when [downloadThumbnail]
    returns nil for it; the requests made are those up to and including the
    first tier that delivers, and the call then returns success; when all
    four fail, the error names the video identifier and nothing else. *)
Theorem downloadThumbnailWithFallback_ladder
    (env : Env) (videoID outputPath : string) (w : World) :
  (qualities = ["maxresdefault"; "hqdefault"; "mqdefault"; "default"]
   /\ List.length qualities = 4%nat
   /\ StronglySorted
        (fun higher lower =>
           fst (quality_size lower) < fst (quality_size higher)
           /\ snd (quality_size lower) < snd (quality_size higher))
        qualities)
  /\ (forall quality w0,
        tier_ok env videoID quality outputPath = true
        <-> fst (downloadThumbnail env videoID quality outputPath w0) = None)
  /\ (forall pre quality post,
        qualities = (pre ++ quality :: post)%list ->
        Forall (fun q => tier_ok env videoID q outputPath = false) pre ->
        tier_ok env videoID quality outputPath = true ->
        exists w',
          downloadThumbnailWithFallback env videoID outputPath w = (None, w')
          /\ trace w' = (trace w ++ requested videoID (pre ++ [quality]))%list)
  /\ (Forall (fun q => tier_ok env videoID q outputPath = false) qualities ->
      exists w',
        downloadThumbnailWithFallback env videoID outputPath w
        = (Some (errorString ("failed to download thumbnail for video ID: " ++ videoID)),
           w')
        /\ trace w' = (trace w ++ requested videoID qualities)%list).
Proof.
  split; [|split; [|split]].
  - split; [reflexivity|]. split; [reflexivity|].
    unfold qualities. repeat constructor.
  - intros quality w0.
    destruct (tier_ok env videoID quality outputPath) eqn:Hok.
    + now rewrite downloadThumbnail_ok.
    + destruct (downloadThumbnail_failed env videoID quality outputPath w0 Hok)
        as (e & w1 & -> & _).
      split; discriminate.
  - intros pre quality post Hsplit Hpre Hok.
    unfold downloadThumbnailWithFallback. rewrite Hsplit.
    destruct (fallback_loop_first_success env videoID outputPath pre post quality w Hpre Hok)
      as (w' & Hrun & Htrace & _).
    eauto.
  - intros Hall. unfold downloadThumbnailWithFallback.
    destruct (fallback_loop_exhausted env videoID outputPath qualities w Hall)
      as (w' & Hrun & Htrace & _).
    eauto.
Qed.

Lemma downloadThumbnailWithFallback_ladder_witness :
  (exists w',
      downloadThumbnailWithFallback only_default "Kf5-HWJPTIE" "out/day-1.png" empty_world
      = (None, w')
      /\ trace w' = requested "Kf5-HWJPTIE" ["maxresdefault"; "hqdefault"; "mqdefault"; "default"])
  /\ (exists w',
      downloadThumbnailWithFallback offline "Kf5-HWJPTIE" "out/day-1.png" empty_world
      = (Some (errorString "failed to download thumbnail for video ID: Kf5-HWJPTIE"), w')
      /\ trace w' = requested "Kf5-HWJPTIE" qualities).
Proof.
  destruct (downloadThumbnailWithFallback_ladder only_default "Kf5-HWJPTIE" "out/day-1.png"
              empty_world) as (_ & _ & Hfirst & _).
  destruct (downloadThumbnailWithFallback_ladder offline "Kf5-HWJPTIE" "out/day-1.png"
              empty_world) as (_ & _ & _ & Hnone).
  split.
  - apply (Hfirst ["maxresdefault"; "hqdefault"; "mqdefault"] "default" []);
      [reflexivity | repeat constructor | reflexivity].
  - apply Hnone. repeat constructor.
Defined.

(** ** The destination file *)

(** C8, as the code has it: on success the destination holds the complete
    body of the first tier that delivers; on failure the file system is as
    it was before the call when every tier failed before the file was
    created (no response, a status other than 200, or [os.Create] failing);
    no other path is ever touched. *)
Theorem downloadThumbnailWithFallback_destination
    (env : Env) (videoID outputPath : string) (w w' : World) (r : option error) :
  downloadThumbnailWithFallback env videoID outputPath w = (r, w') ->
  (r = None ->
   exists pre quality post,
     qualities = (pre ++ quality :: post)%list
     /\ Forall (fun q => tier_ok env videoID q outputPath = false) pre
     /\ tier_ok env videoID quality outputPath = true
     /\ files w' !! outputPath = Some (tier_body env videoID quality))
  /\ (r <> None ->
      Forall (fun q => tier_fails_early env videoID q outputPath = true) qualities ->
      files w' = files w)
  /\ (forall path, path <> outputPath -> files w' !! path = files w !! path).
Proof.
  unfold downloadThumbnailWithFallback. intros Hrun.
  destruct (first_tier_ok env videoID outputPath qualities)
    as [Hall|(pre & quality & post & Hsplit & Hpre & Hok)].
  - destruct (fallback_loop_exhausted env videoID outputPath qualities w Hall)
      as (w1 & Hrun1 & _ & Hearly & Hothers).
    rewrite Hrun1 in Hrun. injection Hrun as <- <-.
    split; [discriminate|]. split; [intros _; exact Hearly | exact Hothers].
  - destruct (fallback_loop_first_success env videoID outputPath pre post quality w Hpre Hok)
      as (w1 & Hrun1 & _ & Hfile & Hothers).
    rewrite Hsplit, Hrun1 in Hrun. injection Hrun as <- <-.
    split; [intros _; exists pre, quality, post; auto|].
    split; [congruence | exact Hothers].
Qed.

Lemma downloadThumbnailWithFallback_destination_witness :
  (exists pre quality post,
      qualities = (pre ++ quality :: post)%list
      /\ Forall (fun q => tier_ok only_default "Kf5-HWJPTIE" q "out/day-1.png" = false) pre
      /\ tier_ok only_default "Kf5-HWJPTIE" quality "out/day-1.png" = true
      /\ files (snd (downloadThumbnailWithFallback only_default "Kf5-HWJPTIE"
                       "out/day-1.png" empty_world)) !! "out/day-1.png"
         = Some (tier_body only_default "Kf5-HWJPTIE" quality))
  /\ files (snd (downloadThumbnailWithFallback offline "Kf5-HWJPTIE" "out/day-1.png"
                   empty_world)) = files empty_world.
Proof.
  split.
  - apply (downloadThumbnailWithFallback_destination only_default "Kf5-HWJPTIE"
             "out/day-1.png" empty_world _ _ (surjective_pairing _)).
    reflexivity.
  - apply (downloadThumbnailWithFallback_destination offline "Kf5-HWJPTIE"
             "out/day-1.png" empty_world _ _ (surjective_pairing _)).
    + discriminate.
    + repeat constructor.
Defined.

(** The claim as written fails: when the body of every tier breaks off
    after four bytes, the fetch fails and the destination, which did not
    exist, holds those four bytes. *)
Lemma partial_thumbnail_is_left :
  files empty_world !! "out/day-1.png" = None
  /\ fst (downloadThumbnailWithFallback broken_copies "Kf5-HWJPTIE" "out/day-1.png" empty_world)
     = Some (errorString "failed to download thumbnail for video ID: Kf5-HWJPTIE")
  /\ files (snd (downloadThumbnailWithFallback broken_copies "Kf5-HWJPTIE" "out/day-1.png"
                   empty_world)) !! "out/day-1.png" = Some "JPEG".
Proof.
  split; [reflexivity|]. split; [reflexivity|].
  vm_compute. reflexivity.
Qed.

(** ** Thumbnail first, browser otherwise *)

Lemma renderer_calls_requested (w w' : World) (videoID : string) (qs : list string) :
  trace w' = (trace w ++ requested videoID qs)%list ->
  renderer_calls w' = renderer_calls w.
Proof.
  unfold renderer_calls. intros ->.
  rewrite List.filter_app, List.length_app.
  replace (List.filter _ (requested videoID qs)) with (@nil Event); [cbn; lia|].
  induction qs as [|q qs IH]; [reflexivity | exact IH].
Qed.

Lemma downloadThumbnailWithFallback_calls
    (env : Env) (videoID outputPath : string) (w w' : World) (r : option error) :
  downloadThumbnailWithFallback env videoID outputPath w = (r, w') ->
  renderer_calls w' = renderer_calls w.
Proof.
  unfold downloadThumbnailWithFallback. intros Hrun.
  destruct (first_tier_ok env videoID outputPath qualities)
    as [Hall|(pre & quality & post & Hsplit & Hpre & Hok)].
  - destruct (fallback_loop_exhausted env videoID outputPath qualities w Hall)
      as (w1 & Hrun1 & Htrace & _).
    rewrite Hrun1 in Hrun. injection Hrun as _ <-.
    exact (renderer_calls_requested _ _ _ _ Htrace).
  - destruct (fallback_loop_first_success env videoID outputPath pre post quality w Hpre Hok)
      as (w1 & Hrun1 & Htrace & _).
    rewrite Hsplit, Hrun1 in Hrun. injection Hrun as _ <-.
    exact (renderer_calls_requested _ _ _ _ Htrace).
Qed.

Lemma renderer_calls_launch (w w' : World) (after : list Event) :
  trace w' = (trace w ++ LaunchBrowser :: after)%list ->
  Forall (fun e => e <> LaunchBrowser) after ->
  renderer_calls w' = S (renderer_calls w).
Proof.
  unfold renderer_calls. intros -> Hafter.
  rewrite List.filter_app, List.length_app. cbn [List.filter].
  replace (List.filter _ after) with (@nil Event); [cbn; lia|].
  induction Hafter as [|e after He _ IH]; [reflexivity|].
  cbn [List.filter]. destruct e; [exact IH | congruence | exact IH].
Qed.

Lemma captureRegularScreenshot_calls
    (env : Env) (url filename : string) (config : ScreenshotConfig)
    (w w' : World) (r : option error) :
  captureRegularScreenshot env url filename config w = (r, w') ->
  renderer_calls w' = S (renderer_calls w).
Proof.
  unfold captureRegularScreenshot, WaitForPageLoad, step. run_M.
  repeat match goal with
         | |- context [browser_error env url ?s] =>
             destruct (browser_error env url s); run_M
         | |- context [write_error env ?path] =>
             destruct (write_error env path); run_M
         | |- context [write_left env ?path] =>
             destruct (write_left env path); run_M
         end;
    intros [= <- <-];
    first [ apply (renderer_calls_launch _ _ []); [reflexivity | constructor]
          | apply (renderer_calls_launch _ _ [NavigateTo url]); cbn [trace];
            [now rewrite <- app_assoc | repeat constructor; discriminate] ].
Qed.

(** C2: when the URL is a YouTube URL, the identifier is extracted and the
    thumbnail ladder succeeds, [CaptureScreenshot] returns success and
    the browser is not launched; in every other case (another URL, no
    identifier, or the ladder failed) it launches the browser, once, and
    returns what [captureRegularScreenshot] returns. *)
Theorem CaptureScreenshot_routing
    (env : Env) (url filename : string) (config : ScreenshotConfig) (w : World) :
  (forall videoID w',
      isYouTubeURL url = true ->
      extractYouTubeVideoID url = inl videoID ->
      downloadThumbnailWithFallback env videoID
        (filepath_Join env (OutputDir config) filename) w = (None, w') ->
      CaptureScreenshot env url filename config w = (None, w')
      /\ renderer_calls w' = renderer_calls w)
  /\ (forall videoID e w',
      isYouTubeURL url = true ->
      extractYouTubeVideoID url = inl videoID ->
      downloadThumbnailWithFallback env videoID
        (filepath_Join env (OutputDir config) filename) w = (Some e, w') ->
      CaptureScreenshot env url filename config w
      = captureRegularScreenshot env url filename config w'
      /\ renderer_calls (snd (CaptureScreenshot env url filename config w))
         = S (renderer_calls w))
  /\ (isYouTubeURL url = false \/ (exists e, extractYouTubeVideoID url = inr e) ->
      CaptureScreenshot env url filename config w
      = captureRegularScreenshot env url filename config w
      /\ renderer_calls (snd (CaptureScreenshot env url filename config w))
         = S (renderer_calls w)).
Proof.
  split; [|split].
  - intros videoID w' Hyt Hid Hrun. unfold CaptureScreenshot. run_M.
    rewrite Hyt, Hid. run_M. rewrite Hrun. split; [reflexivity|].
    exact (downloadThumbnailWithFallback_calls _ _ _ _ _ _ Hrun).
  - intros videoID e w' Hyt Hid Hrun.
    assert (Heq : CaptureScreenshot env url filename config w
                  = captureRegularScreenshot env url filename config w').
    { unfold CaptureScreenshot. run_M. rewrite Hyt, Hid. run_M. now rewrite Hrun. }
    split; [exact Heq|]. rewrite Heq.
    rewrite (captureRegularScreenshot_calls env url filename config w' _ _
               (surjective_pairing _)).
    f_equal. exact (downloadThumbnailWithFallback_calls _ _ _ _ _ _ Hrun).
  - intros Hother.
    assert (Heq : CaptureScreenshot env url filename config w
                  = captureRegularScreenshot env url filename config w).
    { unfold CaptureScreenshot. run_M.
      destruct Hother as [Hyt|[e He]].
      - now rewrite Hyt.
      - rewrite He. now destruct (isYouTubeURL url). }
    split; [exact Heq|]. rewrite Heq.
    exact (captureRegularScreenshot_calls env url filename config w _ _
             (surjective_pairing _)).
Qed.

Lemma CaptureScreenshot_routing_witness :
  (exists w',
      CaptureScreenshot only_default "https://youtu.be/Kf5-HWJPTIE" "day-1.png"
        NewDefaultConfig empty_world = (None, w')
      /\ renderer_calls w' = 0%nat)
  /\ renderer_calls
       (snd (CaptureScreenshot offline "https://youtu.be/Kf5-HWJPTIE" "day-1.png"
               NewDefaultConfig empty_world)) = 1%nat
  /\ CaptureScreenshot only_default "https://example.com/article" "day-2.png"
       NewDefaultConfig empty_world
     = captureRegularScreenshot only_default "https://example.com/article" "day-2.png"
         NewDefaultConfig empty_world.
Proof.
  destruct (CaptureScreenshot_routing only_default "https://youtu.be/Kf5-HWJPTIE"
              "day-1.png" NewDefaultConfig empty_world) as (Hthumbnail & _ & _).
  destruct (CaptureScreenshot_routing offline "https://youtu.be/Kf5-HWJPTIE"
              "day-1.png" NewDefaultConfig empty_world) as (_ & Hfallback & _).
  destruct (CaptureScreenshot_routing only_default "https://example.com/article"
              "day-2.png" NewDefaultConfig empty_world) as (_ & _ & Hgeneric).
  split; [|split].
  - eexists. apply (Hthumbnail "Kf5-HWJPTIE"); [reflexivity | reflexivity |].
    lazy. reflexivity.
  - eapply (Hfallback "Kf5-HWJPTIE"); [reflexivity | reflexivity |].
    lazy. reflexivity.
  - apply Hgeneric. left. reflexivity.
Defined.

(** * Further properties of the code *)

(** ** Messages and their patterns *)

Lemma ToLower_app (a b : string) :
  GoStrings.ToLower (a ++ b) = GoStrings.ToLower a ++ GoStrings.ToLower b.
Proof.
  induction a as [|c a IH]; rewrite ?append_nil, ?append_cons; cbn [GoStrings.ToLower];
    [reflexivity | now rewrite append_cons, IH].
Qed.

Lemma Contains_app_l (pre s p : string) :
  GoStrings.Contains s p = true -> GoStrings.Contains (pre ++ s) p = true.
Proof.
  intros Hs. induction pre as [|c pre IH]; [exact Hs|].
  rewrite append_cons. cbn [GoStrings.Contains]. rewrite IH. apply orb_true_r.
Qed.

Lemma mentions_app_l (patterns : list string) (pre msg : string) :
  existsb (GoStrings.Contains (GoStrings.ToLower msg)) patterns = true ->
  existsb (GoStrings.Contains (GoStrings.ToLower (pre ++ msg))) patterns = true.
Proof.
  rewrite !existsb_exists. intros (p & Hin & Hp). exists p. split; [assumption|].
  rewrite ToLower_app. now apply Contains_app_l.
Qed.

Lemma mentions_incl (ps qs : list string) (err : error) :
  (forall p, In p ps -> In p qs) ->
  mentions ps err = true -> mentions qs err = true.
Proof.
  intros Hincl. unfold mentions. rewrite !existsb_exists.
  intros (p & Hin & Hp). exists p. auto.
Qed.

Lemma categorizeError_timeout (err : error) :
  categorizeError err = "timeout"
  <-> mentions ["timeout"; "context deadline exceeded"] err = true.
Proof.
  rewrite categorizeError_refines_rules.
  unfold category_rules. cbn [first_match trigger category].
  destruct (mentions ["timeout"; "context deadline exceeded"] err); [tauto|].
  split; [|discriminate].
  repeat match goal with |- context [if ?c then _ else _] => destruct c end;
    discriminate.
Qed.

Lemma categorizeError_connection (err : error) :
  categorizeError err = "connection_error" ->
  mentions ["connection refused"; "connection reset"] err = true.
Proof.
  rewrite categorizeError_refines_rules.
  unfold category_rules. cbn [first_match trigger category].
  destruct (mentions ["connection refused"; "connection reset"] err); [tauto|].
  repeat match goal with |- context [if ?c then _ else _] => destruct c end;
    discriminate.
Qed.

Lemma categorizeError_network (err : error) :
  categorizeError err = "network_error" -> is_net_Error err = true.
Proof.
  rewrite categorizeError_refines_rules.
  unfold category_rules. cbn [first_match trigger category].
  destruct (is_net_Error err); [tauto|].
  repeat match goal with |- context [if ?c then _ else _] => destruct c end;
    discriminate.
Qed.

(** X1: an error that has not been classified yet and whose category is
    timeout or connection_error is retryable as it is, and it is retryable
    once classified: for these two categories both branches of
    [IsRetryableError] agree. *)
Theorem IsRetryableError_raw_agrees
    (err : error) (now : Z) (url : string) (day : Z) :
  is_raw err = true ->
  categorizeError err = "timeout" \/ categorizeError err = "connection_error" ->
  IsRetryableError err = true
  /\ IsRetryableError (screenshotError (NewScreenshotError now url day err)) = true.
Proof.
  intros Hraw Hcat. split.
  - assert (Hpat : mentions retryablePatterns err = true).
    { destruct Hcat as [Hcat|Hcat];
        [apply categorizeError_timeout in Hcat | apply categorizeError_connection in Hcat];
        revert Hcat; apply mentions_incl; intros p; unfold retryablePatterns;
        cbn [In]; tauto. }
    destruct err; [exact Hpat | exact Hpat | discriminate].
  - apply IsRetryableError_classified. cbn [NewScreenshotError ErrorType].
    unfold retryable_categories. destruct Hcat as [-> | ->]; cbn; tauto.
Qed.

Lemma IsRetryableError_raw_agrees_witness :
  IsRetryableError (errorString "read tcp 10.0.0.1:443: connection reset by peer") = true
  /\ IsRetryableError
       (screenshotError
          (NewScreenshotError 0 "https://example.com" 1
             (errorString "read tcp 10.0.0.1:443: connection reset by peer"))) = true.
Proof.
  apply IsRetryableError_raw_agrees; [reflexivity | right; reflexivity].
Defined.

(** X2: classifying an error again keeps every pattern of its message: a
    timeout stays a timeout; but the classified error is no [net.Error], so
    its category is never network_error, whatever it was before. *)
Theorem NewScreenshotError_again (err : error) (now : Z) (url : string) (day : Z) :
  (forall patterns,
      mentions patterns err = true ->
      mentions patterns (screenshotError (NewScreenshotError now url day err)) = true)
  /\ (categorizeError err = "timeout" ->
      categorizeError (screenshotError (NewScreenshotError now url day err)) = "timeout")
  /\ categorizeError (screenshotError (NewScreenshotError now url day err))
     <> "network_error".
Proof.
  assert (Hkeep : forall patterns,
      mentions patterns err = true ->
      mentions patterns (screenshotError (NewScreenshotError now url day err)) = true).
  { intros patterns Hm. unfold mentions in *.
    cbn [Error NewScreenshotError]. unfold ScreenshotError_Error.
    cbn [Day ErrorType URL Message].
    rewrite <- !append_assoc. now apply mentions_app_l. }
  split; [exact Hkeep|]. split.
  - rewrite !categorizeError_timeout. apply Hkeep.
  - intros Hnet. now apply categorizeError_network in Hnet.
Qed.

Lemma NewScreenshotError_again_witness :
  categorizeError
    (screenshotError
       (NewScreenshotError 0 "https://example.com" 7
          (errorString "navigation failed: context deadline exceeded"))) = "timeout".
Proof.
  apply NewScreenshotError_again. reflexivity.
Defined.

Lemma mentions_cons (p : string) (ps : list string) (err : error) :
  mentions (p :: ps) err = mentions [p] err || mentions ps err.
Proof.
  unfold mentions. cbn [existsb]. now rewrite orb_false_r.
Qed.

(** X3: what classification can add.  An error that is not retryable as it
    is becomes retryable by classification in two cases only: it is a
    [net.Error] that reaches the network_error rule, or its message
    mentions 500 (a server_error, which the raw patterns do not list). *)
Theorem IsRetryableError_gained_by_classification
    (err : error) (now : Z) (url : string) (day : Z) :
  is_raw err = true ->
  IsRetryableError err = false ->
  IsRetryableError (screenshotError (NewScreenshotError now url day err)) = true ->
  categorizeError err = "network_error"
  \/ (categorizeError err = "server_error" /\ mentions ["500"] err = true).
Proof.
  intros Hraw Hno Hyes.
  assert (Hpat : mentions retryablePatterns err = false).
  { destruct err; [exact Hno | exact Hno | discriminate]. }
  apply IsRetryableError_classified in Hyes.
  cbn [NewScreenshotError ErrorType] in Hyes.
  unfold retryable_categories in Hyes. cbn [In] in Hyes.
  assert (Hsub : forall ps, (forall p, In p ps -> In p retryablePatterns) ->
                            mentions ps err = false).
  { intros ps Hincl. destruct (mentions ps err) eqn:E; [|reflexivity].
    apply (mentions_incl _ _ _ Hincl) in E. congruence. }
  destruct Hyes as [Hc|[Hc|[Hc|[Hc|[]]]]]; symmetry in Hc.
  - apply categorizeError_timeout in Hc.
    rewrite Hsub in Hc; [discriminate|].
    unfold retryablePatterns. cbn [In]. tauto.
  - right. split; [exact Hc|].
    rewrite categorizeError_refines_rules in Hc.
    unfold category_rules in Hc. cbn [first_match trigger category] in Hc.
    repeat match type of Hc with
           | (if ?c then _ else _) = _ => destruct c eqn:?; try discriminate Hc
           end.
    match goal with
    | Hs : mentions ["500"; "502"; "503"] err = true |- _ =>
        rewrite mentions_cons in Hs; rewrite (Hsub ["502"; "503"]) in Hs;
          [now rewrite orb_false_r in Hs|]
    end.
    unfold retryablePatterns. cbn [In]. tauto.
  - left. exact Hc.
  - apply categorizeError_connection in Hc.
    rewrite Hsub in Hc; [discriminate|].
    unfold retryablePatterns. cbn [In]. tauto.
Qed.

Lemma IsRetryableError_gained_by_classification_witness :
  categorizeError (netError "unexpected EOF") = "network_error"
  \/ (categorizeError (netError "unexpected EOF") = "server_error"
      /\ mentions ["500"] (netError "unexpected EOF") = true).
Proof.
  apply (IsRetryableError_gained_by_classification
           (netError "unexpected EOF") 0 "https://example.com" 1);
    reflexivity.
Defined.

(** ** The delays of the default configuration *)

Lemma trunc_integer (q : Q) (n : Z) : (q == inject_Z n)%Q -> float64.trunc q = n.
Proof.
  destruct q as [a d]. unfold Qeq, float64.trunc. cbn. intros Heq.
  rewrite Z.mul_1_r in Heq. subst a. apply Z.quot_mul. lia.
Qed.

Lemma to_int_integer `{C : float64.Conversion} (q : Q) (n : Z) :
  (q == inject_Z n)%Q ->
  float64.min_int64 <= n <= float64.max_int64 ->
  float64.to_int (float64.Fin q) = n.
Proof.
  intros Hq Hn. unfold float64.to_int. rewrite (trunc_integer q n Hq).
  destruct (Z.leb_spec float64.min_int64 n); [|lia].
  destruct (Z.leb_spec n float64.max_int64); [reflexivity|lia].
Qed.

Lemma to_int_overflow `{C : float64.Conversion} (q : Q) (n : Z) :
  (q == inject_Z n)%Q ->
  float64.max_int64 < n ->
  float64.to_int (float64.Fin q) = float64.unrepresentable (float64.Fin q).
Proof.
  intros Hq Hn. unfold float64.to_int. rewrite (trunc_integer q n Hq).
  destruct (Z.leb_spec n float64.max_int64); [lia|].
  now rewrite andb_false_r.
Qed.

(** The product that [GetDelay] converts, for the default configuration. *)
Lemma default_product (attempt : Z) :
  0 <= attempt ->
  exists q,
    float64.mul (float64.of_int (InitialDelay NewDefaultRetryConfig))
      (backoff_loop (BackoffFactor NewDefaultRetryConfig) (Z.to_nat attempt)
         (float64.Fin 1)) = float64.Fin q
    /\ (q == inject_Z (2 ^ attempt * Second))%Q.
Proof.
  intros Hattempt. cbn [InitialDelay BackoffFactor NewDefaultRetryConfig].
  destruct (backoff_loop_Fin 2 (Z.to_nat attempt) 1) as (m & -> & Hm).
  rewrite Z2Nat.id in Hm by exact Hattempt.
  eexists. split; [reflexivity|].
  rewrite Qred_correct, Hm. change (1 * Second) with Second.
  rewrite (inject_Z_mult (2 ^ attempt) Second), (Zpower_Qpower 2 attempt Hattempt).
  change (inject_Z 2) with 2%Q. ring.
Qed.

(** X4: with the default configuration the delays are 1s, 2s, 4s, 8s, 16s
    and then 30s: attempt [n] waits [min (2^n seconds, 30 seconds)], on every
    platform, for each attempt up to 33. *)
Theorem GetDelay_default_schedule `{C : float64.Conversion} (attempt : Z) :
  0 <= attempt <= 33 ->
  GetDelay NewDefaultRetryConfig attempt = Z.min (2 ^ attempt * Second) (30 * Second).
Proof.
  intros [Hlo Hhi]. unfold GetDelay.
  destruct (default_product attempt Hlo) as (q & -> & Hq).
  assert (Hpow : 0 < 2 ^ attempt <= 2 ^ 33).
  { split; [apply Z.pow_pos_nonneg; lia | apply Z.pow_le_mono_r; lia]. }
  rewrite (to_int_integer q _ Hq).
  - cbn [MaxDelay NewDefaultRetryConfig].
    destruct (Z.gtb_spec (2 ^ attempt * Second) (30 * Second)); lia.
  - unfold float64.min_int64, float64.max_int64, Second.
    change (2 ^ 33) with 8589934592 in Hpow.
    change (2 ^ 63) with 9223372036854775808. lia.
Qed.

Lemma GetDelay_default_schedule_witness :
  GetDelay NewDefaultRetryConfig 3 = Z.min (2 ^ 3 * Second) (30 * Second).
Proof.
  apply GetDelay_default_schedule. lia.
Defined.

(** X5: from attempt 34 on the product of the default configuration no
    longer fits a [time.Duration]; with the conversion of the amd64 port
    the delay is then the smallest 64-bit integer, a negative duration that
    the comparison with [MaxDelay] lets through. *)
Theorem GetDelay_default_overflow (attempt : Z) :
  34 <= attempt ->
  @GetDelay float64.amd64 NewDefaultRetryConfig attempt = float64.min_int64
  /\ @GetDelay float64.amd64 NewDefaultRetryConfig attempt < 0.
Proof.
  intros Hattempt.
  assert (Heq : @GetDelay float64.amd64 NewDefaultRetryConfig attempt
                = float64.min_int64).
  { unfold GetDelay.
    destruct (default_product attempt ltac:(lia)) as (q & -> & Hq).
    assert (Hpow : 2 ^ 34 <= 2 ^ attempt) by (apply Z.pow_le_mono_r; lia).
    rewrite (to_int_overflow q _ Hq).
    - reflexivity.
    - unfold float64.max_int64, Second.
      change (2 ^ 34) with 17179869184 in Hpow.
      change (2 ^ 63) with 9223372036854775808. lia. }
  split; [exact Heq | rewrite Heq; reflexivity].
Qed.

Lemma GetDelay_default_overflow_witness :
  @GetDelay float64.amd64 NewDefaultRetryConfig 40 = float64.min_int64
  /\ @GetDelay float64.amd64 NewDefaultRetryConfig 40 < 0.
Proof.
  apply GetDelay_default_overflow. lia.
Defined.

(** X6: an attempt number that is zero or negative runs the loop not at
    all: the delay is the initial delay, clamped to [MaxDelay], whatever the
    back-off factor is (for an initial delay that a float64 holds exactly). *)
Theorem GetDelay_no_backoff `{C : float64.Conversion}
    (rc : RetryConfig) (attempt : Z) :
  attempt <= 0 ->
  - 2 ^ 53 <= InitialDelay rc <= 2 ^ 53 ->
  GetDelay rc attempt = Z.min (InitialDelay rc) (MaxDelay rc).
Proof.
  intros Hattempt Hrange. unfold GetDelay.
  replace (Z.to_nat attempt) with 0%nat by lia.
  cbn [backoff_loop]. unfold float64.of_int, float64.mul.
  rewrite (to_int_integer _ (InitialDelay rc)).
  - destruct (Z.gtb_spec (InitialDelay rc) (MaxDelay rc)); lia.
  - rewrite Qred_correct. ring.
  - unfold float64.min_int64, float64.max_int64.
    change (2 ^ 53) with 9007199254740992 in Hrange.
    change (2 ^ 63) with 9223372036854775808. lia.
Qed.

Lemma GetDelay_no_backoff_witness :
  GetDelay {| MaxRetries := 3; InitialDelay := 5 * Second;
              BackoffFactor := float64.NaN; MaxDelay := 2 * Second;
              RetryableErrors := [] |} (-1)
  = Z.min (5 * Second) (2 * Second).
Proof.
  apply (GetDelay_no_backoff
           {| MaxRetries := 3; InitialDelay := 5 * Second;
              BackoffFactor := float64.NaN; MaxDelay := 2 * Second;
              RetryableErrors := [] |} (-1)).
  - lia.
  - cbn [InitialDelay]. unfold Second. lia.
Defined.

(** ** The browser path, step by step *)

Ltac browser_steps env url :=
  repeat match goal with
         | H : browser_error env url ?s = _ |- context [browser_error env url ?s] =>
             rewrite H; run_M
         end.

(** X7: when a step of the browser fails and every step before it went well,
    [captureRegularScreenshot] returns that step's message under the
    prefix of the step (the three waits under two prefixes), writes no file,
    and has asked the page to navigate only if the viewport and the user
    agent were set. *)
Theorem captureRegularScreenshot_first_failure
    (env : Env) (url filename : string) (config : ScreenshotConfig) (w : World)
    (s : Stage) (msg : string) :
  Forall (fun s' => browser_error env url s' = None) (stages_before s) ->
  browser_error env url s = Some msg ->
  captureRegularScreenshot env url filename config w
  = (Some (stage_failure s msg),
     {| files := files w;
        trace := (trace w ++ LaunchBrowser ::
                    (if reaches_navigation s then [NavigateTo url] else []))%list |}).
Proof.
  intros Hbefore Hfail.
  unfold stages_before, stage_order in Hbefore.
  destruct s; cbn [stage_index firstn] in Hbefore;
    rewrite ?Forall_cons in Hbefore; destruct_and?;
    unfold captureRegularScreenshot, WaitForPageLoad, step; run_M;
    browser_steps env url;
    cbn [stage_failure reaches_navigation Error]; unfold wrap;
    rewrite <- ?app_assoc; reflexivity.
Qed.

Lemma captureRegularScreenshot_first_failure_witness :
  captureRegularScreenshot page_never_settles "https://example.com/article" "day-2.png"
    NewDefaultConfig empty_world
  = (Some (errorString
             "failed waiting for page load: failed waiting for content stability: context deadline exceeded"),
     {| files := files empty_world;
        trace := [LaunchBrowser; NavigateTo "https://example.com/article"] |}).
Proof.
  apply (captureRegularScreenshot_first_failure page_never_settles
           "https://example.com/article" "day-2.png" NewDefaultConfig empty_world
           WaitStable "context deadline exceeded").
  - repeat constructor.
  - reflexivity.
Defined.

(** What a run of [captureRegularScreenshot] can be: the browser is
    launched, the page possibly asked to navigate; no path but the
    destination is touched; the result is nil and the picture is at the
    destination, or an error whose message starts with "failed ". *)
Lemma captureRegularScreenshot_run
    (env : Env) (url filename : string) (config : ScreenshotConfig) (w : World) :
  exists r added fs,
    captureRegularScreenshot env url filename config w
    = (r, {| files := fs; trace := (trace w ++ LaunchBrowser :: added)%list |})
    /\ (forall other,
          other <> filepath_Join env (OutputDir config) filename ->
          fs !! other = files w !! other)
    /\ (r = None ->
        fs = <[filepath_Join env (OutputDir config) filename
               := browser_png env url config]> (files w))
    /\ (added = [] \/ added = [NavigateTo url])
    /\ match r with
       | None => True
       | Some e => exists msg, e = errorString ("failed " ++ msg)
       end.
Proof.
  unfold captureRegularScreenshot, WaitForPageLoad, step, wrap. run_M.
  repeat match goal with
         | |- context [browser_error env url ?s] =>
             destruct (browser_error env url s); run_M
         | |- context [write_error env ?path] =>
             destruct (write_error env path); run_M
         | |- context [write_left env ?path] =>
             destruct (write_left env path); run_M
         end;
    rewrite <- ?app_assoc; cbn [app Error];
    first [ eexists (Some _), _, _; split; [reflexivity|]
          | eexists None, _, _; split; [reflexivity|] ];
    (split; [intros other Hother; now rewrite ?lookup_insert_ne by congruence|]);
    (split; [first [discriminate | reflexivity]|]);
    (split; [auto|]);
    try exact I; eexists; rewrite ?append_cons; reflexivity.
Qed.

(** X8: when no step of the browser fails, the outcome is decided by
    [os.WriteFile] alone.  When it succeeds the PNG of the page is stored at
    [filepath.Join(config.OutputDir, filename)] and the result is nil.  When
    it fails its error is returned under the prefix "failed to write
    screenshot file", and the file at that path is as it was (it could not
    be opened) or holds the first bytes of the PNG.  No other path is
    touched, and the browser was launched and asked for the page once. *)
Theorem captureRegularScreenshot_completes
    (env : Env) (url filename : string) (config : ScreenshotConfig) (w : World) :
  Forall (fun s => browser_error env url s = None) stage_order ->
  captureRegularScreenshot env url filename config w
  = let path := filepath_Join env (OutputDir config) filename in
    let png := browser_png env url config in
    let visited := (trace w ++ [LaunchBrowser; NavigateTo url])%list in
    match write_error env path with
    | Some msg =>
        (Some (errorString ("failed to write screenshot file: " ++ msg)),
         {| files := match write_left env path with
                     | Some n => <[path := substring 0 n png]> (files w)
                     | None => files w
                     end;
            trace := visited |})
    | None =>
        (None, {| files := <[path := png]> (files w); trace := visited |})
    end.
Proof.
  intros Hall. unfold stage_order in Hall.
  rewrite ?Forall_cons in Hall; destruct_and?.
  unfold captureRegularScreenshot, WaitForPageLoad, step; run_M.
  browser_steps env url. cbv zeta.
  destruct (write_error env _); run_M; [destruct (write_left env _); run_M|];
    rewrite <- ?app_assoc; reflexivity.
Qed.

Lemma captureRegularScreenshot_completes_witness :
  captureRegularScreenshot offline "https://example.com/article" "day-2.png"
    NewDefaultConfig empty_world
  = (None,
     {| files := <["./day-2.png" := "PNG"]> (files empty_world);
        trace := [LaunchBrowser; NavigateTo "https://example.com/article"] |})
  /\ captureRegularScreenshot full_volume "https://example.com/article" "day-2.png"
       NewDefaultConfig empty_world
     = (Some (errorString
                "failed to write screenshot file: write ./day-2.png: no space left on device"),
        {| files := <["./day-2.png" := "PN"]> (files empty_world);
           trace := [LaunchBrowser; NavigateTo "https://example.com/article"] |}).
Proof.
  split.
  - apply (captureRegularScreenshot_completes offline "https://example.com/article"
             "day-2.png" NewDefaultConfig empty_world).
    repeat constructor.
  - apply (captureRegularScreenshot_completes full_volume "https://example.com/article"
             "day-2.png" NewDefaultConfig empty_world).
    repeat constructor.
Defined.

(** ** [CaptureScreenshot] as a whole *)

(** What a run of the thumbnail ladder can be. *)
Lemma downloadThumbnailWithFallback_run
    (env : Env) (videoID outputPath : string) (w : World) :
  exists r w' qs post,
    downloadThumbnailWithFallback env videoID outputPath w = (r, w')
    /\ qualities = (qs ++ post)%list
    /\ trace w' = (trace w ++ requested videoID qs)%list
    /\ (forall path, path <> outputPath -> files w' !! path = files w !! path)
    /\ (r = None ->
        exists quality,
          In quality qualities
          /\ files w' !! outputPath = Some (tier_body env videoID quality)).
Proof.
  unfold downloadThumbnailWithFallback.
  destruct (first_tier_ok env videoID outputPath qualities)
    as [Hall|(pre & quality & post & Hsplit & Hpre & Hok)].
  - destruct (fallback_loop_exhausted env videoID outputPath qualities w Hall)
      as (w1 & Hrun1 & Htrace & _ & Hothers).
    exists (Some (errorString ("failed to download thumbnail for video ID: " ++ videoID))),
           w1, qualities, [].
    rewrite app_nil_r. repeat split; try assumption. discriminate.
  - destruct (fallback_loop_first_success env videoID outputPath pre post quality w Hpre Hok)
      as (w1 & Hrun1 & Htrace & Hfile & Hothers).
    exists None, w1, (pre ++ [quality])%list, post.
    rewrite Hsplit at 1. rewrite <- app_assoc. cbn [app].
    repeat split; try assumption.
    intros _. exists quality. split; [|assumption].
    rewrite Hsplit. apply in_or_app. right. now left.
Qed.

(** How [CaptureScreenshot] is made of its two parts. *)
Lemma CaptureScreenshot_shape
    (env : Env) (url filename : string) (config : ScreenshotConfig) (w : World) :
  CaptureScreenshot env url filename config w
  = captureRegularScreenshot env url filename config w
  \/ exists videoID,
       isYouTubeURL url = true
       /\ extractYouTubeVideoID url = inl videoID
       /\ forall r1 w1,
            downloadThumbnailWithFallback env videoID
              (filepath_Join env (OutputDir config) filename) w = (r1, w1) ->
            CaptureScreenshot env url filename config w
            = match r1 with
              | None => (None, w1)
              | Some _ => captureRegularScreenshot env url filename config w1
              end.
Proof.
  unfold CaptureScreenshot. run_M.
  destruct (isYouTubeURL url); [|now left].
  destruct (extractYouTubeVideoID url) as [videoID|e]; [|now left].
  right. exists videoID. split; [reflexivity|]. split; [reflexivity|].
  intros r1 w1 ->. now destruct r1.
Qed.

(** X9: [CaptureScreenshot] touches one path only,
    [filepath.Join(config.OutputDir, filename)]; when it returns nil the file
    there is the PNG of the page or, for a YouTube URL with an identifier,
    the body of one of the four thumbnails of that identifier. *)
Theorem CaptureScreenshot_destination
    (env : Env) (url filename : string) (config : ScreenshotConfig)
    (w w' : World) (r : option error) :
  CaptureScreenshot env url filename config w = (r, w') ->
  let path := filepath_Join env (OutputDir config) filename in
  (forall other, other <> path -> files w' !! other = files w !! other)
  /\ (r = None ->
      files w' !! path = Some (browser_png env url config)
      \/ exists videoID quality,
           isYouTubeURL url = true
           /\ extractYouTubeVideoID url = inl videoID
           /\ In quality qualities
           /\ files w' !! path = Some (tier_body env videoID quality)).
Proof.
  intros Hrun. cbv zeta.
  remember (filepath_Join env (OutputDir config) filename) as path eqn:Hpath.
  assert (Hbrowser : forall w1,
             (forall other, other <> path -> files w1 !! other = files w !! other) ->
             CaptureScreenshot env url filename config w
             = captureRegularScreenshot env url filename config w1 ->
             (forall other, other <> path -> files w' !! other = files w !! other)
             /\ (r = None -> files w' !! path = Some (browser_png env url config))).
  { intros w1 Hw1 Heq. rewrite Heq in Hrun.
    destruct (captureRegularScreenshot_run env url filename config w1)
      as (r1 & added & fs & Hrun1 & Hkept & Hdone & _ & _).
    rewrite <- Hpath in Hkept, Hdone.
    rewrite Hrun1 in Hrun. injection Hrun as <- <-. cbn [files]. split.
    - intros other Hother. rewrite <- (Hw1 other Hother). now apply Hkept.
    - intros ->. rewrite (Hdone eq_refl). apply lookup_insert_eq. }
  destruct (CaptureScreenshot_shape env url filename config w)
    as [Hplain|(videoID & Hyt & Hid & Hshape)]; rewrite <- ?Hpath in *.
  - destruct (Hbrowser w (fun _ _ => eq_refl) Hplain) as [Hothers Hfile].
    split; [exact Hothers | intros Hr; left; auto].
  - destruct (downloadThumbnailWithFallback_run env videoID path w)
      as (r1 & w1 & qs & post & Hrun1 & _ & _ & Hothers1 & Hfile1).
    specialize (Hshape r1 w1 Hrun1). destruct r1 as [e|].
    + destruct (Hbrowser w1 Hothers1 Hshape) as [Hothers Hfile].
      split; [exact Hothers | intros Hr; left; auto].
    + rewrite Hshape in Hrun. injection Hrun as <- <-.
      split; [exact Hothers1|]. intros _. right.
      destruct (Hfile1 eq_refl) as (quality & Hin & Hfile).
      exists videoID, quality. auto.
Qed.

Lemma CaptureScreenshot_destination_witness :
  files (snd (CaptureScreenshot only_default "https://youtu.be/Kf5-HWJPTIE"
                "day-1.png" NewDefaultConfig empty_world))
    !! filepath_Join only_default (OutputDir NewDefaultConfig) "day-1.png"
  = Some (browser_png only_default "https://youtu.be/Kf5-HWJPTIE" NewDefaultConfig)
  \/ exists videoID quality,
       isYouTubeURL "https://youtu.be/Kf5-HWJPTIE" = true
       /\ extractYouTubeVideoID "https://youtu.be/Kf5-HWJPTIE" = inl videoID
       /\ In quality qualities
       /\ files (snd (CaptureScreenshot only_default "https://youtu.be/Kf5-HWJPTIE"
                        "day-1.png" NewDefaultConfig empty_world))
            !! filepath_Join only_default (OutputDir NewDefaultConfig) "day-1.png"
          = Some (tier_body only_default videoID quality).
Proof.
  destruct (CaptureScreenshot_destination only_default "https://youtu.be/Kf5-HWJPTIE"
              "day-1.png" NewDefaultConfig empty_world _ _ (surjective_pairing _))
    as [_ Hfile].
  apply Hfile. vm_compute. reflexivity.
Defined.

(** X10: what [CaptureScreenshot] asks of the outside.  It adds to the trace
    requests for thumbnails of the identifier in the URL, in the order of
    the qualities, then at most one launch of the browser and one
    navigation to the URL itself; for a URL that is not a YouTube URL it
    makes no HTTP request at all. *)
Theorem CaptureScreenshot_trace
    (env : Env) (url filename : string) (config : ScreenshotConfig)
    (w w' : World) (r : option error) :
  CaptureScreenshot env url filename config w = (r, w') ->
  exists thumbnails browser,
    trace w' = (trace w ++ thumbnails ++ browser)%list
    /\ (thumbnails = []
        \/ exists videoID qs post,
             isYouTubeURL url = true
             /\ extractYouTubeVideoID url = inl videoID
             /\ qualities = (qs ++ post)%list
             /\ thumbnails = requested videoID qs)
    /\ (isYouTubeURL url = false -> thumbnails = [])
    /\ (browser = [] \/ browser = [LaunchBrowser]
        \/ browser = [LaunchBrowser; NavigateTo url]).
Proof.
  intros Hrun.
  destruct (CaptureScreenshot_shape env url filename config w)
    as [Hplain|(videoID & Hyt & Hid & Hshape)].
  - rewrite Hplain in Hrun.
    destruct (captureRegularScreenshot_run env url filename config w)
      as (r1 & added & fs & Hrun1 & _ & _ & Hadded & _).
    rewrite Hrun1 in Hrun. injection Hrun as <- <-. cbn [trace].
    exists [], (LaunchBrowser :: added). cbn [app].
    repeat split; [now left | destruct Hadded as [-> | ->]; auto].
  - destruct (downloadThumbnailWithFallback_run env videoID
                (filepath_Join env (OutputDir config) filename) w)
      as (r1 & w1 & qs & post & Hrun1 & Hsplit & Htrace1 & _ & _).
    rewrite (Hshape r1 w1 Hrun1) in Hrun.
    assert (Hthumbs : requested videoID qs = []
                      \/ exists videoID0 qs0 post0,
                           isYouTubeURL url = true
                           /\ extractYouTubeVideoID url = inl videoID0
                           /\ qualities = (qs0 ++ post0)%list
                           /\ requested videoID qs = requested videoID0 qs0).
    { right. exists videoID, qs, post. auto. }
    destruct r1 as [e|].
    + destruct (captureRegularScreenshot_run env url filename config w1)
        as (r2 & added & fs & Hrun2 & _ & _ & Hadded & _).
      rewrite Hrun2 in Hrun. injection Hrun as <- <-. cbn [trace].
      exists (requested videoID qs), (LaunchBrowser :: added).
      rewrite Htrace1, <- app_assoc.
      repeat split; [exact Hthumbs | congruence
                     | destruct Hadded as [-> | ->]; auto].
    + injection Hrun as <- <-.
      exists (requested videoID qs), [].
      rewrite app_nil_r.
      repeat split; [exact Htrace1 | exact Hthumbs | congruence | now left].
Qed.

Lemma CaptureScreenshot_trace_witness :
  exists thumbnails browser,
    trace (snd (CaptureScreenshot offline "https://youtu.be/Kf5-HWJPTIE" "day-1.png"
                  NewDefaultConfig empty_world))
    = (trace empty_world ++ thumbnails ++ browser)%list
    /\ (thumbnails = []
        \/ exists videoID qs post,
             isYouTubeURL "https://youtu.be/Kf5-HWJPTIE" = true
             /\ extractYouTubeVideoID "https://youtu.be/Kf5-HWJPTIE" = inl videoID
             /\ qualities = (qs ++ post)%list
             /\ thumbnails = requested videoID qs)
    /\ (isYouTubeURL "https://youtu.be/Kf5-HWJPTIE" = false -> thumbnails = [])
    /\ (browser = [] \/ browser = [LaunchBrowser]
        \/ browser = [LaunchBrowser; NavigateTo "https://youtu.be/Kf5-HWJPTIE"]).
Proof.
  apply (CaptureScreenshot_trace offline "https://youtu.be/Kf5-HWJPTIE" "day-1.png"
           NewDefaultConfig empty_world _ _ (surjective_pairing _)).
Defined.

(** X11: the errors of [CaptureScreenshot].  A failure of the thumbnails is
    never reported: every error comes from the browser path, its message
    starts with "failed ", and, being built by [fmt.Errorf], it is no
    [net.Error]: [categorizeError] never files it under network_error. *)
Theorem CaptureScreenshot_errors
    (env : Env) (url filename : string) (config : ScreenshotConfig)
    (w w' : World) (e : error) :
  CaptureScreenshot env url filename config w = (Some e, w') ->
  (exists w1, captureRegularScreenshot env url filename config w1 = (Some e, w'))
  /\ (exists msg, e = errorString ("failed " ++ msg))
  /\ categorizeError e <> "network_error".
Proof.
  intros Hrun.
  assert (Hfrom : exists w1,
             captureRegularScreenshot env url filename config w1 = (Some e, w')).
  { destruct (CaptureScreenshot_shape env url filename config w)
      as [Hplain|(videoID & Hyt & Hid & Hshape)].
    - exists w. now rewrite <- Hplain.
    - destruct (downloadThumbnailWithFallback env videoID
                  (filepath_Join env (OutputDir config) filename) w)
        as [r1 w1] eqn:Hrun1.
      rewrite (Hshape r1 w1 eq_refl) in Hrun.
      destruct r1; [now exists w1 | discriminate]. }
  split; [exact Hfrom|].
  destruct Hfrom as (w1 & Hrun1).
  destruct (captureRegularScreenshot_run env url filename config w1)
    as (r2 & added & fs & Hrun2 & _ & _ & _ & Hmsg).
  rewrite Hrun2 in Hrun1. injection Hrun1 as -> _.
  split; [exact Hmsg|].
  destruct Hmsg as (msg & ->). intros Hnet.
  now apply categorizeError_network in Hnet.
Qed.

Lemma CaptureScreenshot_errors_witness :
  (exists msg,
      errorString
        "failed waiting for page load: failed waiting for content stability: context deadline exceeded"
      = errorString ("failed " ++ msg))
  /\ categorizeError
       (errorString
          "failed waiting for page load: failed waiting for content stability: context deadline exceeded")
     <> "network_error".
Proof.
  apply (CaptureScreenshot_errors page_never_settles "https://youtu.be/Kf5-HWJPTIE"
           "day-1.png" NewDefaultConfig empty_world
           (snd (CaptureScreenshot page_never_settles "https://youtu.be/Kf5-HWJPTIE"
                   "day-1.png" NewDefaultConfig empty_world))).
  vm_compute. reflexivity.
Defined.

(** ** File names *)

Lemma append_inv_head (a x y : string) : a ++ x = a ++ y -> x = y.
Proof.
  induction a as [|c a IH]; rewrite ?append_nil, ?append_cons; [auto|].
  intros [= Heq]. auto.
Qed.

Lemma length_append (a b : string) :
  String.length (a ++ b) = (String.length a + String.length b)%nat.
Proof.
  induction a as [|c a IH]; rewrite ?append_nil, ?append_cons; cbn [String.length];
    [reflexivity | now rewrite IH].
Qed.

Lemma substring_append_tail (a b : string) :
  substring (String.length a) (String.length b) (a ++ b) = b.
Proof.
  induction a as [|c a IH]; rewrite ?append_nil, ?append_cons; cbn [String.length substring];
    [apply substring_all | exact IH].
Qed.

Lemma substring_append_head (a b : string) :
  substring 0 (String.length a) (a ++ b) = a.
Proof.
  induction a as [|c a IH]; rewrite ?append_nil, ?append_cons; cbn [String.length substring].
  - now destruct b.
  - now rewrite IH.
Qed.

Lemma HasSuffix_app (a b : string) : HasSuffix (a ++ b) b = true.
Proof.
  unfold HasSuffix. rewrite length_append.
  replace (String.length a + String.length b - String.length b)%nat
    with (String.length a) by lia.
  rewrite substring_append_tail, String.eqb_refl, andb_true_r.
  apply Nat.leb_le. lia.
Qed.

Lemma TrimSuffix_app (a b : string) : TrimSuffix (a ++ b) b = a.
Proof.
  unfold TrimSuffix. rewrite HasSuffix_app, length_append.
  replace (String.length a + String.length b - String.length b)%nat
    with (String.length a) by lia.
  apply substring_append_head.
Qed.

Lemma rev_onto_app (a b acc : string) :
  rev_onto (a ++ b) acc = rev_onto b (rev_onto a acc).
Proof.
  revert acc. induction a as [|c a IH]; intros acc;
    rewrite ?append_nil, ?append_cons; cbn [rev_onto]; [reflexivity | apply IH].
Qed.

(** A name that ends in [.png] has that extension. *)
Lemma Ext_png (a : string) : Ext (a ++ ".png") = ".png".
Proof.
  unfold Ext, rev_string. rewrite rev_onto_app. reflexivity.
Qed.

(** *** Decimal numerals *)

Lemma string_of_uint_digits (d : Decimal.uint) :
  all_of is_decimal (NilEmpty.string_of_uint d) = true.
Proof.
  induction d; cbn [NilEmpty.string_of_uint all_of]; rewrite ?IHd; reflexivity.
Qed.

Lemma string_of_uint_nonempty (d : Decimal.uint) :
  d <> Decimal.Nil -> NilEmpty.string_of_uint d <> "".
Proof.
  destruct d; cbn; congruence.
Qed.

(** [%d] prints a numeral: digits, at least one, after an optional minus
    sign. *)
Lemma Itoa_numeral (n : Z) :
  exists sign digits,
    GoStrings.Itoa n = sign ++ digits
    /\ (sign = "" \/ sign = "-")
    /\ all_of is_decimal digits = true
    /\ digits <> "".
Proof.
  unfold GoStrings.Itoa. destruct n as [|p|p]; cbn [Z.to_int].
  - exists "", "0". repeat split; [now left | discriminate].
  - exists "", (NilEmpty.string_of_uint (Pos.to_uint p)).
    pose proof (DecimalPos.Unsigned.to_uint_nonnil p) as Hnil.
    repeat split.
    + cbn [NilZero.string_of_int NilZero.string_of_uint].
      destruct (Pos.to_uint p); [congruence|reflexivity..].
    + now left.
    + apply string_of_uint_digits.
    + now apply string_of_uint_nonempty.
  - exists "-", (NilEmpty.string_of_uint (Pos.to_uint p)).
    pose proof (DecimalPos.Unsigned.to_uint_nonnil p) as Hnil.
    repeat split.
    + cbn [NilZero.string_of_int NilZero.string_of_uint].
      destruct (Pos.to_uint p); [congruence|reflexivity..].
    + now right.
    + apply string_of_uint_digits.
    + now apply string_of_uint_nonempty.
Qed.

Lemma Itoa_inj (n n' : Z) : GoStrings.Itoa n = GoStrings.Itoa n' -> n = n'.
Proof.
  unfold GoStrings.Itoa. intros Heq.
  apply DecimalZ.to_int_inj.
  assert (Hnn : forall z, Z.to_int z <> Decimal.Pos Decimal.Nil
                          /\ Z.to_int z <> Decimal.Neg Decimal.Nil).
  { intros [|p|p]; cbn [Z.to_int]; split; try discriminate;
      intros [= Hp]; now apply (DecimalPos.Unsigned.to_uint_nonnil p). }
  destruct (Hnn n) as [Hp Hm]. destruct (Hnn n') as [Hp' Hm'].
  pose proof (NilZero.isi _ Hp Hm) as H1.
  pose proof (NilZero.isi _ Hp' Hm') as H2.
  rewrite Heq in H1. congruence.
Qed.

(** Where two texts that start with digits and go on with the same
    non-digit agree, the digits agree. *)
Lemma digits_app_inj (c : ascii) (a b r1 r2 : string) :
  is_decimal c = false ->
  all_of is_decimal a = true -> all_of is_decimal b = true ->
  a ++ String c r1 = b ++ String c r2 -> a = b /\ r1 = r2.
Proof.
  intros Hc. revert b.
  induction a as [|x a IH]; intros [|y b]; rewrite ?append_nil, ?append_cons;
    cbn [all_of]; intros Ha Hb Heq.
  - now injection Heq.
  - injection Heq as <- _. apply andb_true_iff in Hb as [Hy _]. congruence.
  - injection Heq as -> _. apply andb_true_iff in Ha as [Hx _]. congruence.
  - injection Heq as -> Heq.
    apply andb_true_iff in Ha as [_ Ha]. apply andb_true_iff in Hb as [_ Hb].
    destruct (IH b Ha Hb Heq) as [-> ->]. auto.
Qed.

(** The same for numerals, which may start with a minus sign. *)
Lemma Itoa_app_inj (n n' : Z) (r1 r2 : string) :
  GoStrings.Itoa n ++ String "-" r1 = GoStrings.Itoa n' ++ String "-" r2 ->
  n = n' /\ r1 = r2.
Proof.
  destruct (Itoa_numeral n) as (s & d & Hn & Hs & Hd & Hne).
  destruct (Itoa_numeral n') as (s' & d' & Hn' & Hs' & Hd' & Hne').
  intros Heq.
  assert (Hboth : GoStrings.Itoa n = GoStrings.Itoa n' /\ r1 = r2).
  { rewrite Hn, Hn' in *. clear Hn Hn'.
    destruct Hs as [-> | ->], Hs' as [-> | ->];
      repeat rewrite ?append_nil, ?append_cons in Heq;
      repeat rewrite ?append_nil, ?append_cons.
    - destruct (digits_app_inj "-" _ _ _ _ eq_refl Hd Hd' Heq) as [-> ->]. auto.
    - destruct d as [|x d]; [congruence|]. rewrite append_cons in Heq.
      injection Heq as -> _. discriminate Hd.
    - destruct d' as [|y d']; [congruence|]. rewrite append_cons in Heq.
      injection Heq as <- _. discriminate Hd'.
    - injection Heq as Heq.
      destruct (digits_app_inj "-" _ _ _ _ eq_refl Hd Hd' Heq) as [-> ->]. auto. }
  destruct Hboth as [Hitoa ->]. split; [now apply Itoa_inj | reflexivity].
Qed.

(** *** The maps of file names *)

Lemma map_fold_insert_lookup {A B : Type} (f : string -> A -> B)
    (m : gmap string A) (b : gmap string B) (k : string) :
  map_fold (fun i x acc => <[i := f i x]> acc) b m !! k
  = match m !! k with
    | Some x => Some (f k x)
    | None => b !! k
    end.
Proof.
  induction m as [|i x m Hi Hfold IH] using map_first_key_ind.
  - now rewrite map_fold_empty, lookup_empty.
  - rewrite map_fold_insert_first_key by assumption.
    destruct (decide (i = k)) as [->|Hne].
    + now rewrite !lookup_insert_eq.
    + now rewrite !lookup_insert_ne by assumption.
Qed.

Lemma GenerateSocialMediaFilenames_lookup (day : Z) (platform : string) :
  GenerateSocialMediaFilenames day !! platform
  = match PlatformConfigs !! platform with
    | Some _ =>
        Some (platform_filename ("day-" ++ GoStrings.Itoa day ++ "-screenshot") platform)
    | None => None
    end.
Proof.
  unfold GenerateSocialMediaFilenames. cbv zeta.
  rewrite (map_fold_insert_lookup (fun platform _ => platform_filename _ platform)).
  now rewrite lookup_empty.
Qed.

Lemma GenerateAllFilenames_lookup (day : Z) (key : string) :
  GenerateAllFilenames day !! key
  = match GenerateSocialMediaFilenames day !! key with
    | Some filename => Some filename
    | None => if String.eqb key "original" then Some (GenerateBaseFilename day) else None
    end.
Proof.
  unfold GenerateAllFilenames. cbv zeta.
  rewrite (map_fold_insert_lookup (fun _ filename => filename)).
  destruct (GenerateSocialMediaFilenames day !! key); [reflexivity|].
  destruct (String.eqb_spec key "original") as [->|Hne].
  - apply lookup_singleton_eq.
  - apply lookup_singleton_ne. congruence.
Qed.

Lemma PlatformConfigs_keys (platform : string) :
  is_Some (PlatformConfigs !! platform) <-> platform = "twitter" \/ platform = "linkedin".
Proof.
  unfold PlatformConfigs. split.
  - intros [config Hc].
    destruct (decide (platform = "twitter")) as [|Ht]; [now left|].
    destruct (decide (platform = "linkedin")) as [|Hl]; [now right|].
    rewrite lookup_insert_ne, lookup_singleton_ne in Hc by congruence.
    discriminate.
  - intros [-> | ->]; eexists; reflexivity.
Qed.

(** The name of every format of every day. *)
Lemma GenerateAllFilenames_names (day : Z) (key name : string) :
  GenerateAllFilenames day !! key = Some name ->
  exists tail,
    name = "day-" ++ GoStrings.Itoa day ++ "-screenshot" ++ tail
    /\ ((key = "original" /\ tail = ".png")
        \/ (key = "twitter" /\ tail = "-twitter.png")
        \/ (key = "linkedin" /\ tail = "-linkedin.png")).
Proof.
  rewrite GenerateAllFilenames_lookup, GenerateSocialMediaFilenames_lookup.
  destruct (PlatformConfigs !! key) as [config|] eqn:Hkey.
  - intros [= <-]. unfold platform_filename. rewrite !append_assoc.
    destruct (proj1 (PlatformConfigs_keys key) (mk_is_Some _ _ Hkey)) as [-> | ->];
      eexists; (split; [reflexivity|]); auto.
  - destruct (String.eqb_spec key "original") as [->|]; [|discriminate].
    intros [= <-]. exists ".png". unfold GenerateBaseFilename. auto.
Qed.

(** X12: the file names.  [GenerateAllFilenames] names three files for a
    day: the original, under the name of [GenerateBaseFilename], and one
    for each platform, under the name of [GenerateSocialMediaFilenames].
    No two (day, format) pairs share a name: neither two formats of one
    day nor any two files of different days, negative day numbers
    included. *)
Theorem GenerateAllFilenames_distinct (day : Z) :
  (forall key,
      is_Some (GenerateAllFilenames day !! key)
      <-> key = "original" \/ key = "twitter" \/ key = "linkedin")
  /\ GenerateAllFilenames day !! "original" = Some (GenerateBaseFilename day)
  /\ (forall platform,
        is_Some (PlatformConfigs !! platform) ->
        GenerateAllFilenames day !! platform
        = GenerateSocialMediaFilenames day !! platform)
  /\ (forall day' key key' name,
        GenerateAllFilenames day !! key = Some name ->
        GenerateAllFilenames day' !! key' = Some name ->
        day = day' /\ key = key').
Proof.
  split; [|split; [|split]].
  - intros key. split.
    + intros [name Hname].
      destruct (GenerateAllFilenames_names day key name Hname) as (tail & _ & Hkey).
      tauto.
    + rewrite GenerateAllFilenames_lookup, GenerateSocialMediaFilenames_lookup.
      intros [-> | [-> | ->]]; eexists; reflexivity.
  - now rewrite GenerateAllFilenames_lookup, GenerateSocialMediaFilenames_lookup.
  - intros platform [config Hconfig].
    rewrite GenerateAllFilenames_lookup, GenerateSocialMediaFilenames_lookup, Hconfig.
    reflexivity.
  - intros day' key key' name H1 H2.
    destruct (GenerateAllFilenames_names day key name H1) as (t1 & -> & Ht1).
    destruct (GenerateAllFilenames_names day' key' _ H2) as (t2 & Heq & Ht2).
    apply append_inv_head in Heq.
    change ("-screenshot" ++ t1) with (String "-" ("screenshot" ++ t1)) in Heq.
    change ("-screenshot" ++ t2) with (String "-" ("screenshot" ++ t2)) in Heq.
    destruct (Itoa_app_inj _ _ _ _ Heq) as [-> Htail].
    apply append_inv_head in Htail. split; [reflexivity|].
    destruct Ht1 as [[-> ->]|[[-> ->]|[-> ->]]], Ht2 as [[-> ->]|[[-> ->]|[-> ->]]];
      try reflexivity; discriminate.
Qed.

Lemma GenerateAllFilenames_distinct_witness :
  GenerateAllFilenames (-3) !! "original" = Some "day--3-screenshot.png"
  /\ (-3) = (-3) /\ "twitter" = "twitter".
Proof.
  destruct (GenerateAllFilenames_distinct (-3)) as (_ & Horiginal & _ & Hdistinct).
  split; [exact Horiginal|].
  apply (Hdistinct (-3) "twitter" "twitter" "day--3-screenshot-twitter.png");
    vm_compute; reflexivity.
Defined.

(** ** The social media copies *)

(** The size of the smart crop of a picture with pixels that starts at the
    origin. *)
Lemma SmartCrop_Bounds `{C : float64.Conversion}
    (img : Image) (W H targetWidth targetHeight : Z) :
  Bounds img = image.Rect 0 0 W H ->
  0 < W < 2 ^ 31 -> 0 < H < 2 ^ 31 ->
  0 < targetWidth < 2 ^ 31 -> 0 < targetHeight < 2 ^ 31 ->
  Bounds (SmartCrop img targetWidth targetHeight)
  = image.Rect 0 0 targetWidth targetHeight.
Proof.
  intros Hb HW HH Htw Hth.
  unfold SmartCrop. rewrite Sharpen_Bounds.
  rewrite Hb, Dx_Rect, Dy_Rect by lia.
  destruct (ratio_Fin targetWidth targetHeight) as (tr & -> & Htr & _); [lia..|].
  destruct (ratio_Fin W H) as (sr & -> & Hsr & _); [lia..|].
  rewrite (div_by_ratio W targetWidth targetHeight tr) by (lia || assumption).
  rewrite (mul_by_ratio H targetWidth targetHeight tr) by (lia || assumption).
  rewrite Fill_Bounds; [now rewrite Dx_Rect, Dy_Rect by lia | lia | lia |].
  unfold float64.gtb.
  destruct (float64.ltb (float64.Fin tr) (float64.Fin sr)) eqn:Hwider.
  - apply ltb_Fin in Hwider. rewrite Htr, Hsr in Hwider.
    apply (ratio_lt targetWidth targetHeight W H) in Hwider; [|lia..].
    pose proof (Qscaled_lower W targetHeight targetWidth H ltac:(lia) ltac:(lia)) as Hnew.
    match goal with |- context [if ?c then _ else _] => destruct c end.
    + apply (Crop_Solid img W H); (assumption || lia).
    + apply (Resize_Solid img W H); (assumption || lia).
  - destruct (float64.ltb (float64.Fin sr) (float64.Fin tr)) eqn:Htaller.
    + apply ltb_Fin in Htaller. rewrite Htr, Hsr in Htaller.
      apply (ratio_lt W H targetWidth targetHeight) in Htaller; [|lia..].
      pose proof (Qscaled_lower H targetWidth targetHeight W ltac:(lia) ltac:(lia)) as Hnew.
      match goal with |- context [if ?c then _ else _] => destruct c end.
      * apply (Crop_Solid img W H); (assumption || lia).
      * apply (Resize_Solid img W H); (assumption || lia).
    + apply (Resize_Solid img W H); (assumption || lia).
Qed.

Lemma rev_onto_spec (a acc : string) : rev_onto a acc = rev_string a ++ acc.
Proof.
  unfold rev_string. revert acc.
  induction a as [|c a IH]; intros acc; cbn [rev_onto]; [now rewrite append_nil|].
  rewrite (IH (String c acc)), (IH (String c "")).
  now rewrite append_assoc, append_cons, append_nil.
Qed.

Lemma rev_onto_involutive (a : string) : rev_string (rev_string a) = a.
Proof.
  induction a as [|c a IH]; [reflexivity|].
  change (rev_string (String c a)) with (rev_onto a (String c "")).
  rewrite rev_onto_spec. unfold rev_string at 1. rewrite rev_onto_app.
  cbn [rev_onto]. f_equal. exact IH.
Qed.

Lemma PlatformConfigs_sizes (platform : string) (config : SocialMediaPlatform) :
  PlatformConfigs !! platform = Some config ->
  0 < Width config < 2 ^ 31 /\ 0 < Height config < 2 ^ 31.
Proof.
  intros Hc.
  destruct (proj1 (PlatformConfigs_keys platform) (mk_is_Some _ _ Hc)) as [-> | ->];
    vm_compute in Hc; injection Hc as <-; cbn [Width Height]; lia.
Qed.

Section save_loop.

Context `{C : float64.Conversion}.
Variables (env : Env) (io : ImageIO) (img : Image) (baseDir nameWithoutExt : string).

(** The path of the copy for [platform]. *)
#[local] Abbreviation path_of platform :=
  (filepath_Join env baseDir (platform_filename nameWithoutExt platform)).

(** The copies of the platforms of a list, saved in order. *)
#[local] Abbreviation copies saved done :=
  (foldl (fun acc pc =>
            <[path_of pc.1 := Picture (SmartCrop img (Width pc.2) (Height pc.2))]> acc)
         saved done).

(** A run of the loop saves the copies of a first part of the platforms, in
    order, and stops at the first that cannot be saved; the save that failed
    may leave an unfinished file. *)
Lemma save_loop_run (platforms : list (string * SocialMediaPlatform)) (saved : Pictures) :
  exists done rest r saved',
    platforms = (done ++ rest)%list
    /\ save_loop env io img baseDir nameWithoutExt platforms saved = (r, saved')
    /\ Forall (fun pc => save_error io (path_of pc.1) = None) done
    /\ match r with
       | None => rest = [] /\ saved' = copies saved done
       | Some e =>
           exists platform config msg rest',
             rest = (platform, config) :: rest'
             /\ save_error io (path_of platform) = Some msg
             /\ e = errorString ("failed to save " ++ platform
                                 ++ " optimized image: " ++ msg)
             /\ saved' = (if save_leaves io (path_of platform)
                          then <[path_of platform := Unfinished]> (copies saved done)
                          else copies saved done)
       end.
Proof.
  revert saved. induction platforms as [|[platform config] platforms IH]; intros saved.
  - exists [], [], None, saved. repeat split. constructor.
  - cbn [save_loop].
    destruct (save_error io (path_of platform)) as [msg|] eqn:Hsave.
    + exists [], ((platform, config) :: platforms),
        (Some (wrap ("failed to save " ++ platform ++ " optimized image") msg)).
      eexists. split; [reflexivity|]. split; [reflexivity|]. split; [constructor|].
      exists platform, config, msg, platforms.
      split; [reflexivity|]. split; [assumption|]. split; [|reflexivity].
      unfold wrap. now rewrite !append_assoc.
    + destruct (IH (<[path_of platform
                      := Picture (SmartCrop img (Width config) (Height config))]> saved))
        as (done & rest & r & saved' & -> & Hrun & Hdone & Hr).
      exists ((platform, config) :: done), rest, r, saved'.
      split; [reflexivity|]. split; [exact Hrun|]. split; [now constructor|].
      exact Hr.
Qed.

Lemma foldl_save_other (done : list (string * SocialMediaPlatform)) (saved : Pictures)
    (path : string) :
  (forall pc, In pc done -> path <> path_of pc.1) ->
  copies saved done !! path = saved !! path.
Proof.
  revert saved. induction done as [|pc done IH]; intros saved Hother; [reflexivity|].
  cbn [foldl]. rewrite IH by (intros; apply Hother; now right).
  apply lookup_insert_ne. intros Heq. apply (Hother pc); [now left | congruence].
Qed.

Lemma foldl_save_lookup (done : list (string * SocialMediaPlatform)) (saved : Pictures)
    (platform : string) (config : SocialMediaPlatform) :
  NoDup (map (fun pc => path_of pc.1) done) ->
  In (platform, config) done ->
  copies saved done !! path_of platform
  = Some (Picture (SmartCrop img (Width config) (Height config))).
Proof.
  revert saved. induction done as [|pc done IH]; intros saved Hnd Hin; [destruct Hin|].
  cbn [map] in Hnd. apply NoDup_cons in Hnd as [Hfresh Hnd].
  cbn [foldl]. destruct Hin as [->|Hin].
  - rewrite foldl_save_other.
    + apply lookup_insert_eq.
    + intros pc Hpc Heq. apply Hfresh. cbn [fst]. rewrite Heq.
      apply list_elem_of_In, in_map_iff. exists pc. auto.
  - now apply IH.
Qed.

(** A path that the saved copies changed holds the copy of one of them. *)
Lemma foldl_save_changed (done : list (string * SocialMediaPlatform)) (saved : Pictures)
    (path : string) :
  copies saved done !! path <> saved !! path ->
  exists pc,
    In pc done /\ path = path_of pc.1
    /\ copies saved done !! path
       = Some (Picture (SmartCrop img (Width pc.2) (Height pc.2))).
Proof.
  induction done as [|pc done IH] using rev_ind; [intros Hchanged; now contradiction Hchanged|].
  rewrite foldl_app. cbn [foldl].
  destruct (decide (path = path_of pc.1)) as [->|Hne].
  - intros _. exists pc. split; [apply in_or_app; right; now left|].
    split; [reflexivity | apply lookup_insert_eq].
  - rewrite lookup_insert_ne by congruence. intros Hchanged.
    destruct (IH Hchanged) as (pc' & Hin & Hpath & Hfile).
    exists pc'. split; [apply in_or_app; now left | auto].
Qed.

(** The paths that a run of the loop changed: each is the path of the copy of
    a platform, holding that copy where the save works and an unfinished
    file where it fails. *)
Lemma save_loop_changed (platforms : list (string * SocialMediaPlatform))
    (saved saved' : Pictures) (r : option error) (path : string) :
  save_loop env io img baseDir nameWithoutExt platforms saved = (r, saved') ->
  saved' !! path <> saved !! path ->
  exists platform config,
    In (platform, config) platforms
    /\ path = path_of platform
    /\ match save_error io path with
       | None =>
           saved' !! path = Some (Picture (SmartCrop img (Width config) (Height config)))
       | Some _ => saved' !! path = Some Unfinished
       end.
Proof.
  intros Hrun Hchanged.
  destruct (save_loop_run platforms saved)
    as (done & rest & r1 & saved1 & Hsplit & Hrun1 & Hdone & Hr).
  rewrite Hrun1 in Hrun. injection Hrun as -> ->.
  assert (Hsaved : saved' !! path = copies saved done !! path ->
                   exists platform config,
                     In (platform, config) platforms
                     /\ path = path_of platform
                     /\ match save_error io path with
                        | None =>
                            saved' !! path
                            = Some (Picture (SmartCrop img (Width config) (Height config)))
                        | Some _ => saved' !! path = Some Unfinished
                        end).
  { intros Heq. rewrite Heq in Hchanged.
    destruct (foldl_save_changed done saved path Hchanged)
      as ([platform config] & Hpc & Hpath & Hfile).
    cbn [fst snd] in Hpath, Hfile.
    exists platform, config.
    split; [rewrite Hsplit; apply in_or_app; now left|]. split; [exact Hpath|].
    rewrite Forall_forall in Hdone.
    pose proof (Hdone (platform, config) ltac:(now apply list_elem_of_In)) as Hok.
    cbn [fst] in Hok. rewrite <- Hpath in Hok. rewrite Hok. congruence. }
  destruct r as [e|].
  - destruct Hr as (platform & config & msg & rest' & -> & Hfail & _ & Hsaved1).
    destruct (save_leaves io (path_of platform)); [|apply Hsaved; now rewrite Hsaved1].
    destruct (decide (path = path_of platform)) as [Hpath|Hpath].
    + exists platform, config.
      split; [rewrite Hsplit; apply in_or_app; right; now left|]. split; [exact Hpath|].
      subst path. rewrite Hfail, Hsaved1. apply lookup_insert_eq.
    + apply Hsaved. rewrite Hsaved1. now rewrite lookup_insert_ne by congruence.
  - destruct Hr as [_ Hsaved1]. apply Hsaved. now rewrite Hsaved1.
Qed.

End save_loop.

(** What [range PlatformConfigs] visits, in whatever order. *)
Lemma range_order_In (order : list (string * SocialMediaPlatform))
    (platform : string) (config : SocialMediaPlatform) :
  range_order order ->
  In (platform, config) order <-> PlatformConfigs !! platform = Some config.
Proof.
  unfold range_order. intros Horder. rewrite <- list_elem_of_In, Horder.
  apply elem_of_map_to_list.
Qed.

(** Paths that tell the platforms apart are visited once each. *)
Lemma range_order_paths (order : list (string * SocialMediaPlatform))
    (path_of : string -> string) :
  range_order order ->
  (forall a b,
      is_Some (PlatformConfigs !! a) -> is_Some (PlatformConfigs !! b) ->
      path_of a = path_of b -> a = b) ->
  NoDup (map (fun pc => path_of pc.1) order).
Proof.
  intros Horder Hinj.
  rewrite <- (map_map fst path_of order).
  apply (NoDup_fmap_2_strong path_of).
  - assert (Hkey : forall a, a ∈ order.*1 -> is_Some (PlatformConfigs !! a)).
    { intros a Ha. apply list_elem_of_fmap in Ha as ([a' config] & -> & Hin).
      apply list_elem_of_In, (range_order_In order a' config Horder) in Hin.
      cbn [fst]. eauto. }
    intros a b Ha Hb. apply Hinj; now apply Hkey.
  - unfold range_order in Horder. change (map fst order) with (order.*1).
    rewrite Horder. apply NoDup_fst_map_to_list.
Qed.

Lemma append_png_inj (a b : string) : a ++ ".png" = b ++ ".png" -> a = b.
Proof.
  intros Heq.
  assert (Hrev : rev_string (a ++ ".png") = rev_string (b ++ ".png")) by congruence.
  unfold rev_string in Hrev. rewrite !rev_onto_app in Hrev. cbn [rev_onto] in Hrev.
  injection Hrev as Hrev.
  rewrite <- (rev_onto_involutive a), <- (rev_onto_involutive b).
  unfold rev_string. now rewrite Hrev.
Qed.

Lemma platform_filename_inj (base a b : string) :
  platform_filename base a = platform_filename base b -> a = b.
Proof.
  unfold platform_filename. intros Heq.
  apply append_inv_head in Heq. rewrite !append_cons, !append_nil in Heq.
  injection Heq as Heq. now apply append_png_inj.
Qed.

(** The name that [ResizeForSocialMedia] derives from the base name of a
    day. *)
Lemma nameWithoutExt_of_day (day : Z) :
  TrimSuffix (GenerateBaseFilename day) (Ext (GenerateBaseFilename day))
  = "day-" ++ GoStrings.Itoa day ++ "-screenshot".
Proof.
  unfold GenerateBaseFilename.
  replace ("day-" ++ GoStrings.Itoa day ++ "-screenshot.png")
    with (("day-" ++ GoStrings.Itoa day ++ "-screenshot") ++ ".png")
    by (now rewrite !append_assoc).
  rewrite Ext_png. apply TrimSuffix_app.
Qed.

(** X13: the copies of a day.  Suppose the original opens, every copy can
    be saved, and [filepath.Join] gives different paths to the names that
    [GenerateSocialMediaFilenames] gives to different platforms (as it does
    for such plain file names in one directory).  Then
    [ResizeForSocialMedia] called with the base name of the day returns nil
    and has stored, for every platform and in whatever order the map was
    visited, the smart crop for the platform's size in the directory of the
    original, under the very name that [GenerateSocialMediaFilenames] gives
    for that day and platform; for an original with pixels that starts at
    the origin the copy has exactly the platform's size; no other path is
    touched. *)
Theorem ResizeForSocialMedia_copies `{C : float64.Conversion}
    (env : Env) (io : ImageIO) (order : list (string * SocialMediaPlatform))
    (originalFile : string) (day : Z) (saved : Pictures) (img : Image) :
  range_order order ->
  imaging_Open io originalFile = inl img ->
  (forall path, save_error io path = None) ->
  (forall a b name_a name_b,
      GenerateSocialMediaFilenames day !! a = Some name_a ->
      GenerateSocialMediaFilenames day !! b = Some name_b ->
      filepath_Join env (filepath_Dir io originalFile) name_a
      = filepath_Join env (filepath_Dir io originalFile) name_b ->
      a = b) ->
  exists saved',
    ResizeForSocialMedia env io order originalFile (GenerateBaseFilename day) saved
    = (None, saved')
    /\ (forall platform config,
          PlatformConfigs !! platform = Some config ->
          exists name,
            GenerateSocialMediaFilenames day !! platform = Some name
            /\ saved' !! filepath_Join env (filepath_Dir io originalFile) name
               = Some (Picture (SmartCrop img (Width config) (Height config)))
            /\ (forall W H,
                  Bounds img = image.Rect 0 0 W H ->
                  0 < W < 2 ^ 31 -> 0 < H < 2 ^ 31 ->
                  Bounds (SmartCrop img (Width config) (Height config))
                  = image.Rect 0 0 (Width config) (Height config)))
    /\ (forall path,
          (forall platform name,
              GenerateSocialMediaFilenames day !! platform = Some name ->
              path <> filepath_Join env (filepath_Dir io originalFile) name) ->
          saved' !! path = saved !! path).
Proof.
  intros Horder Hopen Hsave Hapart.
  unfold ResizeForSocialMedia. rewrite Hopen. cbv zeta.
  rewrite nameWithoutExt_of_day.
  set (base := "day-" ++ GoStrings.Itoa day ++ "-screenshot").
  set (dir := filepath_Dir io originalFile) in *.
  destruct (save_loop_run env io img dir base order saved)
    as (done & rest & r & saved' & Hsplit & Hrun & _ & Hr).
  destruct r as [e|].
  { destruct Hr as (platform & config & msg & rest' & _ & Hfail & _).
    rewrite Hsave in Hfail. discriminate. }
  destruct Hr as [-> ->]. rewrite app_nil_r in Hsplit. subst done.
  eexists. split; [exact Hrun|]. split.
  - intros platform config Hconfig.
    exists (platform_filename base platform).
    split; [now rewrite GenerateSocialMediaFilenames_lookup, Hconfig|].
    split.
    + apply (foldl_save_lookup env img dir base order saved platform config).
      * apply (range_order_paths order
                 (fun p => filepath_Join env dir (platform_filename base p)) Horder).
        intros a b [ca Ha] [cb Hb] Heq.
        apply (Hapart a b (platform_filename base a) (platform_filename base b));
          [ now rewrite GenerateSocialMediaFilenames_lookup, Ha
          | now rewrite GenerateSocialMediaFilenames_lookup, Hb
          | exact Heq ].
      * now apply range_order_In.
    + intros W H Hb HW HH.
      destruct (PlatformConfigs_sizes platform config Hconfig).
      now apply (SmartCrop_Bounds img W H).
  - intros path Hother.
    apply (foldl_save_other env img dir base order saved path).
    intros [platform config] Hin. cbn [fst].
    apply (Hother platform).
    apply (range_order_In order platform config Horder) in Hin.
    now rewrite GenerateSocialMediaFilenames_lookup, Hin.
Qed.

Lemma ResizeForSocialMedia_copies_witness :
  exists saved',
    ResizeForSocialMedia only_default healthy (map_to_list PlatformConfigs)
      "out/day-7-screenshot.png" (GenerateBaseFilename 7) ∅
    = (None, saved')
    /\ saved' !! "out/day-7-screenshot-twitter.png"
       = Some (Picture (SmartCrop (Decoded (image.Rect 0 0 1920 1080)) 1200 628))
    /\ Bounds (SmartCrop (Decoded (image.Rect 0 0 1920 1080)) 1200 628)
       = image.Rect 0 0 1200 628.
Proof.
  destruct (ResizeForSocialMedia_copies only_default healthy (map_to_list PlatformConfigs)
              "out/day-7-screenshot.png" 7 ∅ (Decoded (image.Rect 0 0 1920 1080)))
    as (saved' & Hrun & Hcopies & _).
  - unfold range_order. reflexivity.
  - reflexivity.
  - reflexivity.
  - intros a b name_a name_b Ha Hb Heq.
    rewrite GenerateSocialMediaFilenames_lookup in Ha, Hb.
    destruct (PlatformConfigs !! a) eqn:Hca; [|discriminate Ha].
    destruct (PlatformConfigs !! b) eqn:Hcb; [|discriminate Hb].
    injection Ha as <-. injection Hb as <-.
    cbn [filepath_Join only_default] in Heq.
    apply append_inv_head, append_inv_head in Heq.
    now apply platform_filename_inj in Heq.
  - exists saved'. split; [exact Hrun|].
    destruct (Hcopies "twitter" {| Name := "Twitter/X"; Width := 1200; Height := 628 |}
                eq_refl) as (name & Hname & Hfile & Hsize).
    vm_compute in Hname. injection Hname as <-.
    cbn [filepath_Dir healthy filepath_Join only_default] in Hfile.
    change ("out" ++ "/" ++ "day-7-screenshot-twitter.png")
      with "out/day-7-screenshot-twitter.png" in Hfile.
    split; [exact Hfile|].
    apply (Hsize 1920 1080); [reflexivity | lia | lia].
Defined.

(** X14: how [ResizeForSocialMedia] fails.  It returns nil exactly when the
    original opens and the copy of every platform can be saved, whatever
    the order of the visit; an error names the original that did not open,
    and then nothing was written, or the one platform whose copy could not
    be saved.  A failure does not undo the copies saved before it, and the
    [imaging.Save] that failed may leave its file behind: every path that
    changed is the path of the copy of a platform, and it holds that copy
    where the save worked and an unfinished file where it failed. *)
Theorem ResizeForSocialMedia_failure `{C : float64.Conversion}
    (env : Env) (io : ImageIO) (order : list (string * SocialMediaPlatform))
    (originalFile baseFilename : string) (saved saved' : Pictures) (r : option error) :
  range_order order ->
  ResizeForSocialMedia env io order originalFile baseFilename saved = (r, saved') ->
  let path_of platform :=
    filepath_Join env (filepath_Dir io originalFile)
      (platform_filename (TrimSuffix baseFilename (Ext baseFilename)) platform) in
  (r = None
   <-> (exists img, imaging_Open io originalFile = inl img)
       /\ forall platform config,
            PlatformConfigs !! platform = Some config ->
            save_error io (path_of platform) = None)
  /\ (forall e, r = Some e ->
        (exists msg,
            imaging_Open io originalFile = inr msg
            /\ e = errorString ("failed to open image " ++ originalFile ++ ": " ++ msg)
            /\ saved' = saved)
        \/ (exists platform config msg,
              PlatformConfigs !! platform = Some config
              /\ save_error io (path_of platform) = Some msg
              /\ e = errorString ("failed to save " ++ platform
                                  ++ " optimized image: " ++ msg)))
  /\ (forall path,
        saved' !! path <> saved !! path ->
        exists platform config,
          PlatformConfigs !! platform = Some config
          /\ path = path_of platform
          /\ match save_error io path with
             | None =>
                 exists img,
                   imaging_Open io originalFile = inl img
                   /\ saved' !! path
                      = Some (Picture (SmartCrop img (Width config) (Height config)))
             | Some _ => saved' !! path = Some Unfinished
             end).
Proof.
  intros Horder Hrun path_of. unfold ResizeForSocialMedia in Hrun.
  destruct (imaging_Open io originalFile) as [img|msg] eqn:Hopen.
  - cbv zeta in Hrun.
    destruct (save_loop_run env io img (filepath_Dir io originalFile)
                (TrimSuffix baseFilename (Ext baseFilename)) order saved)
      as (done & rest & r1 & saved1 & Hsplit & Hrun1 & Hdone & Hr).
    pose proof Hrun as Hloop.
    rewrite Hrun1 in Hrun. injection Hrun as <- <-.
    subst path_of. cbv beta.
    assert (Hin : forall platform config,
               In (platform, config) (done ++ rest)%list
               <-> PlatformConfigs !! platform = Some config).
    { intros platform config. rewrite <- Hsplit. now apply range_order_In. }
    split; [|split].
    + split.
      * intros ->. destruct Hr as [-> _]. split; [eauto|].
        intros platform config Hconfig. apply Hin in Hconfig.
        rewrite app_nil_r in Hconfig.
        rewrite Forall_forall in Hdone.
        apply (Hdone (platform, config)). now apply list_elem_of_In.
      * intros [_ Hall]. destruct r1 as [e|]; [|reflexivity].
        destruct Hr as (platform & config & msg & rest' & -> & Hfail & _).
        rewrite (Hall platform config) in Hfail; [discriminate|].
        apply Hin, in_or_app. right. now left.
    + intros e ->. right.
      destruct Hr as (platform & config & msg & rest' & -> & Hfail & -> & _).
      exists platform, config, msg. repeat split; [|assumption].
      apply Hin, in_or_app. right. now left.
    + intros path Hchanged.
      destruct (save_loop_changed env io img (filepath_Dir io originalFile)
                  (TrimSuffix baseFilename (Ext baseFilename)) order saved saved1 r1
                  path Hloop Hchanged)
        as (platform & config & Hpc & Hpath & Hfile).
      exists platform, config.
      split; [now apply (range_order_In order platform config Horder)|].
      split; [exact Hpath|].
      destruct (save_error io path); [exact Hfile | eauto].
  - injection Hrun as <- <-. split; [|split].
    + split; [discriminate | intros [[img Himg] _]; discriminate].
    + intros e [= <-]. left. exists msg. split; [reflexivity|]. split; [|reflexivity].
      unfold wrap. now rewrite !append_assoc.
    + intros path Hchanged. now contradiction Hchanged.
Qed.

Lemma ResizeForSocialMedia_failure_witness :
  ((exists msg,
      imaging_Open full_disk "out/day-7-screenshot.png" = inr msg
      /\ errorString
           "failed to save linkedin optimized image: write: no space left on device"
         = errorString ("failed to open image " ++ "out/day-7-screenshot.png"
                        ++ ": " ++ msg)
      /\ snd (ResizeForSocialMedia only_default full_disk (map_to_list PlatformConfigs)
                "out/day-7-screenshot.png" "day-7-screenshot.png" ∅) = ∅)
   \/ (exists platform config msg,
        PlatformConfigs !! platform = Some config
        /\ save_error full_disk
             (filepath_Join only_default
                (filepath_Dir full_disk "out/day-7-screenshot.png")
                (platform_filename
                   (TrimSuffix "day-7-screenshot.png" (Ext "day-7-screenshot.png"))
                   platform)) = Some msg
        /\ errorString
             "failed to save linkedin optimized image: write: no space left on device"
           = errorString ("failed to save " ++ platform
                          ++ " optimized image: " ++ msg)))
  /\ exists platform config,
       PlatformConfigs !! platform = Some config
       /\ "out/day-7-screenshot-linkedin.png"
          = filepath_Join only_default
              (filepath_Dir full_disk "out/day-7-screenshot.png")
              (platform_filename
                 (TrimSuffix "day-7-screenshot.png" (Ext "day-7-screenshot.png"))
                 platform)
       /\ snd (ResizeForSocialMedia only_default full_disk (map_to_list PlatformConfigs)
                 "out/day-7-screenshot.png" "day-7-screenshot.png" ∅)
            !! "out/day-7-screenshot-linkedin.png"
          = Some Unfinished.
Proof.
  destruct (ResizeForSocialMedia_failure only_default full_disk
              (map_to_list PlatformConfigs)
              "out/day-7-screenshot.png" "day-7-screenshot.png" ∅ _ _
              ltac:(unfold range_order; reflexivity) (surjective_pairing _))
    as (_ & Herror & Hchanged).
  split.
  - apply Herror. vm_compute. reflexivity.
  - destruct (Hchanged "out/day-7-screenshot-linkedin.png"
                ltac:(vm_compute; discriminate))
      as (platform & config & Hconfig & Hpath & Hfile).
    exists platform, config. split; [exact Hconfig|]. split; [exact Hpath|].
    exact Hfile.
Defined.

(** * markdown/parser.go *)

Import markdown markdown_props.

(** ** Reading a file *)

Lemma HasPrefix_app_l (s p x : string) :
  GoStrings.HasPrefix s p = true -> GoStrings.HasPrefix (s ++ x) p = true.
Proof.
  revert s. induction p as [|c p IH]; intros s Hs.
  - now destruct (s ++ x).
  - destruct s as [|d s]; [discriminate Hs|].
    rewrite append_cons. cbn [GoStrings.HasPrefix] in *.
    apply andb_true_iff in Hs as [-> Hs]. now apply IH.
Qed.

(** What a line that matches [dayHeaderRegex] looks like. *)
Lemma dayHeaderRegex_shape (line digits : string) :
  dayHeaderRegex line = Some digits ->
  digits <> ""
  /\ all_of is_decimal digits = true
  /\ exists rest, line = "## Day " ++ digits ++ rest.
Proof.
  unfold dayHeaderRegex.
  destruct (GoStrings.CutPrefix line "## Day ") as [tail|] eqn:Hcut; [|discriminate].
  apply CutPrefix_inv in Hcut. subst line.
  assert (Hlead : all_of is_decimal (leading_digits tail) = true
                  /\ exists rest, tail = leading_digits tail ++ rest).
  { induction tail as [|c tail IH]; cbn [leading_digits].
    - split; [reflexivity | now exists ""].
    - destruct (is_decimal c) eqn:Hc.
      + destruct IH as [Hall [rest Hrest]]. cbn [all_of]. rewrite Hc, Hall.
        split; [reflexivity|]. exists rest. rewrite append_cons. now f_equal.
      + split; [reflexivity|]. now exists (String c tail). }
  destruct Hlead as [Hall [rest Hrest]].
  destruct (leading_digits tail) eqn:Hd; [discriminate|].
  intros [= <-]. split; [discriminate|]. split; [assumption|].
  exists rest. now rewrite <- Hrest.
Qed.

Lemma rest_of_line_nonempty (s : string) : rest_of_line s = true -> s <> "".
Proof.
  unfold rest_of_line. intros H ->. discriminate.
Qed.

(** What [urlRegex] captures. *)
Lemma urlRegex_shape (s url : string) :
  urlRegex s = Some url ->
  s = "- URL: " ++ url
  /\ (GoStrings.HasPrefix url "http://" = true
      \/ GoStrings.HasPrefix url "https://" = true)
  /\ url <> "".
Proof.
  unfold urlRegex.
  destruct (GoStrings.CutPrefix s "- URL: ") as [u|] eqn:Hcut; [|discriminate].
  apply CutPrefix_inv in Hcut.
  destruct (GoStrings.CutPrefix u "https://") as [a|] eqn:Hs.
  - destruct (rest_of_line a); [|discriminate]. intros [= <-].
    apply CutPrefix_inv in Hs. subst u.
    split; [assumption|]. split; [right; apply HasPrefix_app | discriminate].
  - destruct (GoStrings.CutPrefix u "http://") as [a|] eqn:Hp; [|discriminate].
    destruct (rest_of_line a); [|discriminate]. intros [= <-].
    apply CutPrefix_inv in Hp. subst u.
    split; [assumption|]. split; [left; apply HasPrefix_app | discriminate].
Qed.

Lemma screenshotRegex_shape (s name : string) :
  screenshotRegex s = Some name -> s = "Screen Shot: " ++ name /\ name <> "".
Proof.
  unfold screenshotRegex.
  destruct (GoStrings.CutPrefix s "Screen Shot: ") as [n|] eqn:Hcut; [|discriminate].
  apply CutPrefix_inv in Hcut.
  destruct (rest_of_line n) eqn:Hrest; [|discriminate]. intros [= <-].
  split; [assumption | now apply rest_of_line_nonempty].
Qed.

(** *** Numbers *)

Lemma parse_digits_bounds (s : string) (n v : Z) :
  0 <= n -> parse_digits s n = inl v -> n <= v <= 2 ^ 64 - 1 \/ (s = "" /\ v = n).
Proof.
  revert n. induction s as [|c s IH]; intros n Hn; cbn [parse_digits].
  - intros [= <-]. now right.
  - unfold is_decimal, digit_value.
    destruct (48 <=? nat_of_ascii c)%nat eqn:Hlo; [|discriminate].
    destruct (nat_of_ascii c <=? 57)%nat eqn:Hhi; [|discriminate].
    apply Nat.leb_le in Hlo, Hhi. cbn [andb].
    destruct (Z.gtb_spec (10 * n + (Z.of_nat (nat_of_ascii c) - 48)) (2 ^ 64 - 1));
      [discriminate|].
    intros Hv. apply IH in Hv; [|lia]. left. destruct Hv as [Hv|[_ ->]]; lia.
Qed.

(** A run of digits that [Atoi] accepts is a day between 0 and the largest
    [int]. *)
Lemma Atoi_digits (digits : string) (day : Z) :
  digits <> "" -> all_of is_decimal digits = true ->
  Atoi digits = inl day -> 0 <= day <= float64.max_int64.
Proof.
  intros Hne Hall. destruct digits as [|c s]; [congruence|].
  cbn [all_of] in Hall. apply andb_true_iff in Hall as [Hc _].
  unfold Atoi.
  assert (Hminus : Ascii.eqb c "-" = false)
    by (destruct (Ascii.eqb_spec c "-") as [->|]; [discriminate Hc | reflexivity]).
  assert (Hplus : Ascii.eqb c "+" = false)
    by (destruct (Ascii.eqb_spec c "+") as [->|]; [discriminate Hc | reflexivity]).
  rewrite Hminus, Hplus. cbn [orb negb andb]. unfold ParseUint.
  destruct (parse_digits (String c s) 0) as [un|e] eqn:Hparse; [|discriminate].
  destruct (Z.geb_spec un (2 ^ 63)); [discriminate|]. intros [= <-].
  apply parse_digits_bounds in Hparse; [|lia].
  unfold float64.max_int64. destruct Hparse as [?|[? _]]; [lia | discriminate].
Qed.

(** *** The loop *)

Lemma Join_head (h : string) (rest : list string) (sep p : string) :
  GoStrings.HasPrefix h p = true -> GoStrings.HasPrefix (Join (h :: rest) sep) p = true.
Proof.
  intros Hh. destruct rest as [|r rest]; [exact Hh|].
  cbn [Join]. now apply HasPrefix_app_l.
Qed.

Lemma flush_inv (entries : list DayEntry) (currentEntry : option DayEntry)
    (contentBuffer : list string) :
  parse_inv entries currentEntry contentBuffer ->
  Forall entry_ok (flush entries currentEntry contentBuffer)
  /\ Forall (fun e => GoStrings.HasPrefix (Content e) "## Day " = true)
            (flush entries currentEntry contentBuffer).
Proof.
  intros (Hok & Hcontent & Hcur). unfold flush.
  destruct currentEntry as [e|]; [|auto].
  destruct (Hcur e eq_refl) as (He & header & rest & -> & Hheader).
  split; apply Forall_app; (split; [assumption|]); apply Forall_singleton.
  - exact He.
  - cbn [Content]. now apply Join_head.
Qed.

Lemma flush_days (entries : list DayEntry) (currentEntry : option DayEntry)
    (contentBuffer : list string) :
  map Day (flush entries currentEntry contentBuffer)
  = (map Day entries ++ match currentEntry with Some e => [Day e] | None => [] end)%list.
Proof.
  unfold flush. destruct currentEntry; [|now rewrite app_nil_r].
  now rewrite map_app.
Qed.

Lemma parse_loop_spec (io : IO) (lines : list string) :
  forall mf_content mf_Entries currentEntry contentBuffer c es cur buf,
    parse_loop io lines mf_content mf_Entries currentEntry contentBuffer
    = inl (c, es, cur, buf) ->
    parse_inv mf_Entries currentEntry contentBuffer ->
    parse_inv es cur buf
    /\ c = (mf_content ++ lines)%list
    /\ map Day (flush es cur buf)
       = (map Day (flush mf_Entries currentEntry contentBuffer)
          ++ omap header_day lines)%list.
Proof.
  induction lines as [|line lines IH];
    intros mf_content mf_Entries currentEntry contentBuffer c es cur buf Hrun Hinv.
  - injection Hrun as <- <- <- <-. now rewrite !app_nil_r.
  - cbn [parse_loop] in Hrun. cbn [omap list_omap]. unfold header_day at 1.
    destruct (dayHeaderRegex line) as [digits|] eqn:Hheader.
    + destruct (dayHeaderRegex_shape line digits Hheader) as (Hne & Hall & tail & Hline).
      destruct (Atoi digits) as [day|e] eqn:Hday; [|discriminate].
      apply IH in Hrun.
      * destruct Hrun as (Hinv' & -> & Hdays). split; [exact Hinv'|].
        split; [now rewrite <- app_assoc|].
        rewrite Hdays, !flush_days. cbn [Day].
        now rewrite <- !app_assoc.
      * destruct (flush_inv _ _ _ Hinv) as [Hok Hcontent].
        split; [exact Hok|]. split; [exact Hcontent|].
        intros e [= <-]. split.
        -- repeat split; cbn; try discriminate; try tauto.
           ++ apply (Atoi_digits digits day Hne Hall Hday).
           ++ apply (Atoi_digits digits day Hne Hall Hday).
        -- exists line, []. split; [reflexivity|]. rewrite Hline. apply HasPrefix_app.
    + destruct currentEntry as [e|].
      * apply IH in Hrun.
        -- destruct Hrun as (Hinv' & -> & Hdays). split; [exact Hinv'|].
           split; [now rewrite <- app_assoc|].
           rewrite Hdays, !flush_days.
           f_equal. f_equal.
           destruct (urlRegex (TrimSpace line)), (screenshotRegex (TrimSpace line));
             reflexivity.
        -- destruct Hinv as (Hok & Hcontent & Hcur).
           destruct (Hcur e eq_refl) as (He & header & rest & -> & Hheader').
           split; [exact Hok|]. split; [exact Hcontent|].
           intros e' [= <-]. split.
           ++ destruct He as (Hshot & Hurl & Hday & Herr).
              destruct (urlRegex (TrimSpace line)) as [url|] eqn:Hu;
                destruct (screenshotRegex (TrimSpace line)) as [name|] eqn:Hs;
                try (apply urlRegex_shape in Hu as (_ & Hu & _));
                try (apply screenshotRegex_shape in Hs as (_ & Hs));
                repeat split; cbn [HasScreenshot Screenshot URL Day Error];
                try tauto; try lia; try congruence.
           ++ exists header, (rest ++ [line])%list. auto.
      * apply IH in Hrun; [|exact Hinv].
        destruct Hrun as (Hinv' & -> & Hdays). split; [exact Hinv'|].
        split; [now rewrite <- app_assoc | exact Hdays].
Qed.

(** The loop fails on the first header whose number [Atoi] refuses, and
    on nothing else. *)
Lemma parse_loop_total (io : IO) (lines : list string) :
  forall mf_content mf_Entries currentEntry contentBuffer,
    Forall header_fits lines
    <-> exists result,
          parse_loop io lines mf_content mf_Entries currentEntry contentBuffer
          = inl result.
Proof.
  induction lines as [|line lines IH];
    intros mf_content mf_Entries currentEntry contentBuffer.
  - split; [eauto | constructor].
  - cbn [parse_loop]. rewrite Forall_cons. unfold header_fits at 1.
    destruct (dayHeaderRegex line) as [digits|] eqn:Hheader.
    + destruct (Atoi digits) as [day|e] eqn:Hday.
      * rewrite (IH (mf_content ++ [line])%list
                    (flush mf_Entries currentEntry contentBuffer)
                    (Some {| Day := day; Content := ""; URL := ""; Screenshot := "";
                             HasScreenshot := false; Error := "" |}) [line]).
        split; [intros [_ Hrun]; exact Hrun|]. intros Hrun. split; [|exact Hrun].
        intros digits' [= <-]. eauto.
      * split.
        -- intros [Hfits _]. destruct (Hfits digits eq_refl) as [day Hd]. congruence.
        -- intros [result Hr]. discriminate.
    + destruct currentEntry as [e|].
      * rewrite IH. split; [intros [_ Hrun]; exact Hrun|].
        intros Hrun. split; [discriminate | exact Hrun].
      * rewrite IH. split; [intros [_ Hrun]; exact Hrun|].
        intros Hrun. split; [discriminate | exact Hrun].
Qed.

Lemma parse_inv_start : parse_inv [] None [].
Proof.
  split; [constructor|]. split; [constructor|]. discriminate.
Qed.

(** A run of [ParseMarkdownFile] that returns a file. *)
Lemma ParseMarkdownFile_run (io : IO) (fs : Files) (filePath : string)
    (mf : MarkdownFile) :
  ParseMarkdownFile io fs filePath = inl mf ->
  exists data es cur buf,
    fs !! filePath = Some data
    /\ open_error io filePath = None
    /\ scan_lines data "" = (content mf, false)
    /\ parse_loop io (content mf) [] [] None [] = inl (content mf, es, cur, buf)
    /\ FilePath mf = filePath
    /\ Entries mf = flush es cur buf.
Proof.
  unfold ParseMarkdownFile.
  destruct (fs !! filePath) as [data|]; [|discriminate].
  destruct (open_error io filePath); [discriminate|].
  destruct (read_error io filePath) as [msg|].
  { cbv zeta.
    destruct (scan_lines _ "") as [lines too_long].
    destruct (parse_loop io lines [] [] None []) as [[[[c es] cur] buf]|e];
      [destruct too_long|]; discriminate. }
  cbv zeta.
  destruct (scan_lines data "") as [lines too_long] eqn:Hscan.
  destruct (parse_loop io lines [] [] None []) as [[[[c es] cur] buf]|e] eqn:Hloop;
    [|discriminate].
  destruct too_long; [discriminate|]. intros [= <-]. cbn [content FilePath Entries].
  destruct (parse_loop_spec io lines _ _ _ _ _ _ _ _ Hloop parse_inv_start)
    as (_ & Hc & _).
  cbn [app] in Hc. subst c.
  exists data, es, cur, buf. auto 10.
Qed.

(** X15: the entries of a parsed file.  Every entry that
    [ParseMarkdownFile] returns has a screenshot exactly when it names one;
    its URL is empty or starts with http:// or https://; its day is not
    negative and fits an [int]; its error is empty; and its content starts
    with its header line. *)
Theorem ParseMarkdownFile_entries (io : IO) (fs : Files) (filePath : string)
    (mf : MarkdownFile) :
  ParseMarkdownFile io fs filePath = inl mf ->
  Forall entry_ok (Entries mf)
  /\ Forall (fun e => GoStrings.HasPrefix (Content e) "## Day " = true) (Entries mf).
Proof.
  intros Hparse.
  destruct (ParseMarkdownFile_run io fs filePath mf Hparse)
    as (data & es & cur & buf & _ & _ & _ & Hloop & _ & ->).
  apply flush_inv.
  now destruct (parse_loop_spec io _ _ _ _ _ _ _ _ _ Hloop parse_inv_start).
Qed.

Lemma ParseMarkdownFile_entries_witness :
  Forall entry_ok (Entries journal_file)
  /\ Forall (fun e => GoStrings.HasPrefix (Content e) "## Day " = true)
            (Entries journal_file).
Proof.
  apply (ParseMarkdownFile_entries sound journal_disk "log.md" journal_file).
  vm_compute. reflexivity.
Defined.

(** X16: the lines and the days of a parsed file.  The file keeps the path
    it was read from and the lines of the file as [bufio.Scanner] splits
    them; it has one entry for each header line, in the order of the file,
    with the day that the header announces. *)
Theorem ParseMarkdownFile_days (io : IO) (fs : Files) (filePath : string)
    (mf : MarkdownFile) :
  ParseMarkdownFile io fs filePath = inl mf ->
  FilePath mf = filePath
  /\ (exists data, fs !! filePath = Some data /\ scan_lines data "" = (content mf, false))
  /\ map Day (Entries mf) = omap header_day (content mf).
Proof.
  intros Hparse.
  destruct (ParseMarkdownFile_run io fs filePath mf Hparse)
    as (data & es & cur & buf & Hfile & _ & Hscan & Hloop & Hpath & ->).
  split; [exact Hpath|]. split; [eauto|].
  now destruct (parse_loop_spec io _ _ _ _ _ _ _ _ _ Hloop parse_inv_start)
    as (_ & _ & ->).
Qed.

Lemma ParseMarkdownFile_days_witness :
  map Day (Entries journal_file) = omap header_day (content journal_file).
Proof.
  apply (ParseMarkdownFile_days sound journal_disk "log.md" journal_file).
  vm_compute. reflexivity.
Defined.

(** [ParseMarkdownFile] returns a file exactly when the path opens, the
    scanner reaches the end and every header number fits. *)
Lemma ParseMarkdownFile_total (io : IO) (fs : Files) (filePath : string) :
  (exists mf, ParseMarkdownFile io fs filePath = inl mf)
  <-> exists data,
        fs !! filePath = Some data
        /\ open_error io filePath = None
        /\ read_error io filePath = None
        /\ snd (scan_lines data "") = false
        /\ Forall header_fits (fst (scan_lines data "")).
Proof.
  unfold ParseMarkdownFile.
  destruct (fs !! filePath) as [data|].
  2: { split; [intros [mf Hmf]; discriminate | intros (data & Hd & _); discriminate]. }
  destruct (open_error io filePath) as [msg|].
  { split; [intros [mf Hmf]; discriminate Hmf | intros (d & _ & Hd & _); discriminate Hd]. }
  destruct (read_error io filePath) as [msg|].
  { cbv zeta. split; [|intros (d & _ & _ & Hd & _); discriminate Hd].
    intros [mf Hmf]. exfalso.
    destruct (scan_lines _ "") as [lines too_long].
    destruct (parse_loop io lines [] [] None []) as [[[[c es] cur] buf]|e];
      [destruct too_long|]; discriminate. }
  cbv zeta.
  destruct (scan_lines data "") as [lines too_long] eqn:Hscan.
  pose proof (parse_loop_total io lines [] [] None []) as Htotal.
  destruct (parse_loop io lines [] [] None []) as [[[[c es] cur] buf]|e].
  - destruct too_long.
    + split; [intros [mf Hmf]; discriminate|].
      intros (d & [= <-] & _ & _ & Hlong & _). rewrite Hscan in Hlong. discriminate.
    + split; [|eauto]. intros _. exists data. rewrite Hscan. repeat split.
      apply Htotal. eauto.
  - split; [intros [mf Hmf]; discriminate|].
    intros (d & [= <-] & _ & _ & _ & Hfits). rewrite Hscan in Hfits.
    apply Htotal in Hfits as [r Hr]. discriminate.
Qed.

(** The error that the loop over the lines returns. *)
Lemma parse_loop_error (io : IO) (lines : list string) :
  forall mf_content mf_Entries currentEntry contentBuffer e,
    parse_loop io lines mf_content mf_Entries currentEntry contentBuffer = inr e ->
    exists line cause,
      In line lines
      /\ e = errorString ("invalid day number in header " ++ Quote io line
                          ++ ": " ++ cause).
Proof.
  induction lines as [|line lines IH];
    intros mf_content mf_Entries currentEntry contentBuffer e; [discriminate|].
  cbn [parse_loop].
  assert (Hrest : forall c es cur buf,
             parse_loop io lines c es cur buf = inr e ->
             exists line0 cause,
               In line0 (line :: lines)
               /\ e = errorString ("invalid day number in header " ++ Quote io line0
                                   ++ ": " ++ cause)).
  { intros c es cur buf Hrun.
    destruct (IH c es cur buf e Hrun) as (line0 & cause & Hin & He).
    exists line0, cause. split; [now right | exact He]. }
  destruct (dayHeaderRegex line) as [digits|].
  - destruct (Atoi digits) as [day|err]; [apply Hrest|].
    intros [= <-]. exists line, (NumError_Error (Quote io) digits err).
    split; [now left | reflexivity].
  - destruct currentEntry as [entry|]; apply Hrest.
Qed.

(** X17: when [ParseMarkdownFile] succeeds.  It returns a file exactly when
    the path is there and opens, it is read to its end without an error, no
    line fills the buffer of the scanner (64 KiB), and the number of every
    header line is one that [Atoi] accepts.  And an error is one of three:
    the file did not open, a header has a number that [Atoi] refuses, or
    the file could not be read to its end. *)
Theorem ParseMarkdownFile_succeeds (io : IO) (fs : Files) (filePath : string) :
  ((exists mf, ParseMarkdownFile io fs filePath = inl mf)
   <-> exists data,
         fs !! filePath = Some data
         /\ open_error io filePath = None
         /\ read_error io filePath = None
         /\ snd (scan_lines data "") = false
         /\ Forall header_fits (fst (scan_lines data "")))
  /\ (forall e,
        ParseMarkdownFile io fs filePath = inr e ->
        (exists cause,
            e = errorString ("failed to open file " ++ filePath ++ ": " ++ cause))
        \/ (exists line cause,
              e = errorString ("invalid day number in header " ++ Quote io line
                               ++ ": " ++ cause))
        \/ (exists cause, e = errorString ("error reading file: " ++ cause))).
Proof.
  split; [apply ParseMarkdownFile_total|].
  intros e. unfold ParseMarkdownFile.
  destruct (fs !! filePath) as [data|]; [|intros [= <-]; left; eauto].
  destruct (open_error io filePath) as [msg|]; [intros [= <-]; left; eauto|].
  cbv zeta.
  destruct (scan_lines _ "") as [lines too_long].
  destruct (parse_loop io lines [] [] None []) as [[[[c es] cur] buf]|err] eqn:Hloop.
  - destruct too_long.
    + intros [= <-]. right. right. now exists "bufio.Scanner: token too long".
    + destruct (read_error io filePath) as [msg|]; [|discriminate].
      intros [= <-]. right. right. now exists msg.
  - intros [= <-]. right. left.
    destruct (parse_loop_error io lines [] [] None [] err Hloop)
      as (line & cause & _ & ->).
    eauto.
Qed.

Lemma ParseMarkdownFile_succeeds_witness :
  (exists mf, ParseMarkdownFile sound journal_disk "log.md" = inl mf)
  /\ ParseMarkdownFile directory notes_disk "notes"
     = inr (errorString "error reading file: read notes: is a directory").
Proof.
  split; [|reflexivity].
  destruct (ParseMarkdownFile_succeeds sound journal_disk "log.md") as [[_ Hfile] _].
  apply Hfile. exists journal.
  split; [reflexivity|]. split; [reflexivity|]. split; [reflexivity|].
  split; [reflexivity|].
  change (fst (scan_lines journal "")) with (content journal_file).
  repeat constructor; intros digits Hheader; vm_compute in Hheader;
    first [ discriminate Hheader
          | injection Hheader as <-; eexists; vm_compute; reflexivity ].
Defined.

(** ** Adding a screenshot reference *)

(** The inner loop finds the first line that starts a day, if there is
    one. *)
Lemma next_header_spec (lines : list string) (k : Z) :
  (exists section header rest,
      lines = (section ++ header :: rest)%list
      /\ Forall (fun l => GoStrings.HasPrefix l "## Day" = false) section
      /\ GoStrings.HasPrefix header "## Day" = true
      /\ next_header lines k (-1) = k + Z.of_nat (List.length section) - 1)
  \/ (Forall (fun l => GoStrings.HasPrefix l "## Day" = false) lines
      /\ next_header lines k (-1) = -1).
Proof.
  revert k. induction lines as [|line lines IH]; intros k.
  - right. split; [constructor | reflexivity].
  - cbn [next_header].
    destruct (GoStrings.HasPrefix line "## Day") eqn:Hline.
    + left. exists [], line, lines. cbn [app List.length].
      split; [reflexivity|]. split; [constructor|]. split; [assumption|]. lia.
    + destruct (IH (k + 1)) as [(section & header & rest & -> & Hs & Hh & Hk)|[Hall Hk]].
      * left. exists (line :: section), header, rest.
        cbn [app List.length].
        split; [reflexivity|]. split; [now constructor|]. split; [assumption|]. lia.
      * right. split; [now constructor | assumption].
Qed.

(** Where the reference goes: behind the section of the first line that
    contains the pattern, that is before the next line that starts a day,
    or at the end. *)
Lemma find_insertIndex_spec (lines : list string) (j len : Z) (pattern : string) :
  0 <= j -> len = j + Z.of_nat (List.length lines) ->
  (exists head line section after,
      lines = (head ++ line :: section ++ after)%list
      /\ Forall (fun l => GoStrings.Contains l pattern = false) head
      /\ GoStrings.Contains line pattern = true
      /\ Forall (fun l => GoStrings.HasPrefix l "## Day" = false) section
      /\ (after = [] \/ exists header rest,
                          after = header :: rest
                          /\ GoStrings.HasPrefix header "## Day" = true)
      /\ find_insertIndex lines j len pattern (-1)
         = j + Z.of_nat (List.length head) + Z.of_nat (List.length section))
  \/ (Forall (fun l => GoStrings.Contains l pattern = false) lines
      /\ find_insertIndex lines j len pattern (-1) = -1).
Proof.
  revert j. induction lines as [|line lines IH]; intros j Hj Hlen.
  - right. split; [constructor | reflexivity].
  - cbn [find_insertIndex]. cbn [List.length] in Hlen.
    destruct (GoStrings.Contains line pattern) eqn:Hline.
    + left.
      destruct (next_header_spec lines (j + 1))
        as [(section & header & rest & -> & Hs & Hh & ->)|[Hall ->]].
      * exists [], line, section, (header :: rest). cbn [app List.length].
        split; [reflexivity|]. split; [constructor|]. split; [assumption|].
        split; [assumption|]. split; [right; eauto|].
        destruct (Z.eqb_spec (j + 1 + Z.of_nat (List.length section) - 1) (-1)) as [e|_];
          simpl (List.length []); [exfalso; clear - e Hj; lia | lia].
      * exists [], line, lines, []. rewrite app_nil_r. cbn [app List.length].
        split; [reflexivity|]. split; [constructor|]. split; [assumption|].
        split; [assumption|]. split; [now left|].
        change (-1 =? -1) with true. cbv iota. simpl (List.length []). lia.
    + destruct (IH (j + 1) ltac:(lia) ltac:(lia))
        as [(head & l & section & after & -> & Hhead & Hl & Hs & Hafter & Hidx)|[Hall Hidx]].
      * left. exists (line :: head), l, section, after. cbn [app List.length].
        split; [reflexivity|]. split; [now constructor|]. split; [assumption|].
        split; [assumption|]. split; [assumption|]. lia.
      * right. split; [now constructor | assumption].
Qed.

(** The three ways in which the loop over the entries ends. *)
Lemma update_loop_spec (mf : MarkdownFile) (day : Z) (filename : string)
    (entries before : list DayEntry) :
  (Forall (fun e => Day e <> day) entries
   /\ update_loop mf day filename before entries
      = (Some (errorString ("day " ++ GoStrings.Itoa day ++ " not found")), mf))
  \/ exists pre entry rest,
       entries = (pre ++ entry :: rest)%list
       /\ Forall (fun e => Day e <> day) pre
       /\ Day entry = day
       /\ ((HasScreenshot entry = true
            /\ update_loop mf day filename before entries
               = (Some (errorString ("day " ++ GoStrings.Itoa day
                                     ++ " already has a screenshot reference")), mf))
           \/ (HasScreenshot entry = false
               /\ update_loop mf day filename before entries
                  = let mf_Entries := (before ++ pre ++ marked entry filename :: rest)%list in
                    let insertIndex :=
                      find_insertIndex (content mf) 0
                        (Z.of_nat (List.length (content mf)))
                        ("## Day " ++ GoStrings.Itoa day) (-1) in
                    if insertIndex =? -1 then
                      (Some (errorString ("day " ++ GoStrings.Itoa day
                                          ++ " not found in markdown content")),
                       {| FilePath := FilePath mf; Entries := mf_Entries;
                          content := content mf |})
                    else
                      (None,
                       {| FilePath := FilePath mf; Entries := mf_Entries;
                          content :=
                            (firstn (Z.to_nat (insertIndex + 1)) (content mf)
                             ++ (screenshotPrefix ++ filename)%string
                                :: skipn (Z.to_nat (insertIndex + 1)) (content mf))%list
                       |}))).
Proof.
  revert before. induction entries as [|entry entries IH]; intros before.
  - left. split; [constructor | reflexivity].
  - cbn [update_loop]. destruct (Z.eqb_spec (Day entry) day) as [Hday|Hday].
    + right. exists [], entry, entries. cbn [app].
      split; [reflexivity|]. split; [constructor|]. split; [assumption|].
      destruct (HasScreenshot entry); [left | right]; (split; [reflexivity|]);
        reflexivity.
    + destruct (IH (before ++ [entry])%list)
        as [[Hall Hrun]|(pre & e & rest & -> & Hpre & He & Hcases)].
      * left. split; [now constructor | assumption].
      * right. exists (entry :: pre), e, rest. cbn [app].
        split; [reflexivity|]. split; [now constructor|]. split; [assumption|].
        destruct Hcases as [[Hshot Hrun]|[Hshot Hrun]]; [left | right];
          (split; [assumption|]); rewrite Hrun; [reflexivity|].
        now rewrite <- !app_assoc.
Qed.

(** The outcome of [UpdateScreenshotReference] for an entry that can take
    the reference. *)
Lemma insert_at_section (head section after : list string) (line new : string) :
  let lines := (head ++ line :: section ++ after)%list in
  let insertIndex := 0 + Z.of_nat (List.length head) + Z.of_nat (List.length section) in
  (firstn (Z.to_nat (insertIndex + 1)) lines
   ++ new :: skipn (Z.to_nat (insertIndex + 1)) lines)%list
  = (head ++ line :: section ++ new :: after)%list.
Proof.
  intros lines insertIndex.
  assert (Hn : Z.to_nat (insertIndex + 1) = List.length (head ++ line :: section)%list).
  { subst insertIndex. rewrite List.length_app. cbn [List.length]. lia. }
  rewrite Hn. subst lines.
  replace (head ++ line :: section ++ after)%list
    with ((head ++ line :: section) ++ after)%list
    by (now rewrite <- app_assoc).
  rewrite take_app_length, drop_app_length, <- app_assoc. reflexivity.
Qed.

(** X18: where the reference goes.  When [UpdateScreenshotReference]
    returns nil, the first entry of the day had no screenshot and is now
    marked with the file name, no other entry is changed, and the lines
    are the same with one line added, [Screen Shot: ] followed by the file
    name: it stands behind the first line that contains the text
    [## Day <day>] and the lines that follow it up to the next line that
    starts with [## Day], or at the end when there is no such line. *)
Theorem UpdateScreenshotReference_inserts
    (mf mf' : MarkdownFile) (day : Z) (filename : string) :
  UpdateScreenshotReference mf day filename = (None, mf') ->
  FilePath mf' = FilePath mf
  /\ (exists pre entry rest,
        Entries mf = (pre ++ entry :: rest)%list
        /\ Forall (fun e => Day e <> day) pre
        /\ Day entry = day
        /\ HasScreenshot entry = false
        /\ Entries mf' = (pre ++ marked entry filename :: rest)%list)
  /\ (exists head line section after,
        content mf = (head ++ line :: section ++ after)%list
        /\ content mf'
           = (head ++ line :: section ++ (screenshotPrefix ++ filename)%string :: after)%list
        /\ Forall (fun l => GoStrings.Contains l ("## Day " ++ GoStrings.Itoa day) = false)
                  head
        /\ GoStrings.Contains line ("## Day " ++ GoStrings.Itoa day) = true
        /\ Forall (fun l => GoStrings.HasPrefix l "## Day" = false) section
        /\ (after = []
            \/ exists header rest,
                 after = header :: rest /\ GoStrings.HasPrefix header "## Day" = true)).
Proof.
  unfold UpdateScreenshotReference. intros Hrun.
  destruct (update_loop_spec mf day filename (Entries mf) [])
    as [[_ Hr]|(pre & entry & rest & Hsplit & Hpre & Hday & [[_ Hr]|[Hshot Hr]])];
    rewrite Hr in Hrun; try discriminate.
  cbv zeta in Hrun. cbn [app] in Hrun.
  destruct (find_insertIndex_spec (content mf) 0 (Z.of_nat (List.length (content mf)))
              ("## Day " ++ GoStrings.Itoa day) ltac:(lia) ltac:(lia))
    as [(head & line & section & after & Hc & Hhead & Hline & Hsec & Hafter & Hidx)
       |[_ Hidx]];
    rewrite Hidx in Hrun.
  2: { discriminate. }
  destruct (Z.eqb_spec (0 + Z.of_nat (List.length head) + Z.of_nat (List.length section))
              (-1)) as [Hneg|_]; [lia|].
  injection Hrun as <-. cbn [FilePath Entries content].
  split; [reflexivity|]. split.
  - exists pre, entry, rest. auto.
  - exists head, line, section, after.
    split; [assumption|]. split; [|auto].
    rewrite Hc. apply insert_at_section.
Qed.

Lemma UpdateScreenshotReference_inserts_witness :
  exists head line section after,
    content journal_file = (head ++ line :: section ++ after)%list
    /\ content (snd (UpdateScreenshotReference journal_file 1 "day-1-screenshot.png"))
       = (head ++ line :: section
          ++ (screenshotPrefix ++ "day-1-screenshot.png")%string :: after)%list
    /\ Forall (fun l => GoStrings.Contains l ("## Day " ++ GoStrings.Itoa 1) = false) head
    /\ GoStrings.Contains line ("## Day " ++ GoStrings.Itoa 1) = true
    /\ Forall (fun l => GoStrings.HasPrefix l "## Day" = false) section
    /\ (after = []
        \/ exists header rest,
             after = header :: rest /\ GoStrings.HasPrefix header "## Day" = true).
Proof.
  apply (UpdateScreenshotReference_inserts journal_file _ 1 "day-1-screenshot.png").
  vm_compute. reflexivity.
Defined.

(** X19: how [UpdateScreenshotReference] fails.  There are three errors: no
    entry has the day, and nothing is changed; the first entry of the day
    has a screenshot already, and nothing is changed; or no line contains
    the text [## Day <day>], and then the lines are unchanged but the entry
    has been marked with the file name all the same. *)
Theorem UpdateScreenshotReference_errors
    (mf mf' : MarkdownFile) (day : Z) (filename : string) (e : error) :
  UpdateScreenshotReference mf day filename = (Some e, mf') ->
  (e = errorString ("day " ++ GoStrings.Itoa day ++ " not found")
   /\ Forall (fun entry => Day entry <> day) (Entries mf)
   /\ mf' = mf)
  \/ (exists pre entry rest,
        Entries mf = (pre ++ entry :: rest)%list
        /\ Forall (fun e => Day e <> day) pre
        /\ Day entry = day
        /\ ((e = errorString ("day " ++ GoStrings.Itoa day
                              ++ " already has a screenshot reference")
             /\ HasScreenshot entry = true
             /\ mf' = mf)
            \/ (e = errorString ("day " ++ GoStrings.Itoa day
                                 ++ " not found in markdown content")
                /\ HasScreenshot entry = false
                /\ Forall (fun l => GoStrings.Contains l ("## Day " ++ GoStrings.Itoa day)
                                    = false) (content mf)
                /\ content mf' = content mf
                /\ Entries mf' = (pre ++ marked entry filename :: rest)%list))).
Proof.
  unfold UpdateScreenshotReference. intros Hrun.
  destruct (update_loop_spec mf day filename (Entries mf) [])
    as [[Hall Hr]|(pre & entry & rest & Hsplit & Hpre & Hday & [[Hshot Hr]|[Hshot Hr]])];
    rewrite Hr in Hrun.
  - injection Hrun as <- <-. now left.
  - injection Hrun as <- <-. right. exists pre, entry, rest.
    split; [assumption|]. split; [assumption|]. split; [assumption|]. left. auto.
  - right. exists pre, entry, rest.
    split; [assumption|]. split; [assumption|]. split; [assumption|]. right.
    cbv zeta in Hrun. cbn [app] in Hrun.
    destruct (find_insertIndex_spec (content mf) 0 (Z.of_nat (List.length (content mf)))
                ("## Day " ++ GoStrings.Itoa day) ltac:(lia) ltac:(lia))
      as [(head & line & section & after & Hc & Hhead & Hline & Hsec & Hafter & Hidx)
         |[Hnone Hidx]];
      rewrite Hidx in Hrun.
    + destruct (Z.eqb_spec (0 + Z.of_nat (List.length head) + Z.of_nat (List.length section))
                  (-1)) as [Hneg|_]; [lia | discriminate].
    + change (-1 =? -1) with true in Hrun. cbv iota in Hrun.
      injection Hrun as <- <-. cbn [content Entries]. auto.
Qed.

Lemma UpdateScreenshotReference_errors_witness :
  fst (UpdateScreenshotReference padded_file 7 "day-7-screenshot.png")
  = Some (errorString "day 7 not found in markdown content")
  /\ Entries (snd (UpdateScreenshotReference padded_file 7 "day-7-screenshot.png"))
     <> Entries padded_file.
Proof.
  destruct (UpdateScreenshotReference_errors padded_file
              (snd (UpdateScreenshotReference padded_file 7 "day-7-screenshot.png"))
              7 "day-7-screenshot.png"
              (errorString "day 7 not found in markdown content") eq_refl)
    as [(_ & Hnone & _)|(pre & entry & rest & Hsplit & _ & _ & [(He & _)|(_ & _ & _ & _ & Hmarked)])].
  - exfalso. apply Forall_cons in Hnone as [Hday _]. now apply Hday.
  - discriminate He.
  - split; [reflexivity|]. rewrite Hmarked, Hsplit.
    intros Heq. apply app_inv_head in Heq. injection Heq as Heq.
    apply (f_equal HasScreenshot) in Heq.
    destruct pre as [|first pre]; [|destruct pre; discriminate Hsplit].
    injection Hsplit as <- _. discriminate Heq.
Defined.

Lemma update_loop_marked (mf : MarkdownFile) (day : Z) (filename : string)
    (pre rest before : list DayEntry) (entry : DayEntry) :
  Forall (fun e => Day e <> day) pre ->
  Day entry = day -> HasScreenshot entry = true ->
  update_loop mf day filename before (pre ++ entry :: rest)
  = (Some (errorString ("day " ++ GoStrings.Itoa day
                        ++ " already has a screenshot reference")), mf).
Proof.
  intros Hpre Hday Hshot. revert before.
  induction Hpre as [|e pre He _ IH]; intros before; cbn [app update_loop].
  - destruct (Z.eqb_spec (Day entry) day); [|congruence]. now rewrite Hshot.
  - destruct (Z.eqb_spec (Day e) day); [congruence|]. apply IH.
Qed.

Lemma pending_of_app (a b : list DayEntry) :
  pending_of (a ++ b) = (pending_of a ++ pending_of b)%list.
Proof. apply List.filter_app. Qed.

(** X20: a day is served once.  Whenever [UpdateScreenshotReference] has
    changed the entries, be it with nil or with the error that the day is
    not found in the content, a further call for the same day fails with
    "already has a screenshot reference" and changes nothing, and the entry
    is no longer among [GetEntriesWithoutScreenshots]: that list has lost
    this entry if it had a URL, and nothing else. *)
Theorem UpdateScreenshotReference_once
    (mf mf' : MarkdownFile) (day : Z) (filename : string) (r : option error) :
  UpdateScreenshotReference mf day filename = (r, mf') ->
  Entries mf' <> Entries mf ->
  (forall filename',
      UpdateScreenshotReference mf' day filename'
      = (Some (errorString ("day " ++ GoStrings.Itoa day
                            ++ " already has a screenshot reference")), mf'))
  /\ exists pre entry rest,
       Entries mf = (pre ++ entry :: rest)%list
       /\ Day entry = day
       /\ GetEntriesWithoutScreenshots mf
          = (pending_of pre
             ++ (if String.eqb (URL entry) "" then [] else [entry])
             ++ pending_of rest)%list
       /\ GetEntriesWithoutScreenshots mf' = (pending_of pre ++ pending_of rest)%list.
Proof.
  unfold UpdateScreenshotReference. intros Hrun Hchanged.
  destruct (update_loop_spec mf day filename (Entries mf) [])
    as [[Hall Hr]|(pre & entry & rest & Hsplit & Hpre & Hday & [[Hshot Hr]|[Hshot Hr]])];
    rewrite Hr in Hrun.
  - injection Hrun as _ <-. congruence.
  - injection Hrun as _ <-. congruence.
  - cbv zeta in Hrun. cbn [app] in Hrun.
    assert (Hentries : Entries mf' = (pre ++ marked entry filename :: rest)%list).
    { destruct (_ =? -1) in Hrun; injection Hrun as _ <-; reflexivity. }
    split.
    + intros filename'. rewrite Hentries.
      now apply update_loop_marked.
    + exists pre, entry, rest. split; [assumption|]. split; [assumption|].
      change (GetEntriesWithoutScreenshots mf) with (pending_of (Entries mf)).
      change (GetEntriesWithoutScreenshots mf') with (pending_of (Entries mf')).
      rewrite Hentries, Hsplit, !pending_of_app.
      unfold pending_of, GetEntriesWithoutScreenshots. cbn [Entries List.filter].
      rewrite Hshot. cbn [marked HasScreenshot negb andb].
      now destruct (String.eqb (URL entry) "").
Qed.

Lemma UpdateScreenshotReference_once_witness :
  UpdateScreenshotReference
    (snd (UpdateScreenshotReference padded_file 7 "day-7-screenshot.png")) 7 "again.png"
  = (Some (errorString ("day " ++ GoStrings.Itoa 7
                        ++ " already has a screenshot reference")),
     snd (UpdateScreenshotReference padded_file 7 "day-7-screenshot.png")).
Proof.
  destruct (UpdateScreenshotReference_once padded_file _ 7 "day-7-screenshot.png" _
              (surjective_pairing _)) as [Hagain _].
  - vm_compute. discriminate.
  - apply Hagain.
Defined.

(** ** Writing the file back *)

Lemma append_nil_r (s : string) : s ++ "" = s.
Proof.
  induction s as [|c s IH]; [reflexivity|]. now rewrite append_cons, IH.
Qed.

Lemma backup_path_differs (path : string) : path ++ ".backup" <> path.
Proof.
  intros Heq. apply (f_equal String.length) in Heq.
  rewrite length_append in Heq. cbn in Heq. lia.
Qed.

(** The scanner gives back a clean line that ends in a line feed. *)
Lemma scan_lines_line (line rest current : string) :
  all_of (fun c => negb (Ascii.eqb c newline)) line = true ->
  Z.of_nat (String.length (current ++ line)) < MaxScanTokenSize ->
  scan_lines (line ++ String newline rest) current
  = (dropCR (current ++ line) :: fst (scan_lines rest ""), snd (scan_lines rest "")).
Proof.
  revert current. induction line as [|c line IH]; intros current Hline Hlen.
  - rewrite append_nil, append_nil_r. cbn [scan_lines].
    rewrite Ascii.eqb_refl. now destruct (scan_lines rest "").
  - rewrite append_cons. cbn [scan_lines]. cbn [all_of] in Hline.
    apply andb_true_iff in Hline as [Hc Hline].
    apply negb_true_iff in Hc. rewrite Hc.
    assert (Hsame : (current ++ String c "") ++ line = current ++ String c line)
      by (now rewrite append_assoc, append_cons, append_nil).
    destruct (Z.leb_spec MaxScanTokenSize
                (Z.of_nat (String.length (current ++ String c "")))) as [Hfull|_].
    + rewrite <- Hsame, length_append in Hlen. lia.
    + rewrite IH; [now rewrite Hsame | assumption | now rewrite Hsame].
Qed.

(** Reading back what was written: the scanner splits the rendered lines
    into the lines they were. *)
Lemma scan_lines_rendered (lines : list string) :
  Forall clean_line lines -> scan_lines (rendered lines) "" = (lines, false).
Proof.
  induction 1 as [|line lines (Hline & Hcr & Hlen) _ IH]; [reflexivity|].
  cbn [rendered]. rewrite append_cons, append_nil.
  rewrite scan_lines_line, IH; [|assumption | now rewrite append_nil].
  rewrite append_nil, Hcr. reflexivity.
Qed.

Ltac other_path :=
  repeat first [ rewrite lookup_delete_ne by congruence
               | rewrite lookup_insert_ne by congruence ].

(** A run of [WriteMarkdownFile]: the error, and what is then at the path of
    the file, at the path of the backup and elsewhere. *)
Lemma WriteMarkdownFile_run (io : IO) (mf : MarkdownFile) (fs : Files) :
  let path := FilePath mf in
  let backup := path ++ ".backup" in
  let original := default "" (fs !! path) in
  exists r fs',
    WriteMarkdownFile io mf fs = (r, fs')
    /\ (forall other, other <> path -> other <> backup -> fs' !! other = fs !! other)
    /\ match r with
       | None =>
           read_error io path = None
           /\ create_error io path = None
           /\ write_fault io path = None
           /\ fs' !! path = Some (rendered (content mf))
           /\ (if (0 <? String.length original)%nat
               then write_file_error io backup = None
                    /\ fs' !! backup
                       = (if remove_fails io backup then Some original else None)
               else fs' !! backup = fs !! backup)
       | Some e =>
           (original <> "" -> write_file_error io path = None ->
            fs' !! path = Some original)
           /\ (original = "" ->
               fs' !! path = fs !! path
               \/ exists written,
                    fs' !! path = Some (substring 0 written (rendered (content mf))))
       end.
Proof.
  intros path backup original. unfold WriteMarkdownFile. cbv zeta.
  fold path. fold backup. fold original.
  pose proof (backup_path_differs path) as Hdiff. fold backup in Hdiff.
  assert (Horig : original <> "" -> fs !! path = Some original).
  { unfold original. destruct (fs !! path); cbn; congruence. }
  assert (Hlen : (0 <? String.length original)%nat = negb (String.eqb original "")).
  { destruct original; reflexivity. }
  clearbody original backup path.
  destruct (read_error io path) as [msg|].
  { eexists (Some _), fs. split; [reflexivity|]. split; [auto|]. split; auto. }
  destruct (0 <? String.length original)%nat eqn:Hhas.
  - assert (Hne : original <> "").
    { intros Heq. rewrite Heq in Hlen. discriminate. }
    destruct (write_file_error io backup) as [msg|] eqn:Hbackup.
    { eexists (Some _), _. split; [reflexivity|]. unfold failed_write.
      split; [|split].
      - intros other _ Hother. destruct (write_file_left io backup); now other_path.
      - intros _ _. destruct (write_file_left io backup); other_path; auto.
      - congruence. }
    destruct (create_error io path) as [msg|].
    { eexists (Some _), _. split; [reflexivity|]. split; [|split].
      - intros other _ Hother. now other_path.
      - intros _ _. other_path. auto.
      - congruence. }
    destruct (write_fault io path) as [[[at_flush written] msg]|].
    + eexists (Some _), _. split; [reflexivity|]. split; [|split].
      * intros other Hpath Hother. unfold remove, write_back, failed_write.
        destruct (remove_fails io backup), (write_file_error io path),
          (write_file_left io path); other_path; reflexivity.
      * intros _ Hrestore. unfold remove, write_back. rewrite Hrestore.
        destruct (remove_fails io backup);
          other_path; apply lookup_insert_eq.
      * congruence.
    + eexists None, _. split; [reflexivity|]. split; [|repeat split].
      * intros other Hpath Hother. unfold remove.
        destruct (remove_fails io backup);
          other_path; reflexivity.
      * unfold remove. destruct (remove_fails io backup);
          other_path; apply lookup_insert_eq.
      * unfold remove. destruct (remove_fails io backup).
        -- other_path. apply lookup_insert_eq.
        -- apply lookup_delete_eq.
  - assert (He : original = "").
    { destruct original; [reflexivity | discriminate]. }
    destruct (create_error io path) as [msg|].
    { eexists (Some _), fs. split; [reflexivity|]. split; [auto|]. split; [congruence|auto]. }
    destruct (write_fault io path) as [[[at_flush written] msg]|].
    + eexists (Some _), _. split; [reflexivity|]. split; [|split].
      * intros other Hpath _. now other_path.
      * congruence.
      * intros _. right. exists written. apply lookup_insert_eq.
    + eexists None, _. split; [reflexivity|]. split; [|repeat split].
      * intros other Hpath _. now other_path.
      * apply lookup_insert_eq.
      * now other_path.
Qed.

Lemma all_of_app (p : ascii -> bool) (a b : string) :
  all_of p (a ++ b) = all_of p a && all_of p b.
Proof.
  induction a as [|c a IH]; rewrite ?append_nil, ?append_cons; cbn [all_of];
    [reflexivity | now rewrite IH, andb_assoc].
Qed.

Lemma dropCR_cases (line : string) :
  dropCR line = line \/ line = dropCR line ++ String carriage_return "".
Proof.
  unfold dropCR. destruct (rev_string line) as [|c behind] eqn:Hrev; [now left|].
  destruct (Ascii.eqb_spec c carriage_return) as [->|]; [right | now left].
  rewrite <- (rev_onto_involutive line), Hrev.
  change (rev_string (String carriage_return behind))
    with (rev_onto behind (String carriage_return "")).
  now rewrite rev_onto_spec.
Qed.

(** What the scanner delivers has no line feed in it and is shorter than
    the buffer. *)
Lemma scan_lines_tokens (data : string) :
  forall current lines too_long,
    scan_lines data current = (lines, too_long) ->
    all_of (fun c => negb (Ascii.eqb c newline)) current = true ->
    Z.of_nat (String.length current) < MaxScanTokenSize ->
    Forall (fun l => all_of (fun c => negb (Ascii.eqb c newline)) l = true
                     /\ Z.of_nat (String.length l) < MaxScanTokenSize) lines.
Proof.
  assert (Hdrop : forall l,
             all_of (fun c => negb (Ascii.eqb c newline)) l = true ->
             Z.of_nat (String.length l) < MaxScanTokenSize ->
             all_of (fun c => negb (Ascii.eqb c newline)) (dropCR l) = true
             /\ Z.of_nat (String.length (dropCR l)) < MaxScanTokenSize).
  { intros l Hl Hlen. destruct (dropCR_cases l) as [->|Heq]; [auto|].
    rewrite Heq, all_of_app in Hl. apply andb_true_iff in Hl as [Hl _].
    rewrite Heq, length_append in Hlen. split; [assumption | lia]. }
  induction data as [|c data IH]; intros current lines too_long; cbn [scan_lines].
  - intros [= <- <-] Hcur Hlen. destruct current; [constructor|].
    apply Forall_singleton. now apply Hdrop.
  - destruct (Ascii.eqb c newline) eqn:Hc.
    + destruct (scan_lines data "") as [tokens tl] eqn:Hrest.
      intros [= <- <-] Hcur Hlen. constructor; [now apply Hdrop|].
      apply (IH "" tokens tl Hrest); [reflexivity | reflexivity].
    + destruct (Z.leb_spec MaxScanTokenSize
                  (Z.of_nat (String.length (current ++ String c "")))) as [Hfull|Hroom].
      * intros [= <- <-] _ _. constructor.
      * intros Hrun Hcur Hlen. apply (IH _ _ _ Hrun); [|assumption].
        rewrite all_of_app, Hcur. cbn [all_of andb]. now rewrite Hc.
Qed.

(** X21: what a successful write leaves.  When [WriteMarkdownFile] returns
    nil, the file holds every line followed by a line feed and nothing
    else; the backup made of an original that was not empty is removed
    again, if the removal works; no other path is touched. *)
Theorem WriteMarkdownFile_success (io : IO) (mf : MarkdownFile) (fs fs' : Files) :
  WriteMarkdownFile io mf fs = (None, fs') ->
  fs' !! FilePath mf = Some (rendered (content mf))
  /\ (default "" (fs !! FilePath mf) <> "" ->
      remove_fails io (FilePath mf ++ ".backup") = false ->
      fs' !! (FilePath mf ++ ".backup") = None)
  /\ (default "" (fs !! FilePath mf) = "" ->
      fs' !! (FilePath mf ++ ".backup") = fs !! (FilePath mf ++ ".backup"))
  /\ (forall other,
        other <> FilePath mf -> other <> FilePath mf ++ ".backup" ->
        fs' !! other = fs !! other).
Proof.
  intros Hrun.
  destruct (WriteMarkdownFile_run io mf fs) as (r & fs1 & Hrun1 & Hothers & Hr).
  rewrite Hrun1 in Hrun. injection Hrun as -> ->.
  destruct Hr as (_ & _ & _ & Hfile & Hbackup).
  split; [exact Hfile|].
  destruct (default "" (fs !! FilePath mf)) as [|c original] eqn:Horiginal;
    cbn [String.length Nat.ltb Nat.leb] in Hbackup.
  - split; [congruence|]. split; [auto | exact Hothers].
  - destruct Hbackup as [_ Hbackup].
    split; [intros _ Hremove; now rewrite Hremove in Hbackup|].
    split; [discriminate | exact Hothers].
Qed.

Lemma WriteMarkdownFile_success_witness :
  snd (WriteMarkdownFile sound journal_file old_disk) !! "log.md"
  = Some (rendered (content journal_file)).
Proof.
  apply (WriteMarkdownFile_success sound journal_file old_disk).
  reflexivity.
Defined.

(** X22: what a failed write leaves.  When [WriteMarkdownFile] returns an
    error and the original was not empty, the file holds the original
    again, provided the original can be written back; when there was no
    original, or an empty one, the file is as it was or holds a first part
    of the new text. *)
Theorem WriteMarkdownFile_failure (io : IO) (mf : MarkdownFile) (fs fs' : Files)
    (e : error) :
  WriteMarkdownFile io mf fs = (Some e, fs') ->
  (default "" (fs !! FilePath mf) <> "" ->
   write_file_error io (FilePath mf) = None ->
   fs' !! FilePath mf = fs !! FilePath mf)
  /\ (default "" (fs !! FilePath mf) = "" ->
      fs' !! FilePath mf = fs !! FilePath mf
      \/ exists written,
           fs' !! FilePath mf = Some (substring 0 written (rendered (content mf))))
  /\ (forall other,
        other <> FilePath mf -> other <> FilePath mf ++ ".backup" ->
        fs' !! other = fs !! other).
Proof.
  intros Hrun.
  destruct (WriteMarkdownFile_run io mf fs) as (r & fs1 & Hrun1 & Hothers & Hr).
  rewrite Hrun1 in Hrun. injection Hrun as -> ->.
  destruct Hr as [Hkept Hpartial].
  split; [|split; [exact Hpartial | exact Hothers]].
  intros Hne Hrestore. rewrite (Hkept Hne Hrestore).
  destruct (fs !! FilePath mf); [reflexivity | now contradiction Hne].
Qed.

Lemma WriteMarkdownFile_failure_witness :
  snd (WriteMarkdownFile failing_disk journal_file old_disk) !! "log.md"
  = old_disk !! "log.md".
Proof.
  destruct (WriteMarkdownFile_failure failing_disk journal_file old_disk
              (snd (WriteMarkdownFile failing_disk journal_file old_disk))
              (errorString "error writing to file: write log.md: input/output error")
              ltac:(vm_compute; reflexivity)) as [Hkept _].
  apply Hkept.
  - intros Hempty. vm_compute in Hempty. discriminate Hempty.
  - reflexivity.
Defined.

(** X23: writing and reading back.  After a successful write of clean
    lines, [ParseMarkdownFile] of the same path, if the file opens, returns
    a file exactly when the number of every header line fits, and that
    file has the lines that were written and the same path. *)
Theorem WriteMarkdownFile_then_parse (io : IO) (mf : MarkdownFile) (fs fs' : Files) :
  WriteMarkdownFile io mf fs = (None, fs') ->
  Forall clean_line (content mf) ->
  open_error io (FilePath mf) = None ->
  ((exists mf', ParseMarkdownFile io fs' (FilePath mf) = inl mf')
   <-> Forall header_fits (content mf))
  /\ forall mf',
       ParseMarkdownFile io fs' (FilePath mf) = inl mf' ->
       content mf' = content mf /\ FilePath mf' = FilePath mf.
Proof.
  intros Hrun Hclean Hopen.
  destruct (WriteMarkdownFile_run io mf fs) as (r & fs1 & Hrun1 & _ & Hr).
  rewrite Hrun1 in Hrun. injection Hrun as -> ->.
  destruct Hr as (Hread & _ & _ & Hfile & _).
  pose proof (scan_lines_rendered (content mf) Hclean) as Hscan.
  split.
  - rewrite ParseMarkdownFile_total. split.
    + intros (data & Hdata & _ & _ & _ & Hfits).
      rewrite Hfile in Hdata. injection Hdata as <-. now rewrite Hscan in Hfits.
    + intros Hfits. exists (rendered (content mf)). rewrite Hscan. auto 6.
  - intros mf' Hparse.
    destruct (ParseMarkdownFile_run io fs' (FilePath mf) mf' Hparse)
      as (data & _ & _ & _ & Hdata & _ & Hscan' & _ & Hpath & _).
    rewrite Hfile in Hdata. injection Hdata as <-.
    rewrite Hscan in Hscan'. injection Hscan' as <-. auto.
Qed.

Lemma journal_file_clean : Forall clean_line (content journal_file).
Proof.
  repeat constructor.
Qed.

Lemma WriteMarkdownFile_then_parse_witness :
  (exists mf',
      ParseMarkdownFile sound (snd (WriteMarkdownFile sound journal_file empty_disk)) "log.md"
      = inl mf')
  <-> Forall header_fits (content journal_file).
Proof.
  destruct (WriteMarkdownFile_then_parse sound journal_file empty_disk
              (snd (WriteMarkdownFile sound journal_file empty_disk))
              ltac:(vm_compute; reflexivity) journal_file_clean eq_refl) as [Hiff _].
  exact Hiff.
Defined.

Lemma header_fits_reference (filename : string) :
  header_fits (screenshotPrefix ++ filename).
Proof.
  intros digits Hheader. discriminate Hheader.
Qed.

Lemma header_day_reference (filename : string) :
  header_day (screenshotPrefix ++ filename) = None.
Proof. reflexivity. Qed.

(** X24: a whole round.  A file is parsed, the reference for a day is
    added and the file is written, all three with success; no line of the
    file ended in two carriage returns and the new line is a clean one.
    Then the file parses again, to the lines that were written, which are
    those of the first reading with the reference added, and to entries for
    the same days in the same order. *)
Theorem parse_update_write_parse (io : IO) (fs fs' : Files) (filePath : string)
    (mf mf1 : MarkdownFile) (day : Z) (filename : string) :
  ParseMarkdownFile io fs filePath = inl mf ->
  UpdateScreenshotReference mf day filename = (None, mf1) ->
  WriteMarkdownFile io mf1 fs = (None, fs') ->
  Forall (fun line => dropCR line = line) (content mf) ->
  clean_line (screenshotPrefix ++ filename) ->
  exists mf2,
    ParseMarkdownFile io fs' filePath = inl mf2
    /\ content mf2 = content mf1
    /\ List.length (content mf2) = S (List.length (content mf))
    /\ In (screenshotPrefix ++ filename) (content mf2)
    /\ map Day (Entries mf2) = map Day (Entries mf).
Proof.
  intros Hparse Hupdate Hwrite Hcr Hnew.
  destruct (ParseMarkdownFile_run io fs filePath mf Hparse)
    as (data & es & cur & buf & Hdata & Hopen & Hscan & Hloop & Hpath & Hentries).
  (* the update *)
  unfold UpdateScreenshotReference in Hupdate.
  destruct (update_loop_spec mf day filename (Entries mf) [])
    as [[_ Hr]|(pre & entry & rest & Hsplit & Hpre & Hday & [[_ Hr]|[Hshot Hr]])];
    rewrite Hr in Hupdate; try discriminate.
  cbv zeta in Hupdate. cbn [app] in Hupdate.
  destruct (find_insertIndex_spec (content mf) 0 (Z.of_nat (List.length (content mf)))
              ("## Day " ++ GoStrings.Itoa day) ltac:(lia) ltac:(lia))
    as [(head & line & section & after & Hc & _ & _ & _ & _ & Hidx)|[_ Hidx]];
    rewrite Hidx in Hupdate; [|discriminate].
  destruct (Z.eqb_spec (0 + Z.of_nat (List.length head) + Z.of_nat (List.length section))
              (-1)) as [Hneg|_]; [lia|].
  injection Hupdate as <-.
  set (new := (screenshotPrefix ++ filename)%string) in *.
  set (lines1 := (head ++ line :: section ++ new :: after)%list).
  assert (Hins : (firstn (Z.to_nat (0 + Z.of_nat (List.length head)
                                    + Z.of_nat (List.length section) + 1)) (content mf)
                  ++ new :: skipn (Z.to_nat (0 + Z.of_nat (List.length head)
                                             + Z.of_nat (List.length section) + 1))
                                  (content mf))%list = lines1).
  { rewrite Hc. apply insert_at_section. }
  cbn [content FilePath]. rewrite Hins in Hwrite |- *. clear Hins.
  (* the lines that are written are clean and their headers fit *)
  assert (Htokens : Forall clean_line (content mf)).
  { pose proof (scan_lines_tokens data "" _ _ Hscan eq_refl ltac:(reflexivity)) as Htok.
    rewrite Forall_forall in Htok, Hcr |- *. intros l Hl.
    destruct (Htok l Hl) as [Hnl Hlen]. repeat split; auto. }
  assert (Hfits : Forall header_fits (content mf)).
  { apply (parse_loop_total io (content mf) [] [] None []). eauto. }
  assert (Hsame : forall P : string -> Prop,
             P new -> Forall P (content mf) -> Forall P lines1).
  { intros P Hn. rewrite Hc. unfold lines1.
    rewrite !Forall_app, !Forall_cons, !Forall_app, Forall_cons. tauto. }
  assert (Hclean1 : Forall clean_line lines1) by (now apply Hsame).
  assert (Hfits1 : Forall header_fits lines1)
    by (apply Hsame; [apply header_fits_reference | assumption]).
  (* the write *)
  destruct (WriteMarkdownFile_run io
              {| FilePath := FilePath mf; Entries := (pre ++ marked entry filename :: rest)%list;
                 content := lines1 |} fs) as (r & fs1 & Hrun1 & _ & Hr1).
  rewrite Hrun1 in Hwrite. injection Hwrite as -> ->.
  destruct Hr1 as (Hread & _ & _ & Hfile & _). cbn [content FilePath] in Hfile, Hread.
  (* the second reading *)
  pose proof (scan_lines_rendered lines1 Hclean1) as Hscan1.
  destruct (proj2 (ParseMarkdownFile_total io fs' filePath)) as [mf2 Hparse2].
  { exists (rendered lines1). rewrite <- Hpath, Hfile, Hscan1, Hpath.
    rewrite Hpath in Hread. auto 6. }
  exists mf2. split; [exact Hparse2|].
  destruct (ParseMarkdownFile_run io fs' filePath mf2 Hparse2)
    as (data2 & es2 & cur2 & buf2 & Hdata2 & _ & Hscan2 & Hloop2 & _ & Hentries2).
  rewrite <- Hpath, Hfile in Hdata2. injection Hdata2 as <-.
  rewrite Hscan1 in Hscan2. injection Hscan2 as Hcontent2.
  split; [now symmetry|]. rewrite <- Hcontent2.
  split; [|split].
  - rewrite Hc. unfold lines1.
    rewrite !List.length_app. cbn [List.length]. rewrite !List.length_app.
    cbn [List.length]. lia.
  - unfold lines1. apply in_or_app. right. right. apply in_or_app. right. now left.
  - destruct (parse_loop_spec io _ _ _ _ _ _ _ _ _ Hloop parse_inv_start) as (_ & _ & Hdays).
    destruct (parse_loop_spec io _ _ _ _ _ _ _ _ _ Hloop2 parse_inv_start) as (_ & _ & Hdays2).
    rewrite Hentries, Hentries2, Hdays, Hdays2, <- Hcontent2. cbn [flush map app].
    rewrite Hc. unfold lines1.
    rewrite !omap_app. cbn [omap list_omap]. rewrite !omap_app. cbn [omap list_omap].
    unfold new. now rewrite header_day_reference.
Qed.

Lemma parse_update_write_parse_witness :
  exists mf2,
    ParseMarkdownFile sound
      (snd (WriteMarkdownFile sound
              (snd (UpdateScreenshotReference journal_file 1 "day-1-screenshot.png"))
              journal_disk)) "log.md" = inl mf2
    /\ content mf2
       = content (snd (UpdateScreenshotReference journal_file 1 "day-1-screenshot.png"))
    /\ List.length (content mf2) = S (List.length (content journal_file))
    /\ In (screenshotPrefix ++ "day-1-screenshot.png") (content mf2)
    /\ map Day (Entries mf2) = map Day (Entries journal_file).
Proof.
  apply (parse_update_write_parse sound journal_disk _ "log.md"
           journal_file _ 1 "day-1-screenshot.png").
  - vm_compute. reflexivity.
  - vm_compute. reflexivity.
  - vm_compute. reflexivity.
  - repeat constructor.
  - repeat constructor.
Defined.

Lemma Contains_HasPrefix (s p : string) :
  GoStrings.HasPrefix s p = true -> GoStrings.Contains s p = true.
Proof.
  intros H. destruct s; cbn [GoStrings.Contains]; now rewrite H.
Qed.

(** X25: days that cannot be served.  In a file that
    [ParseMarkdownFile] returned, [UpdateScreenshotReference] fails with
    "not found in markdown content" only for a day whose header does not
    write the number as [%d] prints it, as [## Day 007] does for day 7: the
    entry is then marked although no line was added. *)
Theorem UpdateScreenshotReference_padded_day
    (io : IO) (fs : Files) (filePath : string) (mf mf' : MarkdownFile)
    (day : Z) (filename : string) :
  ParseMarkdownFile io fs filePath = inl mf ->
  UpdateScreenshotReference mf day filename
  = (Some (errorString ("day " ++ GoStrings.Itoa day ++ " not found in markdown content")),
     mf') ->
  (exists line digits,
      In line (content mf)
      /\ dayHeaderRegex line = Some digits
      /\ Atoi digits = inl day
      /\ digits <> GoStrings.Itoa day)
  /\ content mf' = content mf
  /\ exists pre entry rest,
       Entries mf = (pre ++ entry :: rest)%list
       /\ Entries mf' = (pre ++ marked entry filename :: rest)%list.
Proof.
  intros Hparse Hupdate.
  destruct (ParseMarkdownFile_run io fs filePath mf Hparse)
    as (data & es & cur & buf & _ & _ & _ & Hloop & _ & Hentries).
  destruct (parse_loop_spec io _ _ _ _ _ _ _ _ _ Hloop parse_inv_start) as (_ & _ & Hdays).
  rewrite <- Hentries in Hdays. cbn [flush map app] in Hdays.
  unfold UpdateScreenshotReference in Hupdate.
  destruct (update_loop_spec mf day filename (Entries mf) [])
    as [[_ Hr]|(pre & entry & rest & Hsplit & Hpre & Hday & [[_ Hr]|[Hshot Hr]])];
    rewrite Hr in Hupdate.
  - injection Hupdate as Hmsg _. apply append_inv_head in Hmsg.
    apply (f_equal String.length) in Hmsg. rewrite !length_append in Hmsg.
    cbn in Hmsg. lia.
  - injection Hupdate as Hmsg _. apply append_inv_head in Hmsg.
    apply (f_equal String.length) in Hmsg. rewrite !length_append in Hmsg.
    cbn in Hmsg. lia.
  - cbv zeta in Hupdate. cbn [app] in Hupdate.
    destruct (find_insertIndex_spec (content mf) 0 (Z.of_nat (List.length (content mf)))
                ("## Day " ++ GoStrings.Itoa day) ltac:(lia) ltac:(lia))
      as [(head & line & section & after & _ & _ & _ & _ & _ & Hidx)|[Hnone Hidx]];
      rewrite Hidx in Hupdate.
    { destruct (Z.eqb_spec (0 + Z.of_nat (List.length head)
                            + Z.of_nat (List.length section)) (-1)) as [Hneg|_];
        [lia | discriminate]. }
    change (-1 =? -1) with true in Hupdate. cbv iota in Hupdate.
    injection Hupdate as <-. cbn [content Entries].
    split; [|split; [reflexivity | eauto]].
    assert (Hin : day ∈ omap header_day (content mf)).
    { rewrite <- Hdays, Hsplit, map_app. cbn [map]. rewrite Hday.
      apply list_elem_of_In, in_or_app. right. now left. }
    apply list_elem_of_omap in Hin as (line & Hline & Hheader).
    unfold header_day in Hheader.
    destruct (dayHeaderRegex line) as [digits|] eqn:Hregex; [|discriminate].
    destruct (Atoi digits) as [d|] eqn:Hatoi; [|discriminate].
    injection Hheader as ->.
    exists line, digits. split; [now apply list_elem_of_In|].
    split; [assumption|]. split; [assumption|].
    intros Hcanonical.
    destruct (dayHeaderRegex_shape line digits Hregex) as (_ & _ & tail & Htail).
    rewrite Forall_forall in Hnone. specialize (Hnone line Hline).
    rewrite Htail, Hcanonical, <- append_assoc in Hnone.
    rewrite Contains_HasPrefix in Hnone; [discriminate | apply HasPrefix_app].
Qed.

Lemma UpdateScreenshotReference_padded_day_witness :
  exists line digits,
    In line (content padded_file)
    /\ dayHeaderRegex line = Some digits
    /\ Atoi digits = inl 7
    /\ digits <> GoStrings.Itoa 7.
Proof.
  apply (UpdateScreenshotReference_padded_day sound
           padded_disk "log.md" padded_file
           (snd (UpdateScreenshotReference padded_file 7 "day-7-screenshot.png"))
           7 "day-7-screenshot.png").
  - vm_compute. reflexivity.
  - vm_compute. reflexivity.
Defined.

(** * config/config.go *)

Import config config_props.

(** ** Numbers read back *)

Lemma uint_value_le (d : Decimal.uint) (acc : Z) : 0 <= acc -> acc <= uint_value d acc.
Proof.
  revert acc. induction d; intros acc Hacc; cbn [uint_value]; [lia|..];
    match goal with
    | |- _ <= uint_value _ ?a => specialize (IHd a ltac:(lia)); lia
    end.
Qed.

Lemma parse_digits_uint (d : Decimal.uint) (acc : Z) :
  0 <= acc -> uint_value d acc <= 2 ^ 64 - 1 ->
  parse_digits (NilEmpty.string_of_uint d) acc = inl (uint_value d acc).
Proof.
  revert acc. induction d; intros acc Hacc Hmax;
    cbn [NilEmpty.string_of_uint parse_digits uint_value] in *; [reflexivity|..];
    match goal with
    | |- context [is_decimal ?c] =>
        change (is_decimal c) with true; cbv iota;
        match type of Hmax with
        | uint_value _ ?a <= _ =>
            change (10 * acc + digit_value c) with a;
            pose proof (uint_value_le d a ltac:(lia));
            destruct (Z.gtb_spec a (2 ^ 64 - 1)); [lia|];
            apply IHd; [lia | assumption]
        end
    end.
Qed.

Lemma uint_value_acc (d : Decimal.uint) (acc : positive) :
  uint_value d (Z.pos acc) = Z.pos (Pos.of_uint_acc d acc).
Proof.
  revert acc. induction d; intros acc; cbn [uint_value Pos.of_uint_acc]; [reflexivity|..];
    match goal with
    | |- uint_value _ ?a = Z.pos (Pos.of_uint_acc _ ?b) =>
        replace a with (Z.pos b) by lia; apply IHd
    end.
Qed.

Lemma uint_value_of_uint (d : Decimal.uint) :
  uint_value d 0 = Z.of_N (Pos.of_uint d).
Proof.
  induction d; cbn [uint_value Pos.of_uint]; [reflexivity | exact IHd |..];
    match goal with
    | |- uint_value _ ?a = Z.of_N (N.pos (Pos.of_uint_acc _ ?b)) =>
        replace a with (Z.pos b) by lia; apply uint_value_acc
    end.
Qed.

Lemma uint_value_to_uint (p : positive) : uint_value (Pos.to_uint p) 0 = Z.pos p.
Proof.
  now rewrite uint_value_of_uint, DecimalPos.Unsigned.of_to.
Qed.

(** [strconv.Atoi] reads back what [%d] prints. *)
Lemma Atoi_Itoa (n : Z) :
  float64.min_int64 <= n <= float64.max_int64 -> Atoi (GoStrings.Itoa n) = inl n.
Proof.
  unfold float64.min_int64, float64.max_int64. intros Hn.
  change (2 ^ 63) with 9223372036854775808 in Hn.
  unfold GoStrings.Itoa. destruct n as [|p|p]; cbn [Z.to_int]; [reflexivity|..].
  - pose proof (DecimalPos.Unsigned.to_uint_nonnil p) as Hnil.
    pose proof (string_of_uint_digits (Pos.to_uint p)) as Hdigits.
    pose proof (parse_digits_uint (Pos.to_uint p) 0 ltac:(lia)) as Hparse.
    rewrite uint_value_to_uint in Hparse.
    cbn [NilZero.string_of_int].
    replace (NilZero.string_of_uint (Pos.to_uint p))
      with (NilEmpty.string_of_uint (Pos.to_uint p))
      by (destruct (Pos.to_uint p); [congruence | reflexivity..]).
    destruct (NilEmpty.string_of_uint (Pos.to_uint p)) as [|c s] eqn:Hs.
    { now apply string_of_uint_nonempty in Hs. }
    cbn [all_of] in Hdigits. apply andb_true_iff in Hdigits as [Hc _].
    unfold Atoi.
    assert (Hminus : Ascii.eqb c "-" = false)
      by (destruct (Ascii.eqb_spec c "-") as [->|]; [discriminate Hc | reflexivity]).
    assert (Hplus : Ascii.eqb c "+" = false)
      by (destruct (Ascii.eqb_spec c "+") as [->|]; [discriminate Hc | reflexivity]).
    rewrite Hminus, Hplus. cbn [orb negb andb]. unfold ParseUint.
    rewrite Hparse by (change (2 ^ 64) with 18446744073709551616; lia).
    destruct (Z.geb_spec (Z.pos p) (2 ^ 63)) as [Hbig|_]; [|reflexivity].
    change (2 ^ 63) with 9223372036854775808 in Hbig. lia.
  - pose proof (DecimalPos.Unsigned.to_uint_nonnil p) as Hnil.
    pose proof (parse_digits_uint (Pos.to_uint p) 0 ltac:(lia)) as Hparse.
    rewrite uint_value_to_uint in Hparse.
    cbn [NilZero.string_of_int].
    replace (NilZero.string_of_uint (Pos.to_uint p))
      with (NilEmpty.string_of_uint (Pos.to_uint p))
      by (destruct (Pos.to_uint p); [congruence | reflexivity..]).
    unfold Atoi. cbn [Ascii.eqb Bool.eqb orb negb andb]. unfold ParseUint.
    destruct (NilEmpty.string_of_uint (Pos.to_uint p)) as [|c s] eqn:Hs.
    { now apply string_of_uint_nonempty in Hs. }
    rewrite Hparse by (change (2 ^ 64) with 18446744073709551616; lia).
    destruct (Z.gtb_spec (Z.pos p) (2 ^ 63)) as [Hbig|_]; [|reflexivity].
    change (2 ^ 63) with 9223372036854775808 in Hbig. lia.
Qed.

(** X26: the number of retries reads back.  When the variable holds a
    number as [%d] prints it, [getIntFromEnv] returns that number, whatever
    the default; when it is unset the default is returned. *)
Theorem getIntFromEnv_reads_back (os : OS) (key : string) (n defaultValue : Z) :
  float64.min_int64 <= n <= float64.max_int64 ->
  (Getenv os key = GoStrings.Itoa n -> getIntFromEnv os key defaultValue = n)
  /\ (Getenv os key = "" -> getIntFromEnv os key defaultValue = defaultValue).
Proof.
  intros Hn. unfold getIntFromEnv. split; intros ->; [|reflexivity].
  rewrite (Atoi_Itoa n Hn).
  destruct (Itoa_numeral n) as (sign & digits & -> & Hsign & _ & Hne).
  destruct sign, digits; try reflexivity; congruence.
Qed.

Lemma getIntFromEnv_reads_back_witness :
  getIntFromEnv negative_retries "SCREENSHOT_MAX_RETRIES" 3 = -5.
Proof.
  apply (getIntFromEnv_reads_back negative_retries "SCREENSHOT_MAX_RETRIES" (-5) 3).
  - unfold float64.min_int64, float64.max_int64. lia.
  - reflexivity.
Defined.

(** ** Loading the configuration *)

Lemma getEnvWithDefault_nonempty (os : OS) (key defaultValue : string) :
  defaultValue <> "" -> getEnvWithDefault os key defaultValue <> "".
Proof.
  intros Hd. unfold getEnvWithDefault.
  destruct (String.eqb_spec (Getenv os key) ""); cbn [negb]; assumption.
Qed.

Lemma getEnvWithDefault_empty (os : OS) (key : string) :
  getEnvWithDefault os key "" = Getenv os key.
Proof.
  unfold getEnvWithDefault.
  now destruct (String.eqb_spec (Getenv os key) "") as [->|].
Qed.

(** X27: what [LoadConfig] returns.  A configuration that [LoadConfig]
    returns passes [Validate]: its timeout is positive, its number of
    retries is not negative, its user agent is not empty, and its browser
    path is empty or not reported missing; the output formats are always
    the same three. *)
Theorem LoadConfig_valid (os : OS) (c : Config) :
  LoadConfig os = inl c ->
  Validate os c = None
  /\ 0 < DefaultTimeout c
  /\ 0 <= MaxRetries c
  /\ UserAgent c <> ""
  /\ (BrowserPath c = "" \/ Stat os (BrowserPath c) <> NotExist)
  /\ OutputFormats c = ["original"; "twitter"; "linkedin"].
Proof.
  unfold LoadConfig. cbv zeta.
  destruct (Validate os _) as [err|] eqn:Hvalid; [discriminate|].
  intros [= <-]. split; [exact Hvalid|].
  unfold Validate in Hvalid.
  cbn [DefaultTimeout MaxRetries UserAgent BrowserPath OutputFormats] in *.
  destruct (Z.leb_spec (getTimeoutFromEnv os "SCREENSHOT_DEFAULT_TIMEOUT" (30 * Second)) 0);
    [discriminate|].
  destruct (Z.ltb_spec (getIntFromEnv os "SCREENSHOT_MAX_RETRIES" 3) 0); [discriminate|].
  destruct (String.eqb_spec
              (getEnvWithDefault os "SCREENSHOT_USER_AGENT" default_user_agent) "");
    [discriminate|].
  repeat split; try assumption.
  destruct (String.eqb_spec (getEnvWithDefault os "SCREENSHOT_BROWSER_PATH" "") "");
    [now left|].
  right. cbn [negb andb] in Hvalid.
  destruct (Stat os _); discriminate.
Qed.

Lemma LoadConfig_valid_witness :
  Validate unset DefaultConfig = None /\ 0 < DefaultTimeout DefaultConfig.
Proof.
  destruct (LoadConfig_valid unset DefaultConfig eq_refl) as (Hvalid & Htimeout & _).
  split; assumption.
Defined.

(** X28: how [LoadConfig] fails.  There are three errors, tried in this
    order: the timeout that was read is not positive, the number of retries
    that was read is negative, or the browser path that was given is
    reported missing.  The error for an empty user agent never comes from
    [LoadConfig]: an empty variable is replaced by the default. *)
Theorem LoadConfig_errors (os : OS) (e : error) :
  LoadConfig os = inr e ->
  let timeout := getTimeoutFromEnv os "SCREENSHOT_DEFAULT_TIMEOUT" (30 * Second) in
  let retries := getIntFromEnv os "SCREENSHOT_MAX_RETRIES" 3 in
  let browser := Getenv os "SCREENSHOT_BROWSER_PATH" in
  (timeout <= 0
   /\ e = errorString "invalid configuration: default timeout must be positive")
  \/ (0 < timeout /\ retries < 0
      /\ e = errorString "invalid configuration: max retries cannot be negative")
  \/ (0 < timeout /\ 0 <= retries /\ browser <> "" /\ Stat os browser = NotExist
      /\ e = errorString ("invalid configuration: specified browser path does not exist: "
                          ++ browser)).
Proof.
  unfold LoadConfig, Validate. cbv zeta.
  cbn [DefaultTimeout MaxRetries UserAgent BrowserPath].
  destruct (Z.leb_spec (getTimeoutFromEnv os "SCREENSHOT_DEFAULT_TIMEOUT" (30 * Second)) 0).
  { intros [= <-]. left. auto. }
  destruct (Z.ltb_spec (getIntFromEnv os "SCREENSHOT_MAX_RETRIES" 3) 0).
  { intros [= <-]. right. left. auto. }
  destruct (String.eqb_spec
              (getEnvWithDefault os "SCREENSHOT_USER_AGENT" default_user_agent) "")
    as [Hempty|_].
  { now apply getEnvWithDefault_nonempty in Hempty. }
  rewrite !getEnvWithDefault_empty.
  destruct (String.eqb_spec (Getenv os "SCREENSHOT_BROWSER_PATH") "") as [Hb|Hb];
    cbn [negb andb]; [discriminate|].
  destruct (Stat os (Getenv os "SCREENSHOT_BROWSER_PATH")) eqn:Hstat; try discriminate.
  intros [= <-]. right. right.
  split; [assumption|]. split; [assumption|]. split; [assumption|].
  split; reflexivity.
Qed.

Lemma LoadConfig_errors_witness :
  (getTimeoutFromEnv missing_browser "SCREENSHOT_DEFAULT_TIMEOUT" (30 * Second) <= 0
   /\ errorString
        "invalid configuration: specified browser path does not exist: /opt/chrome"
      = errorString "invalid configuration: default timeout must be positive")
  \/ (0 < getTimeoutFromEnv missing_browser "SCREENSHOT_DEFAULT_TIMEOUT" (30 * Second)
      /\ getIntFromEnv missing_browser "SCREENSHOT_MAX_RETRIES" 3 < 0
      /\ errorString
           "invalid configuration: specified browser path does not exist: /opt/chrome"
         = errorString "invalid configuration: max retries cannot be negative")
  \/ (0 < getTimeoutFromEnv missing_browser "SCREENSHOT_DEFAULT_TIMEOUT" (30 * Second)
      /\ 0 <= getIntFromEnv missing_browser "SCREENSHOT_MAX_RETRIES" 3
      /\ Getenv missing_browser "SCREENSHOT_BROWSER_PATH" <> ""
      /\ Stat missing_browser (Getenv missing_browser "SCREENSHOT_BROWSER_PATH") = NotExist
      /\ errorString
           "invalid configuration: specified browser path does not exist: /opt/chrome"
         = errorString
             ("invalid configuration: specified browser path does not exist: "
              ++ Getenv missing_browser "SCREENSHOT_BROWSER_PATH")).
Proof.
  apply (LoadConfig_errors missing_browser). reflexivity.
Defined.

(** X29: nothing set.  With none of the four variables set, [LoadConfig]
    returns the configuration of [DefaultConfig]. *)
Theorem LoadConfig_defaults (os : OS) :
  Getenv os "SCREENSHOT_USER_AGENT" = "" ->
  Getenv os "SCREENSHOT_DEFAULT_TIMEOUT" = "" ->
  Getenv os "SCREENSHOT_BROWSER_PATH" = "" ->
  Getenv os "SCREENSHOT_MAX_RETRIES" = "" ->
  LoadConfig os = inl DefaultConfig.
Proof.
  intros Hua Ht Hb Hr.
  unfold LoadConfig, getEnvWithDefault, getTimeoutFromEnv, getIntFromEnv.
  rewrite Hua, Ht, Hb, Hr. reflexivity.
Qed.

Lemma LoadConfig_defaults_witness : LoadConfig unset = inl DefaultConfig.
Proof.
  apply LoadConfig_defaults; reflexivity.
Defined.
